(* ===== verification/_CoqProject ===== *)
-Q . S2P
Prelude.v
Color.v
JsMap.v
Types.v
UniqueName.v
Snapshot.v
History.v
SceneManager.v
CSG.v
Script.v
Scenarios.v
Services.v
App.v
SceneList.v
Viewer.v
Shell.v
Boot.v
Prompts.v
