(* ===== verification/Prelude.v ===== *)
(** * Janus (IANVS): a verification development of the scene core

    Janus is a browser CAD tool: a language model writes a small
    JavaScript script against a CSG (constructive solid geometry) DSL,
    the script is run to produce mesh objects, and the objects form a
    scene.  This development models, by shallow embedding:

    - [src/backend/engine/SceneManager.ts] (class [SceneManager]): an
      insertion-ordered [Map] from identifiers to [CADObject]s, the
      unique-name generator [getUniqueName], [renameObject],
      [duplicateObject], the command interpreter [processCommands], and
      a bounded undo/redo history of JSON snapshots ([saveState],
      [undo], [redo], [exportScene], [loadScene]);
    - [src/backend/engine/CSGEngine.ts] (classes [CADContext] and
      [CSGEngine]): the builtin table of the script DSL (primitives,
      transforms, [Color], the booleans and [Add]) and [execute], which
      runs a script in the body of a [new Function];
    - [src/App.tsx]: [handleSendMessage], one chat turn (generate a
      script, run it, show its objects, ask the vision model, run a
      fix), and the start-up load; the two services
      ([geminiService.ts], [visualFeedbackService.ts]) by what they do
      with a model's response;
    - [src/types.ts]: the data ([ShapeType], [CADObject],
      [AIActionType], [AICommand], [ChatMessage]);
    - the UI: the scene list [SceneCollection] and [Header]
      ([src/unnamed/part_000]), the chat panel [ChatInterface]
      ([src/unnamed/part_001]), the viewport [Viewer3D.tsx] (its handle
      [captureViews]/[focusObject], what it draws, its toolbar), the JSX
      of [App.tsx] that wires them, and [index.tsx] (mounting and the
      global error screens).

    How they interact: [App.tsx] feeds the text the script service
    returns to [execute] and puts the objects [execute] returns in the
    scene with [setObjects]; it does not use [SceneManager], whose
    operations are driven by structured commands.  The components get
    [App]'s state as props and report the user's actions through
    callbacks; the visual check photographs the scene through the
    viewer's [captureViews].

    ** Files, in dependency order

    - [Prelude] (this file): the notation scope [janus_scope], the error
      monad on [E + A], the development's tactics, the hint databases
      [janus] and [janus_rw], and generic lemmas on lists and strings.
    - [Color]: three.js [Color] as the interface [ThreeColor] (library
      code, not of this repository) and a 24-bit implementation with
      its print/parse round trip, used to evaluate scripts.
    - [JsMap]: the JavaScript [Map] as an insertion-ordered association
      list, with stdpp's [!!], [<[k:=v]>] and [delete].
    - [Types]: JavaScript numbers (binary64 through [SpecFloat], plus
      [null]), the enums, [CADObject], [AICommand], [||] on strings.
    - [UniqueName]: [getUniqueName] as a fuelled loop over a [gset].
    - [Snapshot]: [exportScene]/[loadScene] and the JSON round trip.
    - [History]: [saveState], [undo], [redo] over the [SnapshotCodec]
      class, an abstract timeline and the refinement theorem.
    - [SceneManager]: the scene state, its operations, the step relation
      [step] of the manager and its reachable-state invariant.
    - [CSG]: the [CADContext]: finalized objects, the material store and
      the brush arena; one definition per builtin; the single-material
      invariant and the builtins' contracts.
    - [Script]: the script syntax (declarations, assignment, [x++],
      [if], [while], [for], the arithmetic, comparison, strict-equality
      and short-circuit operators), scopes with hoisting, name resolution
      (script, builtins, host page), the fuelled interpreter
      [exec_block]/[exec_stmt], [execute]; a simulation lemma
      ([exec_rel]) from which determinism, unique ids and the context
      invariant of whole runs follow; fuel and termination.
    - [Scenarios]: [Add(Box(w, h, d), n)] for every input, the
      specification's scenarios and loop scripts run end to end, and
      the witnesses of the engine's theorems.
    - [Services]: [evaluateRender], [getPlan], [generateScript],
      [fixScript] after the model call.
    - [App]: the React state of a turn, [handleSendMessage] (its
      synchronous start [send_start] and the rest [send_rest]) and
      [initial_load], their theorems and witnesses.
    - [SceneList]: [SceneCollection] as a step function on DOM events
      (React's bubbling, [stopPropagation], the [window] listener),
      [String.prototype.trim] on UTF-8 bytes, the list's view, and
      [Header]'s counter.
    - [Viewer]: [Viewer3D]: camera and orbit controls, [captureViews],
      [focusObject], [RenderObject], the toolbar; three.js's [lookAt],
      [OrbitControls.update], the renderer and [Math.sin]/[Math.cos]
      are parameters.
    - [Shell]: [ChatInterface] and the page as one state machine
      [shell_step] over the user's events and the model's answers, with
      [App]'s handlers as the components' props; its reachable states.
    - [Boot]: [index.tsx]: the markup of the two error screens, the
      global handlers and the mount.
    - [Prompts]: the requests the services send: system instructions
      and prompt texts, the image parts of the visual check; the API
      the coding instruction advertises is the engine's builtin table,
      and a capture's eight renders reach the vision request.

    ** What the theorems show

    - Scene: every reachable [SceneManager] state has unique names and
      bounded stacks; [getUniqueName] returns the least free suffix and
      terminates; undo/redo refine an abstract timeline and are exact on
      documents that survive JSON; [renameObject] renames in place and
      [duplicateObject] appends a uniquely named copy.  Findings, each
      for every scene: two UPDATEs to the empty name leave two objects
      named [""]; an UPDATE carrying another object's id makes the next
      undo lose an object; undo gives every object back through JSON,
      so [-0] returns as [+0]; a DELETE of a missing id consumes
      history.
    - Engine: booleans take the left operand's material, [Color] changes
      only its own brush, absent operands pass through, primitives
      validate nothing, [Add(Box(w, h, d), n)] gives one object named
      [n] for all numbers and names; a run keeps every brush on one
      material, gives distinct ids, and is deterministic up to ids;
      findings: no time budget ([while (true) {}] never returns), host
      globals are reachable.
    - App: a failed vision call passes the design (fails open); a turn
      whose render is not sent for a fix shows exactly the script's
      objects, names not made unique (Scenario B's two Cubes); errors
      of the first and of the fixed script; every turn clears the
      loading flag; the start-up load shows the blue starter cube.
    - UI: every rename the scene list reports carries a trimmed,
      non-blank name; [captureViews] takes the eight labelled views and
      puts the camera back; in every reachable state of the page a turn
      is pending exactly when the loading flag is set, and no second
      turn can start; a click outside the list closes its context menu;
      finding: the list's Rename, Duplicate and Delete are wired to
      no-ops, so nothing done in the list changes the scene.  The
      failure screen of [index.tsx] is never replaced by a rejection
      screen.
    - [Scenarios] also runs the specification's scenarios and some
      loop and operator scripts on concrete inputs, as examples.

    ** Bounds and fuel

    - [getUniqueName] runs its loop with [size taken + 1] rounds, always
      enough ([unique_name_loop_total]).
    - The script interpreter takes fuel; one unit is spent per block and
      per statement, [while] spends one per round and [for] runs as a
      [while] in a scope of its own.  A block without loops never runs
      out with more fuel than its nesting depth ([exec_enough_fuel]),
      so [script_fuel] (nesting depth plus one) is enough for such a
      script, and more fuel never changes a finished run
      ([exec_fuel_mono]); for [while (true) {}] no fuel suffices, which
      is the code's behaviour.
    - [maxHistory] is 20, as in the code.

    ** Modelling choices

    - Numbers are [spec_float] at binary64 precision with [SFadd] for
      [+]; [null] is separate because JSON turns non-finite numbers into
      [null].
    - [Date.now()] is a parameter: a function of the reading's index
      (the caller's identifiers in [SceneManager], one reading per [Add]
      in the engine, the turn's readings in [App]).
    - A snapshot is the parsed JSON value; the text layer is the
      identity on values JSON represents.
    - Scripts are taken parsed; the parser of [new Function] is a
      parameter of [App].  Coercions the model does not follow end a run
      as [ExecUnsupported]; reaching the host page ends it as
      [ExecHost].

    ** Not modelled

    - The three.js geometry and CSG evaluator: geometry is a symbolic
      term recording what was built.
    - JavaScript outside the script fragment (functions, objects and
      arrays, member access such as [Math.PI], [break]/[continue],
      compound assignment, coercions between strings and numbers), and
      the parser from a script's text to
      its syntax (a parameter of [App]).
    - The network calls of the services: a call is given as the
      response it returns.
    - What three.js and the browser compute: geometry, the rotation
      [lookAt] gives, the orbit controls' [update], the pixels of a
      render, [Math.sin]/[Math.cos] (parameters of [Viewer]); CSS, and
      the layout of the markup React renders (a parameter of [Boot]).
    - The [Copy Error] button of [App]'s error page (the clipboard) and
      the stack of [initialError], which [App]'s state does not keep;
      [handleDownload]'s Blob and object URL beyond the file it saves;
      a [blur] the browser may fire while React removes the name input
      of the scene list; the order of React's re-renders inside one
      event (each event sees the state of the last render). *)

From Stdlib Require Export Ascii.
From stdpp Require Export base list strings gmap pretty.

Declare Scope janus_scope.
Delimit Scope janus_scope with janus.
Open Scope janus_scope.

(** [x |> f] is the statement sequence of a method body: each
    statement is a state transformer applied to the state the previous
    one left. *)
Notation "x |> f" := (f x) (at level 69, left associativity, only parsing)
  : janus_scope.

Create HintDb janus.
Create Rewrite HintDb janus_rw.

(** ** Tactics *)

(** [invc H]: invert a hypothesis and clean up. *)
Ltac invc H := inversion H; subst; clear H.

(** [bool_to_prop]: turn the boolean tests the models compute with into
    the propositions the proofs reason with. *)
Ltac bool_to_prop :=
  repeat match goal with
  | H : (_ =? _)%string = true |- _ => apply String.eqb_eq in H
  | H : (_ =? _)%string = false |- _ => apply String.eqb_neq in H
  | H : (_ && _)%bool = true |- _ => apply andb_prop in H as [? ?]
  | H : negb _ = true |- _ => apply negb_true_iff in H
  | H : negb _ = false |- _ => apply negb_false_iff in H
  end.

(** [decide_true] / [decide_false]: close a decidable goal, or its
    negation, by evaluating its decision procedure. *)
Ltac decide_true :=
  match goal with |- ?P => apply (bool_decide_unpack P); vm_compute; exact I end.
Ltac decide_false :=
  match goal with
  |- ¬ ?P => let Hp := fresh in intros Hp; apply (bool_decide_pack P) in Hp;
             vm_compute in Hp; exact Hp
  end.

(** ** Generic lemmas on lists *)

Section ListFacts.
Context {A B : Type}.

Lemma NoDup_map_filter (f : A → B) (P : A → Prop) `{∀ x, Decision (P x)}
    (l : list A) :
  NoDup (f <$> l) → NoDup (f <$> filter P l).
Proof.
  induction l as [|x l IH]; simpl; [done|].
  rewrite NoDup_cons. intros [Hx Hl].
  rewrite filter_cons. case_decide; simpl; [|by apply IH].
  rewrite NoDup_cons. split; [|by apply IH].
  intros Hin. apply Hx. apply list_elem_of_fmap in Hin as (y & -> & Hy).
  apply list_elem_of_fmap. exists y. split; [done|].
  by apply list_elem_of_filter in Hy as [_ ?].
Qed.

Lemma filter_id (P : A → Prop) `{∀ x, Decision (P x)} (l : list A) :
  (∀ x, x ∈ l → P x) → filter P l = l.
Proof.
  induction l as [|x l IH]; intros Hall; [done|].
  rewrite filter_cons_True; [|apply Hall; left].
  f_equal. apply IH. intros y Hy. apply Hall. by right.
Qed.

(** In a list whose images are distinct, equal images mean equal
    elements. *)
Lemma NoDup_fmap_eq (f : A → B) (l : list A) (x y : A) :
  NoDup (f <$> l) → x ∈ l → y ∈ l → f x = f y → x = y.
Proof.
  induction l as [|z l IH]; intros Hnd Hx Hy Hf; [by apply elem_of_nil in Hx|].
  rewrite fmap_cons, NoDup_cons in Hnd. destruct Hnd as [Hz Hnd].
  apply elem_of_cons in Hx as [->|Hx], Hy as [->|Hy]; [done| | |by apply IH].
  - exfalso. apply Hz. rewrite Hf. by apply list_elem_of_fmap_2.
  - exfalso. apply Hz. rewrite <-Hf. by apply list_elem_of_fmap_2.
Qed.

Lemma Forall_filter_2 (P Q : A → Prop) `{∀ x, Decision (Q x)} (l : list A) :
  Forall P l → Forall P (filter Q l).
Proof.
  rewrite !Forall_forall. intros HP x Hx.
  apply list_elem_of_filter in Hx as [_ Hx]. by apply HP.
Qed.

Lemma last_snoc (l : list A) (x : A) : last (l ++ [x]) = Some x.
Proof. by rewrite last_app. Qed.

Lemma removelast_snoc (l : list A) (x : A) : removelast (l ++ [x]) = l.
Proof. apply removelast_last. Qed.
End ListFacts.

#[export] Hint Resolve NoDup_map_filter : janus.
#[export] Hint Rewrite @last_snoc @removelast_snoc : janus_rw.

(** ** Strings *)

(** Appending a suffix to a fixed base is injective in the suffix. *)
Lemma append_suffix_inj (base s1 s2 : string) :
  base +:+ s1 = base +:+ s2 → s1 = s2.
Proof. apply (inj (String.append base)). Qed.

Lemma string_length_app (s1 s2 : string) :
  String.length (s1 +:+ s2) = String.length s1 + String.length s2.
Proof. induction s1 as [|c s1 IH]; simpl; [done|by rewrite IH]. Qed.

Lemma pretty_N_suffix_inj (base : string) (n m : N) :
  base +:+ pretty n = base +:+ pretty m → n = m.
Proof. intros H. apply append_suffix_inj in H. by apply (inj pretty). Qed.

#[export] Hint Resolve pretty_N_suffix_inj : janus.

(** ** The error monad

    Code that throws is modelled as a function into [E + A]: [inl e] is
    the exception [e], [inr a] the normal result.  The instances make
    stdpp's [x ← m; k] notation thread the exception. *)

#[export] Instance sum_ret {E} : MRet (sum E) := λ _ a, inr a.
#[export] Instance sum_bind {E} : MBind (sum E) :=
  λ _ _ k m, match m with inl e => inl e | inr a => k a end.
#[export] Instance sum_fmap {E} : FMap (sum E) :=
  λ _ _ f m, match m with inl e => inl e | inr a => inr (f a) end.

Lemma sum_bind_inr {E A B} (a : A) (k : A → E + B) : (inr a ≫= k) = k a.
Proof. done. Qed.

Lemma sum_bind_inl {E A B} (e : E) (k : A → E + B) : (inl e ≫= k) = inl e.
Proof. done. Qed.

Lemma sum_bind_inr_inv {E A B} (m : E + A) (k : A → E + B) (b : B) :
  (m ≫= k) = inr b → ∃ a, m = inr a ∧ k a = inr b.
Proof. destruct m; simpl; [done|eauto]. Qed.

#[export] Hint Rewrite @sum_bind_inr @sum_bind_inl : janus_rw.

(** ** Decimal numerals do not contain a separator *)

Lemma pretty_N_go_no_char (c : ascii) (x : N) (s : string) :
  (∀ d, pretty_N_char d ≠ c) → c ∉ String.list_ascii_of_string s →
  c ∉ String.list_ascii_of_string (pretty_N_go x s).
Proof.
  intros Hc. revert s. induction (N.lt_wf_0 x) as [x _ IH]; intros s Hs.
  destruct (decide (x = 0)%N) as [->|?]; [by rewrite pretty_N_go_0|].
  rewrite pretty_N_go_step by lia. apply IH; [apply N.div_lt; lia|].
  simpl. rewrite elem_of_cons. intros [H'|H']; [by apply (Hc (x `mod` 10)%N)|done].
Qed.

Lemma pretty_N_no_underscore (n : N) : "_"%char ∉ String.list_ascii_of_string (pretty n).
Proof.
  assert (∀ d, pretty_N_char d ≠ "_"%char) as Hc.
  { intros d. unfold pretty_N_char. by repeat case_match. }
  unfold pretty, pretty_N. case_decide; [simpl; set_solver|].
  apply pretty_N_go_no_char; [done|simpl; set_solver].
Qed.

(** Splitting at the first separator. *)
Lemma sep_split_inj (sep : ascii) (a b c d : string) :
  sep ∉ String.list_ascii_of_string a → sep ∉ String.list_ascii_of_string c →
  a +:+ String sep b = c +:+ String sep d → a = c ∧ b = d.
Proof.
  revert c. induction a as [|x a IH]; intros [|y c] Ha Hc; simpl; intros Heq.
  - by injection Heq.
  - injection Heq as -> _. simpl in Hc. set_solver.
  - injection Heq as -> _. simpl in Ha. set_solver.
  - injection Heq as -> Heq. simpl in *.
    apply IH in Heq as [-> ->]; [done|set_solver..].
Qed.
