(* ===== verification/Color.v ===== *)
(** * three.js [Color], as [CSGEngine.ts] uses it

    The engine calls three methods of the library's [Color]: the
    constructor through [new MeshStandardMaterial({ color: 0xcccccc })],
    [color.set(hex)] in the [Color] builtin, and [color.getHexString()]
    in [Add].  They are library code, not code of this repository, so
    the engine is modelled against the interface [ThreeColor] and its
    theorems hold for every implementation.

    [hex_color] is one implementation, used to evaluate scripts: a color
    is a 24-bit integer [0xRRGGBB]; [set] accepts the styles [#rrggbb]
    and [#rgb] (either case) and leaves the color unchanged on anything
    else; [getHexString] prints six lowercase hex digits.  Its digits are
    taken with [Z.shiftr] and [Z.land], and [hex_color_roundtrip] shows
    that printing then setting gives back the same color. *)

From Stdlib Require Import Ascii.
From S2P Require Import Prelude.

Class ThreeColor := {
  color_t : Type;
  color_of_int : Z → color_t;
  color_set : color_t → string → color_t;
  getHexString : color_t → string
}.

(** ** The 24-bit implementation *)

Definition hex_char (d : Z) : ascii :=
  match d with
  | 0 => "0" | 1 => "1" | 2 => "2" | 3 => "3" | 4 => "4" | 5 => "5"
  | 6 => "6" | 7 => "7" | 8 => "8" | 9 => "9" | 10 => "a" | 11 => "b"
  | 12 => "c" | 13 => "d" | 14 => "e" | _ => "f"
  end%Z%char.

Definition hex_value (c : ascii) : option Z :=
  let n := Z.of_nat (nat_of_ascii c) in
  if ((48 <=? n) && (n <=? 57))%Z then Some (n - 48)%Z
  else if ((97 <=? n) && (n <=? 102))%Z then Some (n - 87)%Z
  else if ((65 <=? n) && (n <=? 70))%Z then Some (n - 55)%Z
  else None.

(** [k] hex digits of [n], most significant first. *)
Fixpoint hex_digits (k : nat) (n : Z) : string :=
  match k with
  | O => ""
  | S k' => hex_digits k' (Z.shiftr n 4) +:+ String (hex_char (Z.land n 15)) ""
  end.

Fixpoint parse_hex_from (acc : Z) (s : string) : option Z :=
  match s with
  | "" => Some acc
  | String c s' =>
      match hex_value c with
      | Some d => parse_hex_from (acc * 16 + d) s'
      | None => None
      end
  end.

(** [#rgb]: each digit [d] stands for [d * 17] ([0xd / 15 * 255]). *)
Definition expand_short (v : Z) : Z :=
  let r := Z.land (Z.shiftr v 8) 15 in
  let g := Z.land (Z.shiftr v 4) 15 in
  let b := Z.land v 15 in
  Z.lor (Z.shiftl (r * 17) 16) (Z.lor (Z.shiftl (g * 17) 8) (b * 17)).

Definition hex_set (c : Z) (style : string) : Z :=
  match style with
  | String "#" body =>
      match String.length body, parse_hex_from 0 body with
      | 6, Some v => v
      | 3, Some v => expand_short v
      | _, _ => c
      end
  | _ => c
  end%char.

#[export] Instance hex_color : ThreeColor := {|
  color_t := Z;
  color_of_int := λ n, Z.land n (Z.ones 24);
  color_set := hex_set;
  getHexString := hex_digits 6
|}.

(** ** Lemmas *)

Lemma land_15 (n : Z) : Z.land n 15 = (n mod 16)%Z.
Proof. change 15%Z with (Z.ones 4). by rewrite Z.land_ones by lia. Qed.

Lemma hex_value_char d : (0 ≤ d < 16)%Z → hex_value (hex_char d) = Some d.
Proof.
  intros Hd. assert (d = 0 ∨ d = 1 ∨ d = 2 ∨ d = 3 ∨ d = 4 ∨ d = 5 ∨ d = 6 ∨
    d = 7 ∨ d = 8 ∨ d = 9 ∨ d = 10 ∨ d = 11 ∨ d = 12 ∨ d = 13 ∨ d = 14 ∨
    d = 15)%Z as Hcases by lia.
  repeat destruct Hcases as [->|Hcases]; [..|subst]; reflexivity.
Qed.

Lemma parse_hex_from_app acc s c :
  parse_hex_from acc (s +:+ String c "") =
  parse_hex_from acc s ≫= λ a, (λ d, a * 16 + d)%Z <$> hex_value c.
Proof.
  revert acc. induction s as [|c' s IH]; intros acc; simpl.
  - by destruct (hex_value c).
  - destruct (hex_value c'); [apply IH|done].
Qed.

Lemma hex_digits_length k n : String.length (hex_digits k n) = k.
Proof.
  revert n. induction k as [|k IH]; intros n; [done|]. simpl.
  rewrite string_length_app, IH. simpl. lia.
Qed.

(** Reading [k] printed digits back gives [n mod 16^k]. *)
Lemma parse_hex_digits k n :
  parse_hex_from 0 (hex_digits k n) = Some (n mod 16 ^ Z.of_nat k)%Z.
Proof.
  revert n. induction k as [|k IH]; intros n.
  - simpl. by rewrite Z.mod_1_r.
  - cbn [hex_digits]. rewrite parse_hex_from_app, IH. simpl.
    rewrite land_15, hex_value_char by (apply Z.mod_pos_bound; lia).
    simpl. f_equal. rewrite Z.shiftr_div_pow2 by lia.
    rewrite Nat2Z.inj_succ, Z.pow_succ_r by lia.
    rewrite Z.rem_mul_r by (try apply Z.pow_pos_nonneg; lia).
    change (2 ^ 4)%Z with 16%Z. lia.
Qed.

Lemma hex_set_hash c body :
  hex_set c (String "#" body) =
  match String.length body, parse_hex_from 0 body with
  | 6, Some v => v
  | 3, Some v => expand_short v
  | _, _ => c
  end.
Proof. reflexivity. Qed.

(** For the 24-bit implementation, setting a color from
    ["#" + getHexString()] gives back the same color, for every
    24-bit color. *)
Theorem hex_color_roundtrip (c c' : Z) :
  (0 ≤ c < 2 ^ 24)%Z → hex_set c' ("#" +:+ hex_digits 6 c) = c.
Proof.
  intros Hc. change ("#" +:+ hex_digits 6 c) with (String "#" (hex_digits 6 c)).
  rewrite hex_set_hash, hex_digits_length, parse_hex_digits.
  rewrite Z.mod_small; [done|]. change (16 ^ 6)%Z with (2 ^ 24)%Z. lia.
Qed.

