(* ===== verification/JsMap.v ===== *)
(** * The JavaScript [Map] with string keys

    [SceneManager] keeps its objects in a [Map<string, CADObject>]
    (SceneManager.ts, line 5).  A JavaScript [Map] remembers insertion
    order: [set] on a present key replaces the value where it stands,
    [set] on a new key appends, [delete] removes the entry, and
    [values()] enumerates in insertion order.  The order is observable
    ([getObjects], [exportScene]), so the map is an association list,
    not a finite map with extensional equality.

    stdpp's [Lookup], [Insert] and [Delete] classes are instantiated so
    that [m !! k], [<[k:=v]> m] and [delete k m] read like the code's
    [get], [set] and [delete]. *)

From S2P Require Import Prelude.

Record JsMap (V : Type) := MkJsMap { entries : list (string * V) }.
Arguments MkJsMap {V} _.
Arguments entries {V} _.

Section JsMapOps.
Context {V : Type}.

Fixpoint assoc_get (k : string) (l : list (string * V)) : option V :=
  match l with
  | [] => None
  | (k', v) :: l' => if String.eqb k k' then Some v else assoc_get k l'
  end.

(** [Map.prototype.set]: replace in place, or append a new entry. *)
Fixpoint assoc_set (k : string) (v : V) (l : list (string * V))
    : list (string * V) :=
  match l with
  | [] => [(k, v)]
  | (k', v') :: l' =>
      if String.eqb k k' then (k, v) :: l' else (k', v') :: assoc_set k v l'
  end.

(** [Map.prototype.delete]. *)
Definition assoc_delete (k : string) (l : list (string * V))
    : list (string * V) :=
  filter (λ e, e.1 ≠ k) l.

#[export] Instance jsmap_lookup : Lookup string V (JsMap V) :=
  λ k m, assoc_get k (entries m).
#[export] Instance jsmap_insert : Insert string V (JsMap V) :=
  λ k v m, MkJsMap (assoc_set k v (entries m)).
#[export] Instance jsmap_delete : Delete string (JsMap V) :=
  λ k m, MkJsMap (assoc_delete k (entries m)).
#[export] Instance jsmap_empty : Empty (JsMap V) := MkJsMap [].

(** [Map.prototype.has]. *)
Definition map_has (k : string) (m : JsMap V) : bool :=
  bool_decide (is_Some (m !! k)).

(** [Array.from(map.values())]. *)
Definition map_values (m : JsMap V) : list V := snd <$> entries m.

Definition map_keys (m : JsMap V) : list string := fst <$> entries m.

(** A [Map] never holds a key twice. *)
Definition keys_nodup (m : JsMap V) : Prop := NoDup (map_keys m).
End JsMapOps.

#[export] Instance JsMap_eq_dec {V} `{EqDecision V} : EqDecision (JsMap V).
Proof. solve_decision. Defined.

(** ** Laws of the model *)

Section JsMapLaws.
Context {V : Type}.
Implicit Types (m : JsMap V) (l : list (string * V)) (k : string) (v : V).

Lemma assoc_get_elem k v l : assoc_get k l = Some v → (k, v) ∈ l.
Proof.
  induction l as [|[k' v'] l IH]; simpl; [done|].
  destruct (String.eqb_spec k k') as [->|]; intros H.
  - injection H as ->. left.
  - right. by apply IH.
Qed.

Lemma assoc_get_None k l : k ∉ l.*1 → assoc_get k l = None.
Proof.
  induction l as [|[k' v'] l IH]; simpl; [done|].
  rewrite not_elem_of_cons. intros [Hne Hk].
  destruct (String.eqb_spec k k'); [congruence|]. by apply IH.
Qed.

Lemma assoc_get_set_eq l k v : assoc_get k (assoc_set k v l) = Some v.
Proof.
  induction l as [|[k' v'] l IH]; simpl.
  - by rewrite String.eqb_refl.
  - destruct (String.eqb_spec k k') as [->|Hne]; simpl.
    + by rewrite String.eqb_refl.
    + apply String.eqb_neq in Hne. by rewrite Hne.
Qed.

Lemma assoc_get_set_ne l k k' v :
  k ≠ k' → assoc_get k' (assoc_set k v l) = assoc_get k' l.
Proof.
  intros Hne. induction l as [|[k'' v'] l IH]; simpl.
  - destruct (String.eqb_spec k' k); congruence.
  - destruct (String.eqb_spec k k'') as [->|]; simpl.
    + destruct (String.eqb_spec k' k''); congruence.
    + by destruct (String.eqb_spec k' k'').
Qed.

Lemma lookup_set_eq m k v : <[k:=v]> m !! k = Some v.
Proof. apply assoc_get_set_eq. Qed.

Lemma lookup_set_ne m k k' v : k ≠ k' → <[k:=v]> m !! k' = m !! k'.
Proof. apply assoc_get_set_ne. Qed.

Lemma assoc_get_delete_eq l k : assoc_get k (assoc_delete k l) = None.
Proof.
  apply assoc_get_None. unfold assoc_delete.
  intros (e & -> & He)%list_elem_of_fmap.
  by apply list_elem_of_filter in He as [? _].
Qed.

Lemma assoc_get_delete_ne l k k' :
  k ≠ k' → assoc_get k' (assoc_delete k l) = assoc_get k' l.
Proof.
  intros Hne. unfold assoc_delete.
  induction l as [|[k'' v'] l IH]; [done|].
  rewrite filter_cons. case_decide as Hk; cbn [assoc_get fst] in *.
  - by destruct (String.eqb_spec k' k'').
  - destruct (String.eqb_spec k' k''); [congruence|]. done.
Qed.

Lemma lookup_delete_eq m k : delete k m !! k = None.
Proof. apply assoc_get_delete_eq. Qed.

Lemma lookup_delete_ne m k k' : k ≠ k' → delete k m !! k' = m !! k'.
Proof. apply assoc_get_delete_ne. Qed.

Lemma keys_set l k v :
  (assoc_set k v l).*1 = if decide (k ∈ l.*1) then l.*1 else l.*1 ++ [k].
Proof.
  induction l as [|[k' v'] l IH]; [done|].
  cbn [assoc_set]. rewrite fmap_cons.
  destruct (String.eqb_spec k k') as [->|Hne]; rewrite fmap_cons; cbn [fst].
  - rewrite decide_True; [done|]. left.
  - rewrite IH. case_decide as H1; case_decide as H2; try done.
    + exfalso. apply H2. by right.
    + exfalso. apply elem_of_cons in H2 as [|]; congruence.
Qed.

Lemma keys_nodup_set m k v : keys_nodup m → keys_nodup (<[k:=v]> m).
Proof.
  destruct m as [l]. unfold keys_nodup, map_keys, insert, jsmap_insert.
  cbn [entries]. rewrite keys_set. case_decide; [done|].
  intros Hl. apply NoDup_app. split; [done|]. split; [|apply NoDup_singleton].
  by intros x ? ->%list_elem_of_singleton.
Qed.

Lemma keys_nodup_delete m k : keys_nodup m → keys_nodup (delete k m).
Proof.
  destruct m as [l]. unfold keys_nodup, map_keys, delete; simpl.
  apply NoDup_map_filter.
Qed.

Lemma keys_nodup_empty : keys_nodup (∅ : JsMap V).
Proof. constructor. Qed.

(** Setting a fresh key appends the entry at the end. *)
Lemma assoc_set_fresh l k v : k ∉ l.*1 → assoc_set k v l = l ++ [(k, v)].
Proof.
  induction l as [|[k' v'] l IH]; simpl; [done|].
  rewrite not_elem_of_cons. intros [Hne Hk].
  destruct (String.eqb_spec k k'); [congruence|]. by rewrite IH.
Qed.

(** With distinct keys, [set] puts the value in place of the deleted
    entry: the values are those of [delete k m] plus [v]. *)
Lemma values_set_perm m k v :
  keys_nodup m → map_values (<[k:=v]> m) ≡ₚ v :: map_values (delete k m).
Proof.
  destruct m as [l].
  unfold keys_nodup, map_keys, map_values, insert, jsmap_insert, delete,
    jsmap_delete, assoc_delete. cbn [entries].
  induction l as [|[k' v'] l IH]; [done|].
  rewrite fmap_cons, NoDup_cons. intros [Hk' Hl]. rewrite filter_cons.
  cbn [assoc_set fst snd] in *.
  destruct (String.eqb_spec k k') as [->|Hne]; simpl.
  - rewrite decide_False; [|by intros []].
    rewrite filter_id; [done|].
    intros [k'' v''] Hin Heq. cbn in Heq. subst k''. apply Hk'.
    apply list_elem_of_fmap. by exists (k', v'').
  - rewrite decide_True; [|congruence]. simpl.
    rewrite IH by done. apply perm_swap.
Qed.

Lemma values_delete_sublist m k :
  map_values (delete k m) `sublist_of` map_values m.
Proof.
  destruct m as [l]. unfold map_values, delete; simpl.
  apply fmap_sublist, sublist_filter.
Qed.

Lemma lookup_elem_values m k v : m !! k = Some v → v ∈ map_values m.
Proof.
  destruct m as [l]. unfold lookup, map_values; simpl. intros H.
  apply list_elem_of_fmap. exists (k, v). split; [done|].
  by apply assoc_get_elem.
Qed.

Lemma assoc_get_None_inv k l : assoc_get k l = None → k ∉ l.*1.
Proof.
  induction l as [|[k' v'] l IH]; simpl; [intros _; apply not_elem_of_nil|].
  destruct (String.eqb_spec k k'); [discriminate|].
  intros H. rewrite not_elem_of_cons. split; [done|by apply IH].
Qed.

(** [delete] of an absent key changes nothing. *)
Lemma delete_absent m k : m !! k = None → delete k m = m.
Proof.
  destruct m as [l]. unfold lookup, jsmap_lookup, delete, jsmap_delete, assoc_delete.
  cbn [entries]. intros H%assoc_get_None_inv. f_equal. apply filter_id.
  intros [k' v] Hin Heq. cbn in Heq. subst k'. apply H.
  apply list_elem_of_fmap. by exists (k, v).
Qed.

(** [has] decides presence. *)
Lemma map_has_spec m k : map_has k m = true ↔ is_Some (m !! k).
Proof. unfold map_has. by rewrite bool_decide_eq_true. Qed.
(** Two distinct keys whose values agree under [f] make the images of
    [values()] repeat. *)
Lemma lookup_values_not_nodup {B} (f : V → B) m a b x y :
  m !! a = Some x → m !! b = Some y → a ≠ b → f x = f y →
  ¬ NoDup (f <$> map_values m).
Proof.
  destruct m as [l]. unfold lookup, jsmap_lookup, map_values. cbn [entries].
  intros Ha%assoc_get_elem Hb%assoc_get_elem Hab Hf Hnd.
  rewrite <-list_fmap_compose in Hnd.
  assert ((a, x) = (b, y)) by (by eapply (NoDup_fmap_eq (f ∘ snd))). congruence.
Qed.

(** [set] of the value a key already holds changes nothing. *)
Lemma assoc_set_same l k v : assoc_get k l = Some v → assoc_set k v l = l.
Proof.
  induction l as [|[k' v'] l IH]; simpl; [done|].
  destruct (String.eqb_spec k k') as [->|]; [by intros [= ->]|].
  intros H. by rewrite IH.
Qed.

(** The values of a map are those of the map without [k], plus the
    value under [k]. *)
Lemma values_lookup_perm m k v :
  keys_nodup m → m !! k = Some v → map_values m ≡ₚ v :: map_values (delete k m).
Proof.
  intros Hnd Hk. etrans; [|by apply values_set_perm].
  destruct m as [l]. unfold lookup, jsmap_lookup in Hk.
  unfold map_values, insert, jsmap_insert. cbn [entries]. by rewrite assoc_set_same.
Qed.

(** Mapping over the values maps over every lookup. *)
Lemma lookup_fmap_values (f : V → V) m k :
  MkJsMap ((λ e : string * V, (e.1, f e.2)) <$> entries m) !! k = f <$> m !! k.
Proof.
  destruct m as [l]. unfold lookup, jsmap_lookup. cbn [entries].
  induction l as [|[k' v'] l IH]; simpl; [done|].
  by destruct (String.eqb k k').
Qed.
(** With distinct keys, [set] on a present key rewrites that entry in
    place and leaves every other entry where it was. *)
Lemma assoc_set_in_place l k v :
  k ∈ l.*1 → NoDup l.*1 →
  assoc_set k v l = (λ e : string * V, if String.eqb e.1 k then (k, v) else e) <$> l.
Proof.
  induction l as [|[k' v'] l IH]; [by intros ?%elem_of_nil|].
  rewrite !fmap_cons, elem_of_cons, NoDup_cons. intros Hin [Hk' Hnd]. cbn [assoc_set fst].
  destruct (String.eqb_spec k k') as [->|Hne]; cbn [fst].
  - rewrite String.eqb_refl. f_equal. rewrite list_fmap_ext with (g := λ e, e); [symmetry; apply list_fmap_id|].
    intros j [k'' v''] Hx. cbn. destruct (String.eqb_spec k'' k') as [->|]; [|done].
    exfalso. apply Hk'. apply list_elem_of_fmap. exists (k', v''). split; [done|].
    by eapply list_elem_of_lookup_2.
  - rewrite (proj2 (String.eqb_neq k' k)) by congruence. f_equal.
    apply IH; [destruct Hin as [Hin|Hin]; [simpl in Hin; congruence|done]|done].
Qed.
End JsMapLaws.

#[export] Hint Resolve keys_nodup_set keys_nodup_delete keys_nodup_empty : janus.
#[export] Hint Rewrite @lookup_set_eq @lookup_delete_eq : janus_rw.
