(* ===== verification/Types.v ===== *)
(** * The data of [src/types.ts]

    JavaScript numbers, the shape and action enums, [CADObject], the
    partial object an [AICommand] carries, and JavaScript's [||] on
    possibly absent strings, which the code uses for every default. *)

From Stdlib Require Export SpecFloat.
From S2P Require Import Prelude.

(** ** JavaScript numbers

    A JavaScript number is an IEEE-754 binary64 value: [spec_float]
    at precision 53 and maximal exponent 1024, with round-to-nearest
    [SFadd].  [null] is kept apart: JSON writes every non-finite number
    as [null], and after [JSON.parse] the field holds [null], which
    arithmetic converts to [+0] ([ToNumber(null) = +0]). *)

Definition js_prec : Z := 53.
Definition js_emax : Z := 1024.

Inductive num := Num (f : spec_float) | NumNull.

#[export] Instance spec_float_eq_dec : EqDecision spec_float.
Proof. solve_decision. Defined.
#[export] Instance num_eq_dec : EqDecision num.
Proof. solve_decision. Defined.

(** [ToNumber] on the values a number field can hold. *)
Definition to_float (x : num) : spec_float :=
  match x with Num f => f | NumNull => S754_zero false end.

(** The literal [m * 2^e], rounded to binary64. *)
Definition js_lit (m e : Z) : num :=
  Num (binary_normalize js_prec js_emax m e false).

(** [a + b] on JavaScript numbers. *)
Definition num_add (a b : num) : num :=
  Num (SFadd js_prec js_emax (to_float a) (to_float b)).

Definition float_is_finite (f : spec_float) : bool :=
  match f with S754_zero _ | S754_finite _ _ _ => true | _ => false end.

(** [Vector3] and [Euler] are [[number, number, number]]. *)
Definition Vector3 : Type := num * num * num.

(** ** Shapes, geometry and objects *)

Inductive ShapeType := BOX | SPHERE | CYLINDER | CONE | PLANE | MESH.

#[export] Instance ShapeType_eq_dec : EqDecision ShapeType.
Proof. solve_decision. Defined.

(** The three-bvh-csg operations [ADDITION], [SUBTRACTION],
    [INTERSECTION]. *)
Inductive CSGOp := ADDITION | SUBTRACTION | INTERSECTION.

#[export] Instance CSGOp_eq_dec : EqDecision CSGOp.
Proof. solve_decision. Defined.

(** A geometry, symbolically: the three.js constructor that built it,
    the world transform baked into it, or the result of a boolean
    evaluation of two operands' world geometries. *)
Inductive Geometry :=
  | BoxGeometry (width height depth : num)
  | SphereGeometry (radius : num) (widthSegments heightSegments : positive)
  | CylinderGeometry (radiusTop radiusBottom height : num)
      (radialSegments : positive)
  | Transformed (position rotation scale : Vector3) (g : Geometry)
  | Evaluated (op : CSGOp) (a b : Geometry).

#[export] Instance Geometry_eq_dec : EqDecision Geometry.
Proof. solve_decision. Defined.

(** [geometryData?: any]: the engine stores a [BufferGeometry]; after a
    JSON round trip it is the plain object [BufferGeometry.toJSON]
    produced, which carries the same data but is not a geometry
    three.js can render. *)
Inductive GeometryData :=
  | GeoBuffer (g : Geometry)
  | GeoJSON (g : Geometry).

#[export] Instance GeometryData_eq_dec : EqDecision GeometryData.
Proof. solve_decision. Defined.

(** [interface CADObject]; the optional fields are [option]s, [None]
    standing for an absent (or [undefined]) property. *)
Record CADObject := MkCADObject {
  id : string;
  name : string;
  type : ShapeType;
  position : Vector3;
  rotation : Vector3;
  scale : Vector3;
  color : string;
  args : option (list num);
  selected : option bool;
  visible : option bool;
  geometryData : option GeometryData
}.

#[export] Instance CADObject_eq_dec : EqDecision CADObject.
Proof. solve_decision. Defined.

(** [Partial<CADObject>] as the commands carry it: every property may be
    absent.  [null] and [undefined] are both [None]: every use in
    [processCommands] treats them alike ([||] defaults, and the
    [UPDATE] filter drops both). *)
Record PartialCADObject := MkPartial {
  p_id : option string;
  p_name : option string;
  p_type : option ShapeType;
  p_position : option Vector3;
  p_rotation : option Vector3;
  p_scale : option Vector3;
  p_color : option string;
  p_args : option (list num);
  p_selected : option bool;
  p_visible : option bool;
  p_geometryData : option GeometryData
}.

Definition empty_partial : PartialCADObject :=
  MkPartial None None None None None None None None None None None.

(** ** Commands *)

Inductive AIActionType := CREATE | UPDATE | DELETE | CLEAR | UNDO | REDO | FOCUS.

#[export] Instance AIActionType_eq_dec : EqDecision AIActionType.
Proof. solve_decision. Defined.

Record AICommand := MkAICommand {
  action : AIActionType;
  targetId : option string;
  reasoning : option string;
  objectData : option PartialCADObject
}.

(** ** JavaScript's [||] on strings

    A string is falsy exactly when it is empty; [a || b] is [a] when [a]
    is truthy and [b] otherwise. *)

Definition str_truthy (s : option string) : bool :=
  match s with Some x => negb (String.eqb x "") | None => false end.

Definition js_or (a b : option string) : option string :=
  if str_truthy a then a else b.

Definition js_or_default (a : option string) (d : string) : string :=
  match js_or a (Some d) with Some x => x | None => d end.

Notation "a ?|| b" := (js_or a b) (at level 50, left associativity)
  : janus_scope.

Lemma js_or_default_truthy (a : option string) (d : string) :
  str_truthy a = true → Some (js_or_default a d) = a.
Proof.
  unfold js_or_default, js_or. intros H. rewrite H. destruct a; done.
Qed.

Lemma js_or_default_falsy (a : option string) (d : string) :
  str_truthy a = false → js_or_default a d = d.
Proof. unfold js_or_default, js_or. by intros ->. Qed.

(** A truthy string is not empty. *)
Lemma str_truthy_nonempty (s : string) :
  str_truthy (Some s) = true → s ≠ "".
Proof.
  simpl. intros H ->. done.
Qed.

#[export] Hint Resolve str_truthy_nonempty : janus.
