(* ===== verification/UniqueName.v ===== *)
(** * [SceneManager.getUniqueName] (SceneManager.ts, lines 36-51)

    The names of every object whose id differs from [excludeId] are
    collected into a [Set]; the base name is returned when it is free,
    and otherwise [base + counter] for the first [counter = 1, 2, ...]
    that is free.  The [while] loop has no bound in the code; here it
    is a [Fixpoint] on fuel, and [getUniqueName] gives it
    [size taken + 1] rounds.  [unique_name_loop_total] shows that this
    fuel always suffices (among [size taken + 1] distinct candidates one
    is free), so the fallback branch of [getUniqueName] is dead. *)

From S2P Require Import Prelude JsMap Types.

Section UniqueName.

(** [const taken = new Set<string>(); for (obj of objects.values())
    if (obj.id !== excludeId) taken.add(obj.name)]. *)
Definition taken_names (objects : JsMap CADObject)
    (excludeId : option string) : gset string :=
  list_to_set (name <$> filter (λ o, Some (id o) ≠ excludeId)
                               (map_values objects)).

(** [`${baseName}${counter}`]. *)
Definition candidate (baseName : string) (counter : N) : string :=
  baseName +:+ pretty counter.

(** [while (taken.has(candidate)) { counter++; candidate = ... }]. *)
Fixpoint unique_name_loop (taken : gset string) (baseName : string)
    (counter : N) (fuel : nat) : option string :=
  match fuel with
  | O => None
  | S fuel' =>
      if decide (candidate baseName counter ∈ taken)
      then unique_name_loop taken baseName (counter + 1) fuel'
      else Some (candidate baseName counter)
  end.

Definition getUniqueName (objects : JsMap CADObject) (baseName : string)
    (excludeId : option string) : string :=
  let taken := taken_names objects excludeId in
  if decide (baseName ∈ taken) then
    match unique_name_loop taken baseName 1 (S (size taken)) with
    | Some c => c
    | None => baseName
    end
  else baseName.

(** ** The loop *)

(** The candidates [counter, counter + 1, ..., counter + n - 1]. *)
Fixpoint candidates (baseName : string) (counter : N) (n : nat)
    : list string :=
  match n with
  | O => []
  | S n' => candidate baseName counter :: candidates baseName (counter + 1) n'
  end.

Lemma candidates_length baseName counter n :
  length (candidates baseName counter n) = n.
Proof. revert counter. induction n; intros; simpl; auto. Qed.

Lemma elem_of_candidates baseName counter n c :
  c ∈ candidates baseName counter n →
  ∃ k, (counter ≤ k)%N ∧ c = candidate baseName k.
Proof.
  revert counter. induction n as [|n IH]; intros counter; simpl.
  - by intros ?%elem_of_nil.
  - rewrite elem_of_cons. intros [->|(k & Hk & ->)%IH]; eexists; split;
      [|done| |done]; lia.
Qed.

Lemma candidates_NoDup baseName counter n :
  NoDup (candidates baseName counter n).
Proof.
  revert counter. induction n as [|n IH]; intros counter; simpl;
    constructor; [|done].
  intros (k & Hk & Heq)%elem_of_candidates.
  apply pretty_N_suffix_inj in Heq. lia.
Qed.

(** Running out of fuel means every candidate tried was taken. *)
Lemma unique_name_loop_None taken baseName counter fuel :
  unique_name_loop taken baseName counter fuel = None →
  ∀ c, c ∈ candidates baseName counter fuel → c ∈ taken.
Proof.
  revert counter. induction fuel as [|fuel IH]; intros counter; simpl.
  - intros _ c Hc. by apply elem_of_nil in Hc.
  - case_decide as Hin; [|done]. intros Hloop c.
    rewrite elem_of_cons. intros [->|Hc]; [done|].
    by eapply IH.
Qed.

(** Termination: [size taken + 1] rounds always find a free name. *)
Lemma unique_name_loop_total taken baseName counter :
  is_Some (unique_name_loop taken baseName counter (S (size taken))).
Proof.
  destruct (unique_name_loop _ _ _ _) eqn:Hloop; [by eexists|].
  exfalso. pose proof (unique_name_loop_None _ _ _ _ Hloop) as Hall.
  assert (list_to_set (candidates baseName counter (S (size taken)))
            ⊆ taken) as Hsub.
  { intros c. rewrite elem_of_list_to_set. apply Hall. }
  apply subseteq_size in Hsub.
  rewrite size_list_to_set in Hsub by apply candidates_NoDup.
  rewrite candidates_length in Hsub. lia.
Qed.

(** What the loop returns: the first free candidate from [counter]. *)
Lemma unique_name_loop_Some taken baseName counter fuel c :
  unique_name_loop taken baseName counter fuel = Some c →
  ∃ k, (counter ≤ k < counter + N.of_nat fuel)%N ∧ c = candidate baseName k ∧
       (c ∉ taken) ∧
       (∀ j, (counter ≤ j < k)%N → candidate baseName j ∈ taken).
Proof.
  revert counter. induction fuel as [|fuel IH]; intros counter; simpl;
    [done|].
  case_decide as Hin.
  - intros Hloop. destruct (IH _ Hloop) as (k & Hk & -> & Hfree & Hbelow).
    exists k. split_and!; [lia|lia|done|done|].
    intros j Hj. destruct (decide (j = counter)) as [->|]; [done|].
    apply Hbelow. lia.
  - intros [= <-]. exists counter. split_and!; [lia|lia|done|done|lia].
Qed.

(** ** What [getUniqueName] returns *)

(** The name [getUniqueName] returns is held by no object other than
    the excluded one. *)
Lemma getUniqueName_fresh objects baseName excludeId :
  getUniqueName objects baseName excludeId ∉ taken_names objects excludeId.
Proof.
  unfold getUniqueName. case_decide as Hin; [|done].
  destruct (unique_name_loop_total (taken_names objects excludeId) baseName 1)
    as [c Hc].
  rewrite Hc. by apply unique_name_loop_Some in Hc as (k & _ & _ & ? & _).
Qed.

(** C2: [getUniqueName] returns the base name when no other object
    holds it, and otherwise [base + k] for the least [k ≥ 1] such that
    [base + k] is not held: every smaller suffix is taken. *)
Theorem getUniqueName_spec objects baseName excludeId :
  let taken := taken_names objects excludeId in
  ((baseName ∉ taken) ∧ getUniqueName objects baseName excludeId = baseName) ∨
  (baseName ∈ taken ∧
   ∃ k, (1 ≤ k)%N ∧
        getUniqueName objects baseName excludeId = candidate baseName k ∧
        (candidate baseName k ∉ taken) ∧
        (∀ j, (1 ≤ j < k)%N → candidate baseName j ∈ taken)).
Proof.
  intros taken. unfold getUniqueName. fold taken.
  case_decide as Hin; [right|by left].
  split; [done|].
  destruct (unique_name_loop_total taken baseName 1) as [c Hc].
  rewrite Hc. apply unique_name_loop_Some in Hc as (k & Hk & -> & Hfree & Hbelow).
  exists k. split_and!; [lia|done|done|done].
Qed.

(** C3: the [while] loop of [getUniqueName] terminates: when the base
    name is taken, the suffix it settles on is at most one more than
    the number of names taken, so the loop runs at most that many
    rounds. *)
Theorem getUniqueName_iterations objects baseName excludeId :
  let taken := taken_names objects excludeId in
  baseName ∈ taken →
  ∃ k, (1 ≤ k ≤ N.of_nat (size taken) + 1)%N ∧
       unique_name_loop taken baseName 1 (S (size taken)) =
         Some (candidate baseName k) ∧
       getUniqueName objects baseName excludeId = candidate baseName k.
Proof.
  intros taken Hin. unfold getUniqueName. fold taken.
  rewrite decide_True by done.
  destruct (unique_name_loop_total taken baseName 1) as [c Hc].
  rewrite Hc. pose proof Hc as Hc'.
  apply unique_name_loop_Some in Hc as (k & Hk & -> & _).
  exists k. split_and!; [lia|lia|done|done].
Qed.

(** Membership in the taken set, unfolded. *)
Lemma elem_of_taken_names objects excludeId n :
  n ∈ taken_names objects excludeId ↔
  ∃ o, o ∈ map_values objects ∧ Some (id o) ≠ excludeId ∧ name o = n.
Proof.
  unfold taken_names. rewrite elem_of_list_to_set, list_elem_of_fmap.
  split.
  - intros (o & -> & (? & ?)%list_elem_of_filter). by exists o.
  - intros (o & ? & ? & <-). exists o. split; [done|].
    by apply list_elem_of_filter.
Qed.
End UniqueName.

(** Scenario B of the naming rule: with ["Cube"] and ["Cube1"] present,
    a third ["Cube"] becomes ["Cube2"]; a free name is kept. *)
Example getUniqueName_cube2 :
  let mk i n := MkCADObject i n BOX (NumNull, NumNull, NumNull)
                  (NumNull, NumNull, NumNull) (NumNull, NumNull, NumNull)
                  "#3b82f6" None None None None in
  let objs := MkJsMap [("a", mk "a" "Cube"); ("b", mk "b" "Cube1")] in
  getUniqueName objs "Cube" None = "Cube2" ∧
  getUniqueName objs "Sphere" None = "Sphere" ∧
  getUniqueName objs "Cube" (Some "a") = "Cube".
Proof. vm_compute. auto. Qed.

(** Witness of [getUniqueName_iterations]: with ["Cube"] held, the loop
    settles on ["Cube1"] within its bound. *)
Lemma getUniqueName_iterations_witness :
  let objs := MkJsMap [("a", MkCADObject "a" "Cube" BOX (NumNull, NumNull, NumNull)
                 (NumNull, NumNull, NumNull) (NumNull, NumNull, NumNull)
                 "#3b82f6" None None None None)] in
  "Cube" ∈ taken_names objs None ∧
  ∃ k, (1 ≤ k ≤ N.of_nat (size (taken_names objs None)) + 1)%N ∧
       unique_name_loop (taken_names objs None) "Cube" 1
         (S (size (taken_names objs None))) = Some (candidate "Cube" k) ∧
       getUniqueName objs "Cube" None = candidate "Cube" k.
Proof.
  intros objs. split; [decide_true|]. apply getUniqueName_iterations. decide_true.
Defined.
