(* ===== verification/Snapshot.v ===== *)
(** * Snapshots: [exportScene] and [loadScene] (SceneManager.ts, lines 201-215)

    [exportScene] is [JSON.stringify(Array.from(objects.values()))] and
    [loadScene] parses such a text, clears the map and [set]s every
    parsed object under its own [id].  A snapshot is modelled as the
    list of objects [JSON.parse] returns for the exported text, so the
    whole JSON round trip of one object is [json_clone]:

    - strings and booleans come back unchanged, absent properties stay
      absent;
    - a finite number comes back unchanged (JavaScript prints the
      shortest decimal that parses to the same double), except [-0],
      which prints as [0];
    - [NaN], [Infinity] and [-Infinity] print as [null];
    - a [BufferGeometry] comes back as the plain object its [toJSON]
      produced.

    The [catch] branch of [loadScene] and its [Array.isArray] test never
    fire on a snapshot [exportScene] produced (it is always the text of
    an array), and are not modelled. *)

From S2P Require Import Prelude JsMap Types.

Definition Snapshot : Type := list CADObject.

(** ** The JSON round trip of one value *)

Definition json_num (x : num) : num :=
  match x with
  | Num (S754_zero _) => Num (S754_zero false)
  | Num (S754_finite s m e) => Num (S754_finite s m e)
  | Num _ | NumNull => NumNull
  end.

Definition json_vec (v : Vector3) : Vector3 :=
  let '(x, y, z) := v in (json_num x, json_num y, json_num z).

Definition json_geometry (g : GeometryData) : GeometryData :=
  match g with GeoBuffer g' | GeoJSON g' => GeoJSON g' end.

(** [JSON.parse(JSON.stringify(o))] for one [CADObject]. *)
Definition json_clone (o : CADObject) : CADObject := {|
  id := id o;
  name := name o;
  type := type o;
  position := json_vec (position o);
  rotation := json_vec (rotation o);
  scale := json_vec (scale o);
  color := color o;
  args := (λ l : list num, json_num <$> l) <$> args o;
  selected := selected o;
  visible := visible o;
  geometryData := json_geometry <$> geometryData o
|}.

(** ** Export and import *)

Definition exportScene (objects : JsMap CADObject) : Snapshot :=
  json_clone <$> map_values objects.

(** [this.objects.clear(); loaded.forEach(obj => this.objects.set(obj.id, obj))]. *)
Definition loadScene (snapshot : Snapshot) : JsMap CADObject :=
  foldl (λ m o, <[id o := o]> m) ∅ snapshot.

(** ** Well-formed scenes *)

(** Every entry is stored under the object's own [id], and no key
    repeats.  [processCommands], [duplicateObject] and [loadScene] all
    store [o] under [o.id]. *)
Definition scene_wf (m : JsMap CADObject) : Prop :=
  keys_nodup m ∧ Forall (λ e, id e.2 = e.1) (entries m).

(** No two live objects share a name. *)
Definition names_unique (m : JsMap CADObject) : Prop :=
  NoDup (name <$> map_values m).

(** An object the JSON round trip gives back unchanged. *)
Definition json_stable (o : CADObject) : Prop := json_clone o = o.

#[export] Instance json_stable_dec o : Decision (json_stable o).
Proof. unfold json_stable. apply _. Defined.

#[export] Instance scene_wf_dec m : Decision (scene_wf m).
Proof. unfold scene_wf, keys_nodup. apply _. Defined.

#[export] Instance names_unique_dec m : Decision (names_unique m).
Proof. unfold names_unique. apply _. Defined.

(** ** Lemmas *)

Lemma json_num_idem x : json_num (json_num x) = json_num x.
Proof. by destruct x as [[]|]. Qed.

Lemma json_vec_idem v : json_vec (json_vec v) = json_vec v.
Proof. destruct v as [[x y] z]. simpl. by rewrite !json_num_idem. Qed.

Lemma json_clone_idem o : json_clone (json_clone o) = json_clone o.
Proof.
  destruct o as [i n t p r s c a sel vis g]; unfold json_clone; simpl.
  rewrite !json_vec_idem. f_equal.
  - destruct a as [a|]; simpl; [|done]. f_equal.
    rewrite <-list_fmap_compose. apply list_fmap_ext. intros. apply json_num_idem.
  - by destruct g as [[]|].
Qed.

(** A number survives JSON exactly when it is finite and not [-0]. *)
Lemma json_num_stable x :
  json_num x = x ↔ x = NumNull ∨ ∃ f, x = Num f ∧ float_is_finite f = true ∧
                                     f ≠ S754_zero true.
Proof.
  split.
  - destruct x as [[[]|?| |s m e]|]; simpl; intros H; try discriminate;
      try by left. all: right; eexists; split_and!; done.
  - intros [->|(f & -> & Hf & Hz)]; [done|].
    destruct f as [[]|?| |?]; simpl in *; congruence.
Qed.

(** Loading objects with fresh ids appends them in order. *)
Lemma foldl_set_fresh (l : list (string * CADObject)) (s : Snapshot) :
  NoDup (l.*1 ++ (id <$> s)) →
  foldl (λ m o, <[id o := o]> m) (MkJsMap l) s =
  MkJsMap (l ++ ((λ o, (id o, o)) <$> s)).
Proof.
  revert l. induction s as [|o s IH]; intros l Hnd; simpl.
  - by rewrite app_nil_r.
  - unfold insert, jsmap_insert at 2. cbn [entries].
    rewrite assoc_set_fresh.
    2: { rewrite fmap_cons in Hnd. apply NoDup_app in Hnd as (_ & Hd & _).
         intros Hin. apply (Hd (id o)); [done|left]. }
    rewrite IH, <-app_assoc; [done|].
    rewrite fmap_app, <-app_assoc. simpl. by rewrite <-fmap_cons.
Qed.

(** Importing a list of objects with distinct ids gives a
    map holding exactly them, in order. *)
Lemma loadScene_entries (s : Snapshot) :
  NoDup (id <$> s) → entries (loadScene s) = (λ o, (id o, o)) <$> s.
Proof.
  intros Hnd. unfold loadScene.
  change (∅ : JsMap CADObject) with (MkJsMap (V:=CADObject) []).
  by rewrite foldl_set_fresh.
Qed.

(** Whatever the snapshot, the loaded map is well formed: every object
    is stored under its own id. *)
Lemma loadScene_wf (s : Snapshot) : scene_wf (loadScene s).
Proof.
  unfold loadScene. cut (∀ m, scene_wf m → scene_wf (foldl (λ m o, <[id o := o]> m) m s)).
  { intros H. apply H. split; [apply keys_nodup_empty|constructor]. }
  induction s as [|o s IH]; intros m [Hnd Hids]; simpl; [done|].
  apply IH. split; [by apply keys_nodup_set|].
  destruct m as [l]. unfold insert, jsmap_insert. cbn [entries] in *.
  clear -Hids. induction l as [|[k v] l IHl]; simpl; [by constructor|].
  apply Forall_cons in Hids as [Hkv Hl].
  destruct (String.eqb_spec (id o) k); constructor; simpl; auto.
Qed.

Lemma scene_wf_ids (m : JsMap CADObject) :
  scene_wf m → (λ o, (id o, o)) <$> map_values m = entries m.
Proof.
  intros [_ Hids]. destruct m as [l]. unfold map_values. cbn [entries] in *.
  induction l as [|[k o] l IH]; [done|].
  apply Forall_cons in Hids as [Hk Hl]. rewrite !fmap_cons. simpl in *.
  by rewrite Hk, IH.
Qed.

Lemma scene_wf_ids_nodup (m : JsMap CADObject) :
  scene_wf m → NoDup (id <$> map_values m).
Proof.
  intros Hwf. pose proof (scene_wf_ids m Hwf) as Heq.
  destruct Hwf as [Hnd _]. unfold keys_nodup, map_keys in Hnd.
  rewrite <-Heq, <-list_fmap_compose in Hnd. done.
Qed.

#[export] Hint Resolve loadScene_wf scene_wf_ids_nodup : janus.

(** ** The round trip *)

(** Importing an exported well-formed scene gives back every object
    under the same key and in the same order, each passed through the
    JSON round trip of its values. *)
Theorem loadScene_exportScene (m : JsMap CADObject) :
  scene_wf m →
  entries (loadScene (exportScene m)) =
  (λ e : string * CADObject, (e.1, json_clone e.2)) <$> entries m.
Proof.
  intros Hwf. unfold exportScene.
  rewrite loadScene_entries.
  2: { rewrite <-list_fmap_compose. by apply scene_wf_ids_nodup. }
  rewrite <-(scene_wf_ids m Hwf), <-!list_fmap_compose. done.
Qed.

Lemma fmap_entries_id (f : CADObject → CADObject) (l : list (string * CADObject)) :
  (∀ o, o ∈ l.*2 → f o = o) → (λ e : string * CADObject, (e.1, f e.2)) <$> l = l.
Proof.
  induction l as [|[k o] l IH]; intros Hf; [done|].
  rewrite !fmap_cons in *. simpl in *. rewrite Hf by left.
  f_equal. apply IH. intros o' Ho'. apply Hf. by right.
Qed.

(** For a well-formed scene whose objects all survive JSON,
    [loadScene (exportScene m)] is [m] itself. *)
Corollary loadScene_exportScene_stable (m : JsMap CADObject) :
  scene_wf m → Forall json_stable (map_values m) →
  loadScene (exportScene m) = m.
Proof.
  intros Hwf Hstable. destruct (loadScene (exportScene m)) as [l] eqn:Hl.
  destruct m as [lm]. f_equal.
  change l with (entries (MkJsMap l)). rewrite <-Hl, loadScene_exportScene by done.
  apply fmap_entries_id. intros o Ho. rewrite Forall_forall in Hstable.
  by apply Hstable.
Qed.

Lemma exportScene_names (m : JsMap CADObject) :
  name <$> exportScene m = name <$> map_values m.
Proof. unfold exportScene. rewrite <-list_fmap_compose. done. Qed.

Lemma exportScene_ids (m : JsMap CADObject) :
  id <$> exportScene m = id <$> map_values m.
Proof. unfold exportScene. rewrite <-list_fmap_compose. done. Qed.

(** The objects a snapshot loads, when their ids are distinct. *)
Lemma loadScene_values (s : Snapshot) :
  NoDup (id <$> s) → map_values (loadScene s) = s.
Proof.
  intros Hnd. unfold map_values. rewrite loadScene_entries by done.
  rewrite <-list_fmap_compose. apply list_fmap_id.
Qed.

(** The keys [loadScene] leaves are the ids of the snapshot. *)
Lemma foldl_set_keys (s : Snapshot) (m : JsMap CADObject) k :
  k ∈ map_keys (foldl (λ m o, <[id o := o]> m) m s) ↔ k ∈ map_keys m ∨ k ∈ id <$> s.
Proof.
  revert m. induction s as [|o s IH]; intros m; simpl.
  - rewrite elem_of_nil. tauto.
  - rewrite IH, ?fmap_cons, elem_of_cons. destruct m as [l].
    unfold map_keys, insert, jsmap_insert. cbn [entries]. rewrite keys_set.
    case_decide; rewrite ?elem_of_app, ?list_elem_of_singleton; naive_solver.
Qed.

(** A snapshot loads to as many objects as it has distinct ids: objects
    sharing an id overwrite each other. *)
Lemma loadScene_size (s : Snapshot) :
  length (map_values (loadScene s)) = size (list_to_set (C:=gset string) (id <$> s)).
Proof.
  destruct (loadScene_wf s) as [Hnd _].
  transitivity (length (map_keys (loadScene s))).
  { unfold map_values, map_keys. by rewrite !length_fmap. }
  rewrite <-(size_list_to_set (C:=gset string)) by done. f_equal.
  apply set_eq. intros k. rewrite !elem_of_list_to_set. unfold loadScene.
  rewrite foldl_set_keys. unfold map_keys. cbn. rewrite elem_of_nil. tauto.
Qed.

(** Objects with distinct ids are counted by their ids. *)
Lemma size_ids_nodup (l : list CADObject) :
  NoDup (id <$> l) → size (list_to_set (C:=gset string) (id <$> l)) = length l.
Proof. intros Hnd. by rewrite size_list_to_set, length_fmap. Qed.

(** C26: the snapshot of a restored scene is the snapshot it was restored
    from: [exportScene (loadScene (exportScene m)) = exportScene m] for
    every well-formed scene, whatever numbers it holds.  Undo and redo
    therefore lose information at most once. *)
Theorem exportScene_loadScene_idem (m : JsMap CADObject) :
  scene_wf m → exportScene (loadScene (exportScene m)) = exportScene m.
Proof.
  intros Hwf. unfold exportScene at 1, map_values.
  rewrite loadScene_exportScene by done.
  unfold exportScene, map_values. rewrite <-!list_fmap_compose.
  apply list_fmap_ext. intros _ [k o] _. apply json_clone_idem.
Qed.

(** Witness of [exportScene_loadScene_idem] on a scene holding an object
    whose position is [NaN], which the round trip does change. *)
Lemma exportScene_loadScene_idem_witness :
  let m := MkJsMap [("a", MkCADObject "a" "A" BOX (Num S754_nan, NumNull, NumNull)
              (NumNull, NumNull, NumNull) (NumNull, NumNull, NumNull)
              "#3b82f6" None None None None)] in
  scene_wf m ∧ exportScene (loadScene (exportScene m)) = exportScene m.
Proof.
  intros m. split; [decide_true|]. apply exportScene_loadScene_idem. decide_true.
Defined.
