(* ===== verification/History.v ===== *)
(** * The bounded undo/redo history (SceneManager.ts, lines 6-8, 22-30, 177-199)

    [SceneManager] keeps two arrays of snapshot texts, [history] and
    [redoStack], newest last.  [saveState] pushes the current snapshot,
    drops the oldest ([shift]) once there are more than [maxHistory =
    20], and clears [redoStack]; [undo] pushes the current snapshot on
    [redoStack], pops [history] and loads what it popped; [redo] is the
    mirror image, and pushes on [history] without the bound.

    These methods touch the objects only through [exportScene] and
    [loadScene], so they are defined here over any document type with a
    [SnapshotCodec]: the interface says what the history needs of the
    scene (a snapshot of a document in [codec_ok] loads back to it), and
    [SceneManager] discharges it with [exportScene]/[loadScene].

    The abstract specification is a [Timeline]: past documents, the
    present one, future documents.  [refines] relates the concrete
    stacks to it, and [saveState_refines], [undo_refines] and
    [redo_refines] show that each concrete method implements the
    abstract one. *)

From S2P Require Import Prelude.

(** ** The interface the history needs from the document *)

Class SnapshotCodec (Doc Snap : Type) := {
  encode : Doc → Snap;
  decode : Snap → Doc;
  codec_ok : Doc → Prop;
  decode_encode : ∀ d, codec_ok d → decode (encode d) = d
}.

(** [private maxHistory = 20]. *)
Definition maxHistory : nat := 20.

Record HistoryState (Doc Snap : Type) := MkHistoryState {
  objects : Doc;
  history : list Snap;
  redoStack : list Snap
}.
Arguments MkHistoryState {Doc Snap} _ _ _.
Arguments objects {Doc Snap} _.
Arguments history {Doc Snap} _.
Arguments redoStack {Doc Snap} _.

(** The abstract history: [past] newest first, [future] next first. *)
Record Timeline (Doc : Type) := MkTimeline {
  past : list Doc;
  present : Doc;
  future : list Doc
}.
Arguments MkTimeline {Doc} _ _ _.
Arguments past {Doc} _.
Arguments present {Doc} _.
Arguments future {Doc} _.

Section History.
Context {Doc Snap : Type} `{SnapshotCodec Doc Snap}.
Implicit Types (st : HistoryState Doc Snap) (t : Timeline Doc).

(** ** The methods *)

(** [saveState]: push, [shift] past the bound, clear [redoStack]. *)
Definition saveState st : HistoryState Doc Snap :=
  let state := encode (objects st) in
  let h := history st ++ [state] in
  let h' := if Nat.ltb maxHistory (length h) then tail h else h in
  MkHistoryState (objects st) h' [].

(** [undo]: the early return on an empty [history], then
    [redoStack.push(exportScene())], [history.pop()] and
    [if (previousState) loadScene(previousState)] (a snapshot text is
    never empty). *)
Definition undo st : HistoryState Doc Snap :=
  match history st with
  | [] => st
  | _ :: _ =>
      let redo' := redoStack st ++ [encode (objects st)] in
      let hist' := removelast (history st) in
      match last (history st) with
      | Some prev => MkHistoryState (decode prev) hist' redo'
      | None => MkHistoryState (objects st) hist' redo'
      end
  end.

(** [redo]: the mirror image; [history.push] has no bound here. *)
Definition redo st : HistoryState Doc Snap :=
  match redoStack st with
  | [] => st
  | _ :: _ =>
      let hist' := history st ++ [encode (objects st)] in
      let redo' := removelast (redoStack st) in
      match last (redoStack st) with
      | Some next => MkHistoryState (decode next) hist' redo'
      | None => MkHistoryState (objects st) hist' redo'
      end
  end.

(** A mutation of the document that leaves the stacks alone. *)
Definition set_objects (d : Doc) st : HistoryState Doc Snap :=
  MkHistoryState d (history st) (redoStack st).

(** ** The abstract specification *)

Definition save_abs t : Timeline Doc :=
  MkTimeline (take maxHistory (present t :: past t)) (present t) [].

Definition undo_abs t : Timeline Doc :=
  match past t with
  | [] => t
  | p :: ps => MkTimeline ps p (present t :: future t)
  end.

Definition redo_abs t : Timeline Doc :=
  match future t with
  | [] => t
  | f :: fs => MkTimeline (present t :: past t) f fs
  end.

Definition set_abs (d : Doc) t : Timeline Doc :=
  MkTimeline (past t) d (future t).

(** ** The refinement relation *)

Definition refines st t : Prop :=
  objects st = present t ∧
  history st = encode <$> reverse (past t) ∧
  redoStack st = encode <$> reverse (future t) ∧
  Forall codec_ok (past t) ∧ Forall codec_ok (future t) ∧
  length (past t) + length (future t) ≤ maxHistory.

(** The bound the concrete stacks keep. *)
Definition stacks_bounded st : Prop :=
  length (history st) + length (redoStack st) ≤ maxHistory.

(** ** Lemmas on the stacks *)

(** Pushing then shifting past the bound keeps the newest [maxHistory]. *)
Lemma push_shift_take {A} (l : list A) (x : A) :
  length l ≤ maxHistory →
  (if Nat.ltb maxHistory (length (l ++ [x])) then tail (l ++ [x]) else l ++ [x])
  = reverse (take maxHistory (x :: reverse l)).
Proof.
  intros Hlen. rewrite length_app. cbn [length].
  destruct (Nat.ltb_spec maxHistory (length l + 1)) as [Hlt|Hge].
  - assert (length l = maxHistory) as Hl by lia.
    destruct l as [|y l]; [unfold maxHistory in Hl; discriminate|].
    rewrite <-Hl. cbn [length app tail take]. rewrite reverse_cons.
    rewrite (reverse_cons l y), take_app_length' by (by rewrite length_reverse).
    by rewrite reverse_involutive.
  - rewrite take_ge by (simpl; rewrite length_reverse; lia).
    by rewrite reverse_cons, reverse_involutive.
Qed.

Lemma last_fmap_reverse (f : Doc → Snap) (p : Doc) (ps : list Doc) :
  last (f <$> reverse (p :: ps)) = Some (f p).
Proof. rewrite reverse_cons, fmap_app. apply last_snoc. Qed.

Lemma removelast_fmap_reverse (f : Doc → Snap) (p : Doc) (ps : list Doc) :
  removelast (f <$> reverse (p :: ps)) = f <$> reverse ps.
Proof. rewrite reverse_cons, fmap_app. apply removelast_snoc. Qed.

Lemma snoc_fmap_reverse (f : Doc → Snap) (p : Doc) (ps : list Doc) :
  (f <$> reverse ps) ++ [f p] = f <$> reverse (p :: ps).
Proof. by rewrite reverse_cons, fmap_app. Qed.

Lemma fmap_reverse_nil (f : Doc → Snap) (ps : list Doc) :
  f <$> reverse ps = [] → ps = [].
Proof.
  intros Hnil. apply (f_equal length) in Hnil.
  rewrite length_fmap, length_reverse in Hnil. by destruct ps.
Qed.


Lemma undo_cons st p ps :
  history st = encode <$> reverse (p :: ps) →
  undo st = MkHistoryState (decode (encode p)) (encode <$> reverse ps)
                           (redoStack st ++ [encode (objects st)]).
Proof.
  intros Hh. unfold undo. rewrite Hh, last_fmap_reverse,
    removelast_fmap_reverse.
  rewrite reverse_cons, fmap_app. by destruct (encode <$> reverse ps).
Qed.

Lemma redo_cons st p ps :
  redoStack st = encode <$> reverse (p :: ps) →
  redo st = MkHistoryState (decode (encode p))
                           (history st ++ [encode (objects st)])
                           (encode <$> reverse ps).
Proof.
  intros Hr. unfold redo. rewrite Hr, last_fmap_reverse,
    removelast_fmap_reverse.
  rewrite reverse_cons, fmap_app. by destruct (encode <$> reverse ps).
Qed.

Lemma undo_snoc st l x :
  history st = l ++ [x] →
  undo st = MkHistoryState (decode x) l (redoStack st ++ [encode (objects st)]).
Proof.
  intros Hh. unfold undo. rewrite Hh, last_snoc, removelast_snoc.
  by destruct l.
Qed.

(** [saveState] below the bound pushes without dropping anything. *)
Lemma saveState_history_below st :
  length (history st) < maxHistory →
  history (saveState st) = history st ++ [encode (objects st)].
Proof.
  intros Hlen. unfold saveState. cbn [history]. rewrite length_app. cbn [length].
  destruct (Nat.ltb_spec maxHistory (length (history st) + 1)); [lia|done].
Qed.

(** Undoing right after [saveState] and one change of the document
    brings the document and the history back. *)
Lemma undo_after_save st d :
  length (history st) < maxHistory → codec_ok (objects st) →
  undo (set_objects d (saveState st)) =
  MkHistoryState (objects st) (history st) [encode d].
Proof.
  intros Hlen Hok. rewrite (undo_snoc _ (history st) (encode (objects st))).
  - by rewrite decode_encode.
  - cbn [set_objects history]. by apply saveState_history_below.
Qed.

(** ** Refinement: each method implements its abstract counterpart *)

(** A concrete state is determined by the timeline it refines. *)
Lemma refines_unique st1 st2 t : refines st1 t → refines st2 t → st1 = st2.
Proof.
  destruct st1, st2. intros (? & ? & ? & _) (? & ? & ? & _). simpl in *.
  congruence.
Qed.

Lemma saveState_refines st t :
  refines st t → codec_ok (present t) → refines (saveState st) (save_abs t).
Proof.
  intros (Ho & Hh & Hr & Hp & Hf & Hlen) Hok. unfold saveState, save_abs.
  split_and!; cbn [objects history redoStack past present future]; try done.
  - rewrite Ho, Hh, push_shift_take
      by (rewrite length_fmap, length_reverse; lia).
    rewrite <-fmap_reverse, reverse_involutive, <-fmap_cons, <-fmap_take.
    by rewrite <-fmap_reverse.
  - apply Forall_take. by constructor.
  - rewrite length_take. cbn [length]. lia.
Qed.

Lemma undo_refines st t :
  refines st t → codec_ok (present t) → refines (undo st) (undo_abs t).
Proof.
  intros (Ho & Hh & Hr & Hp & Hf & Hlen) Hok. unfold undo_abs.
  destruct (past t) as [|p ps] eqn:Hpast.
  - unfold undo. rewrite Hh. split_and!; by rewrite ?Hpast.
  - rewrite (undo_cons _ _ _ Hh). apply Forall_cons in Hp as [Hpok Hps].
    split_and!; simpl; try done.
    + by rewrite decode_encode.
    + by rewrite Hr, Ho, snoc_fmap_reverse.
    + by constructor.
    + simpl in Hlen. lia.
Qed.

Lemma redo_refines st t :
  refines st t → codec_ok (present t) → refines (redo st) (redo_abs t).
Proof.
  intros (Ho & Hh & Hr & Hp & Hf & Hlen) Hok. unfold redo_abs.
  destruct (future t) as [|f fs] eqn:Hfut.
  - unfold redo. rewrite Hr. split_and!; by rewrite ?Hfut.
  - rewrite (redo_cons _ _ _ Hr). apply Forall_cons in Hf as [Hfok Hfs].
    split_and!; simpl; try done.
    + by rewrite decode_encode.
    + by rewrite Hh, Ho, snoc_fmap_reverse.
    + by constructor.
    + simpl in Hlen. lia.
Qed.

Lemma set_objects_refines st t d :
  refines st t → refines (set_objects d st) (set_abs d t).
Proof.
  intros (Ho & Hh & Hr & Hp & Hf & Hlen). unfold set_objects, set_abs.
  split_and!; simpl; done.
Qed.

(** Every document the history can bring back is loadable. *)
Definition timeline_ok t : Prop :=
  codec_ok (present t) ∧ Forall codec_ok (past t) ∧ Forall codec_ok (future t).

Lemma undo_abs_ok t : timeline_ok t → timeline_ok (undo_abs t).
Proof.
  destruct t as [[|p ps] d fs]; intros (Hp & Hps & Hfs); [done|].
  apply Forall_cons in Hps as [? ?]. split_and!; simpl; [done|done|by constructor].
Qed.

Lemma redo_abs_ok t : timeline_ok t → timeline_ok (redo_abs t).
Proof.
  destruct t as [ps d [|f fs]]; intros (Hp & Hps & Hfs); [done|].
  apply Forall_cons in Hfs as [? ?]. split_and!; simpl; [done|by constructor|done].
Qed.

Lemma iter_undo_refines k st t :
  refines st t → timeline_ok t →
  refines (Nat.iter k undo st) (Nat.iter k undo_abs t) ∧
  timeline_ok (Nat.iter k undo_abs t).
Proof.
  intros Hr Hok. induction k as [|k [IHr IHok]]; [done|].
  rewrite !Nat.iter_succ. split; [|by apply undo_abs_ok].
  apply undo_refines; [done|apply IHok].
Qed.

Lemma iter_redo_refines k st t :
  refines st t → timeline_ok t →
  refines (Nat.iter k redo st) (Nat.iter k redo_abs t) ∧
  timeline_ok (Nat.iter k redo_abs t).
Proof.
  intros Hr Hok. induction k as [|k [IHr IHok]]; [done|].
  rewrite !Nat.iter_succ. split; [|by apply redo_abs_ok].
  apply redo_refines; [done|apply IHok].
Qed.

(** ** The abstract history *)

Lemma redo_undo_abs t : past t ≠ [] → redo_abs (undo_abs t) = t.
Proof. destruct t as [[|p ps] d fs]; [done|]. done. Qed.

Lemma undo_abs_past_length t : length (past (undo_abs t)) = pred (length (past t)).
Proof. destruct t as [[|p ps] d fs]; done. Qed.

(** [k] undos followed by [k] redos come back to the same timeline,
    when there were [k] states to undo. *)
Lemma iter_redo_undo_abs k t :
  k ≤ length (past t) →
  Nat.iter k redo_abs (Nat.iter k undo_abs t) = t.
Proof.
  revert t. induction k as [|k IH]; intros t Hk; [done|].
  rewrite (Nat.iter_succ_r k undo_abs), (Nat.iter_succ k redo_abs), IH.
  - apply redo_undo_abs. intros Hnil. rewrite Hnil in Hk. simpl in Hk. lia.
  - rewrite undo_abs_past_length. lia.
Qed.

(** The refinement carries the bound of the abstract stacks. *)
Lemma refines_bounded st t : refines st t → stacks_bounded st.
Proof.
  intros (_ & Hh & Hr & _ & _ & Hlen). unfold stacks_bounded.
  rewrite Hh, Hr, !length_fmap, !length_reverse. done.
Qed.
End History.

#[export] Hint Rewrite @last_fmap_reverse @removelast_fmap_reverse
  @snoc_fmap_reverse : janus_rw.

Section HistoryTheorems.
Context {Doc Snap : Type} `{SnapshotCodec Doc Snap}.
Implicit Types (st : HistoryState Doc Snap) (t : Timeline Doc).

Lemma length_removelast {A} (l : list A) : length (removelast l) = pred (length l).
Proof.
  destruct l as [|x l] using rev_ind; [done|].
  rewrite removelast_snoc, length_app. simpl. lia.
Qed.

Lemma undo_lengths st :
  length (history (undo st)) + length (redoStack (undo st)) =
  length (history st) + length (redoStack st).
Proof.
  unfold undo. destruct (history st) as [|h hs] eqn:Hh; [simpl; by rewrite Hh|].
  rewrite <-Hh. destruct (last (history st)); simpl;
    rewrite length_removelast, length_app, Hh; simpl; lia.
Qed.

Lemma redo_lengths st :
  length (history (redo st)) + length (redoStack (redo st)) =
  length (history st) + length (redoStack st).
Proof.
  unfold redo. destruct (redoStack st) as [|r rs] eqn:Hr; [simpl; by rewrite Hr|].
  rewrite <-Hr. destruct (last (redoStack st)); simpl;
    rewrite length_removelast, length_app, Hr; simpl; lia.
Qed.

Lemma saveState_bounded st : stacks_bounded st → stacks_bounded (saveState st).
Proof.
  unfold stacks_bounded, saveState. intros Hb. cbn [history redoStack length].
  rewrite length_app. cbn [length].
  destruct (Nat.ltb_spec maxHistory (length (history st) + 1)).
  - rewrite length_tl, length_app. simpl. lia.
  - rewrite length_app. simpl. lia.
Qed.

Lemma undo_bounded st : stacks_bounded st → stacks_bounded (undo st).
Proof. unfold stacks_bounded. by rewrite undo_lengths. Qed.

Lemma redo_bounded st : stacks_bounded st → stacks_bounded (redo st).
Proof. unfold stacks_bounded. by rewrite redo_lengths. Qed.

Lemma set_objects_bounded st d : stacks_bounded st → stacks_bounded (set_objects d st).
Proof. done. Qed.

(** C25: [saveState] keeps the newest [maxHistory] snapshots: the
    current one is pushed, the oldest is dropped once the bound is
    passed, and the redo stack is cleared. *)
Theorem saveState_keeps_newest st :
  length (history st) ≤ maxHistory →
  history (saveState st) =
    drop (length (history st) + 1 - maxHistory)
         (history st ++ [encode (objects st)]) ∧
  redoStack (saveState st) = [] ∧ objects (saveState st) = objects st.
Proof.
  intros Hlen. unfold saveState. cbn [history redoStack objects].
  split_and!; [|done|done]. rewrite length_app. cbn [length].
  destruct (Nat.ltb_spec maxHistory (length (history st) + 1)).
  - replace (length (history st) + 1 - maxHistory) with 1 by lia.
    by destruct (history st ++ _).
  - by replace (length (history st) + 1 - maxHistory) with 0 by lia.
Qed.

(** C5: undoing [k] times and then redoing [k] times gives back the
    exact state, scene and both stacks, whenever there were [k] states
    to undo and every document involved survives its snapshot. *)
Theorem undo_redo_exact st t k :
  refines st t → timeline_ok t → k ≤ length (history st) →
  Nat.iter k redo (Nat.iter k undo st) = st.
Proof.
  intros Hr Hok Hk.
  destruct (iter_undo_refines k st t Hr Hok) as [Hr' Hok'].
  destruct (iter_redo_refines k _ _ Hr' Hok') as [Hr'' _].
  rewrite iter_redo_undo_abs in Hr''.
  - by eapply refines_unique.
  - destruct Hr as (_ & Hh & _). rewrite Hh, length_fmap, length_reverse in Hk.
    done.
Qed.
(** C24: the two stacks together never hold more than [maxHistory]
    snapshots: [saveState], [undo] and [redo] all keep the bound,
    although [redo] pushes on [history] without checking it. *)
Theorem stacks_bounded_preserved st :
  stacks_bounded st →
  stacks_bounded (saveState st) ∧ stacks_bounded (undo st) ∧
  stacks_bounded (redo st).
Proof.
  intros Hb. split_and!;
    [by apply saveState_bounded|by apply undo_bounded|by apply redo_bounded].
Qed.

(** C4: refinement.  The concrete [saveState], [undo], [redo] and a
    mutation of the document simulate [save_abs], [undo_abs],
    [redo_abs] and [set_abs] on the abstract timeline, for every
    timeline whose documents all load back from their snapshots. *)
Theorem history_refinement st t :
  refines st t → timeline_ok t →
  refines (saveState st) (save_abs t) ∧ refines (undo st) (undo_abs t) ∧
  refines (redo st) (redo_abs t) ∧
  (∀ d, refines (set_objects d st) (set_abs d t)).
Proof.
  intros Hr (Hok & _ & _). split_and!.
  - by apply saveState_refines.
  - by apply undo_refines.
  - by apply redo_refines.
  - intros d. by apply set_objects_refines.
Qed.
End HistoryTheorems.
