(* ===== verification/SceneManager.v ===== *)
(** * [class SceneManager] (src/backend/engine/SceneManager.ts)

    The manager's state is its object map and its two snapshot stacks:
    [HistoryState (JsMap CADObject) Snapshot].  [exportScene] and
    [loadScene] discharge the [SnapshotCodec] interface of [History],
    whose [saveState], [undo] and [redo] are the methods of the class.
    This file adds [renameObject], [duplicateObject] and
    [processCommands] (one [processCommand] per [switch] case), the
    step relation of the public methods with its reachable states, and
    the invariant: objects are stored under their own id and no two
    share a name.

    [Date.now()] and [Math.random()] only build fresh identifiers; the
    caller supplies them ([newId] for [duplicateObject], [fresh i] for
    the [i]-th command of a batch). *)

From S2P Require Import Prelude JsMap Types UniqueName Snapshot History.

(** ** The snapshot codec of the scene *)

(** A scene whose snapshot loads back to it. *)
Definition scene_ok (m : JsMap CADObject) : Prop :=
  scene_wf m ∧ Forall json_stable (map_values m).

Lemma scene_ok_roundtrip (m : JsMap CADObject) :
  scene_ok m → loadScene (exportScene m) = m.
Proof. intros [Hwf Hst]. by apply loadScene_exportScene_stable. Qed.

#[export] Instance scene_codec : SnapshotCodec (JsMap CADObject) Snapshot := {|
  encode := exportScene;
  decode := loadScene;
  codec_ok := scene_ok;
  decode_encode := scene_ok_roundtrip
|}.

Definition SceneManager : Type := HistoryState (JsMap CADObject) Snapshot.

(** [constructor()]: an empty map and empty stacks. *)
Definition init : SceneManager := MkHistoryState ∅ [] [].

(** [getObjects()] and [getObject(id)]. *)
Definition getObjects (st : SceneManager) : list CADObject :=
  map_values (objects st).
Definition getObject (st : SceneManager) (i : string) : option CADObject :=
  objects st !! i.

(** ** Object literals of the methods *)

(** [{ ...obj, name: uniqueName }]. *)
Definition with_name (o : CADObject) (n : string) : CADObject :=
  MkCADObject (id o) n (type o) (position o) (rotation o) (scale o) (color o)
    (args o) (selected o) (visible o) (geometryData o).

(** [1.5] as a binary64 literal. *)
Definition offset_x : num := js_lit 3 (-1).

(** [{ ...obj, id: newId, name: newName, position: newPos,
    selected: false }]. *)
Definition duplicate_of (o : CADObject) (newId newName : string) : CADObject :=
  let '(x, y, z) := position o in
  MkCADObject newId newName (type o) (num_add x offset_x, y, z) (rotation o)
    (scale o) (color o) (args o) (Some false) (visible o) (geometryData o).

(** ** [renameObject] and [duplicateObject] *)

Definition renameObject (i newName : string) (st : SceneManager)
    : SceneManager :=
  match objects st !! i with
  | None => st
  | Some obj =>
      if String.eqb (name obj) newName then st
      else
        let st1 := saveState st in
        let uniqueName := getUniqueName (objects st1) newName (Some i) in
        set_objects (<[i := with_name obj uniqueName]> (objects st1)) st1
  end.

Definition duplicateObject (i newId : string) (st : SceneManager)
    : SceneManager :=
  match objects st !! i with
  | None => st
  | Some obj =>
      let st1 := saveState st in
      let newName := getUniqueName (objects st1) (name obj) None in
      set_objects (<[newId := duplicate_of obj newId newName]> (objects st1)) st1
  end.

(** ** [processCommands] *)

(** The [CREATE] literal, with every default of the code. *)
Definition create_object (d : PartialCADObject) (i uniqueName : string)
    : CADObject := {|
  id := i;
  name := uniqueName;
  type := default BOX (p_type d);
  position := default (Num (S754_zero false), Num (S754_zero false),
                       Num (S754_zero false)) (p_position d);
  rotation := default (Num (S754_zero false), Num (S754_zero false),
                       Num (S754_zero false)) (p_rotation d);
  scale := default (js_lit 1 0, js_lit 1 0, js_lit 1 0) (p_scale d);
  color := js_or_default (p_color d) "#3b82f6";
  visible := Some (negb (bool_decide (p_visible d = Some false)));
  args := Some (default [] (p_args d));
  selected := Some false;
  geometryData := None
|}.

(** [{ ...existing, ...cleanUpdates }]: every property the update
    carries overrides the existing one. *)
Definition merge_updates (o : CADObject) (u : PartialCADObject) : CADObject := {|
  id := default (id o) (p_id u);
  name := default (name o) (p_name u);
  type := default (type o) (p_type u);
  position := default (position o) (p_position u);
  rotation := default (rotation o) (p_rotation u);
  scale := default (scale o) (p_scale u);
  color := default (color o) (p_color u);
  args := match p_args u with Some a => Some a | None => args o end;
  selected := match p_selected u with Some b => Some b | None => selected o end;
  visible := match p_visible u with Some b => Some b | None => visible o end;
  geometryData := match p_geometryData u with
                  | Some g => Some g | None => geometryData o end
|}.

(** [if (cleanUpdates.name && typeof ... === 'string') cleanUpdates.name =
    this.getUniqueName(cleanUpdates.name, targetId)]: only a truthy
    name is made unique; an empty one is kept as it is. *)
Definition clean_updates (objs : JsMap CADObject) (t : string)
    (u : PartialCADObject) : PartialCADObject :=
  MkPartial (p_id u)
    (match p_name u with
     | Some n => if str_truthy (Some n) then Some (getUniqueName objs n (Some t))
                 else Some n
     | None => None
     end)
    (p_type u) (p_position u) (p_rotation u) (p_scale u) (p_color u)
    (p_args u) (p_selected u) (p_visible u) (p_geometryData u).

(** [const targetId = cmd.targetId || cmd.objectData?.id]. *)
Definition resolve_target (cmd : AICommand) : option string :=
  targetId cmd ?|| (objectData cmd ≫= p_id).

(** One iteration of [commands.forEach]; [freshId] is the identifier
    [`obj_${Date.now()}_${...}`] would produce at this point. *)
Definition processCommand (freshId : string) (cmd : AICommand)
    (st : SceneManager) : SceneManager :=
  let target := resolve_target cmd in
  match action cmd with
  | CREATE =>
      match objectData cmd with
      | Some d =>
          let i := js_or_default (p_id d ?|| target) freshId in
          let rawName := js_or_default (p_name d) "Object" in
          let uniqueName := getUniqueName (objects st) rawName None in
          set_objects (<[i := create_object d i uniqueName]> (objects st)) st
      | None => st
      end
  | UPDATE =>
      match target with
      | Some t =>
          if str_truthy target && map_has t (objects st) then
            match objects st !! t with
            | Some existing =>
                let u := clean_updates (objects st) t
                           (default empty_partial (objectData cmd)) in
                set_objects (<[t := merge_updates existing u]> (objects st)) st
            | None => st
            end
          else st
      | None => st
      end
  | DELETE =>
      match target with
      | Some t => if str_truthy target then set_objects (delete t (objects st)) st
                  else st
      | None => st
      end
  | CLEAR => set_objects ∅ st
  | UNDO => undo st
  | REDO => redo st
  | FOCUS => st
  end.

(** [['CREATE', 'UPDATE', 'DELETE', 'CLEAR'].includes(c.action)]. *)
Definition modifies (cmd : AICommand) : bool :=
  match action cmd with
  | CREATE | UPDATE | DELETE | CLEAR => true
  | UNDO | REDO | FOCUS => false
  end.

Fixpoint run_commands (fresh : nat → string) (i : nat)
    (cmds : list AICommand) (st : SceneManager) : SceneManager :=
  match cmds with
  | [] => st
  | cmd :: cmds' => run_commands fresh (S i) cmds' (processCommand (fresh i) cmd st)
  end.

Definition processCommands (cmds : list AICommand) (fresh : nat → string)
    (st : SceneManager) : SceneManager :=
  let st1 := if existsb modifies cmds then saveState st else st in
  run_commands fresh 0 cmds st1.

(** ** The invariant *)

(** Objects are stored under their own id and carry distinct names. *)
Definition scene_inv (m : JsMap CADObject) : Prop :=
  scene_wf m ∧ names_unique m.

(** A snapshot lists distinct ids and distinct names. *)
Definition snapshot_ok (s : Snapshot) : Prop :=
  NoDup (id <$> s) ∧ NoDup (name <$> s).

Definition manager_inv (st : SceneManager) : Prop :=
  scene_inv (objects st) ∧ Forall snapshot_ok (history st) ∧
  Forall snapshot_ok (redoStack st).

Section InvariantLemmas.
Implicit Types (m : JsMap CADObject) (st : SceneManager) (o : CADObject).

Lemma exportScene_ok m : scene_inv m → snapshot_ok (exportScene m).
Proof.
  intros [Hwf Hn]. split; [rewrite exportScene_ids; by apply scene_wf_ids_nodup|].
  by rewrite exportScene_names.
Qed.

Lemma loadScene_inv s : snapshot_ok s → scene_inv (loadScene s).
Proof.
  intros [Hids Hnames]. split; [apply loadScene_wf|].
  unfold names_unique. by rewrite loadScene_values.
Qed.

Lemma saveState_inv st : manager_inv st → manager_inv (saveState st).
Proof.
  intros (Hm & Hh & Hr). unfold saveState.
  split_and!; cbn [objects history redoStack]; [done| |constructor].
  assert (Forall snapshot_ok (history st ++ [exportScene (objects st)])).
  { apply Forall_app_2; [done|]. constructor; [|done]. by apply exportScene_ok. }
  case_match; [by apply Forall_tail|done].
Qed.

Lemma undo_inv st : manager_inv st → manager_inv (undo st).
Proof.
  intros Hinv. pose proof Hinv as (Hm & Hh & Hr). unfold undo.
  destruct (history st) as [|h hs] eqn:Hhist; [done|].
  rewrite <-Hhist in *.
  assert (Forall snapshot_ok (removelast (history st))).
  { destruct (history st) using rev_ind; [done|].
    rewrite removelast_snoc. by apply Forall_app in Hh as [? _]. }
  assert (Forall snapshot_ok (redoStack st ++ [exportScene (objects st)])).
  { apply Forall_app_2; [done|]. constructor; [|done]. by apply exportScene_ok. }
  destruct (last (history st)) as [prev|] eqn:Hlast; split_and!; try done.
  apply loadScene_inv. apply last_Some in Hlast as [l' Hl'].
  rewrite Hl' in Hh. apply Forall_app in Hh as [_ Hs]. by inversion Hs.
Qed.

Lemma redo_inv st : manager_inv st → manager_inv (redo st).
Proof.
  intros Hinv. pose proof Hinv as (Hm & Hh & Hr). unfold redo.
  destruct (redoStack st) as [|r rs] eqn:Hredo; [done|].
  rewrite <-Hredo in *.
  assert (Forall snapshot_ok (removelast (redoStack st))).
  { destruct (redoStack st) using rev_ind; [done|].
    rewrite removelast_snoc. by apply Forall_app in Hr as [? _]. }
  assert (Forall snapshot_ok (history st ++ [exportScene (objects st)])).
  { apply Forall_app_2; [done|]. constructor; [|done]. by apply exportScene_ok. }
  destruct (last (redoStack st)) as [next|] eqn:Hlast; split_and!; try done.
  apply loadScene_inv. apply last_Some in Hlast as [l' Hl'].
  rewrite Hl' in Hr. apply Forall_app in Hr as [_ Hs]. by inversion Hs.
Qed.

Lemma set_objects_inv st d :
  manager_inv st → scene_inv d → manager_inv (set_objects d st).
Proof. intros (_ & Hh & Hr) Hd. by split_and!. Qed.

(** The objects left after [delete k] are the other objects. *)
Lemma elem_of_values_delete m k o :
  scene_wf m → o ∈ map_values (delete k m) → id o ≠ k ∧ o ∈ map_values m.
Proof.
  intros [_ Hids]. destruct m as [l].
  unfold map_values, delete, jsmap_delete, assoc_delete. cbn [entries] in *.
  intros (e & -> & He)%list_elem_of_fmap.
  apply list_elem_of_filter in He as [Hk He].
  rewrite Forall_forall in Hids. rewrite (Hids e He). split; [done|].
  apply list_elem_of_fmap. by exists e.
Qed.

Lemma scene_wf_set m k o :
  scene_wf m → id o = k → scene_wf (<[k := o]> m).
Proof.
  intros [Hnd Hids] Hk. split; [by apply keys_nodup_set|].
  destruct m as [l]. unfold insert, jsmap_insert. cbn [entries] in *.
  clear Hnd. induction l as [|[k' v] l IH]; simpl; [by constructor|].
  apply Forall_cons in Hids as [Hkv Hl].
  destruct (String.eqb_spec k k'); constructor; simpl; auto.
Qed.

Lemma scene_wf_delete m k : scene_wf m → scene_wf (delete k m).
Proof.
  intros [Hnd Hids]. split; [by apply keys_nodup_delete|].
  destruct m as [l]. unfold delete, jsmap_delete, assoc_delete. cbn [entries] in *.
  by apply Forall_filter_2.
Qed.

Lemma names_unique_delete m k : names_unique m → names_unique (delete k m).
Proof.
  unfold names_unique. intros Hnd. eapply sublist_NoDup; [exact Hnd|].
  apply fmap_sublist, values_delete_sublist.
Qed.

Lemma scene_inv_delete m k : scene_inv m → scene_inv (delete k m).
Proof.
  intros [Hwf Hn]. split; [by apply scene_wf_delete|by apply names_unique_delete].
Qed.

(** Storing [o] under its own id keeps the invariant when no other
    object holds its name. *)
Lemma scene_inv_set m k o :
  scene_inv m → id o = k → name o ∉ taken_names m (Some k) →
  scene_inv (<[k := o]> m).
Proof.
  intros [Hwf Hn] Hk Hfree. split; [by apply scene_wf_set|].
  unfold names_unique. rewrite values_set_perm by apply Hwf.
  rewrite fmap_cons, NoDup_cons. split; [|by apply names_unique_delete].
  intros (o' & Hname & Ho')%list_elem_of_fmap. apply Hfree.
  apply elem_of_taken_names.
  destruct (elem_of_values_delete m k o' Hwf Ho') as [Hne Hin].
  exists o'. split_and!; [done|congruence|done].
Qed.

Lemma taken_names_mono m k : taken_names m (Some k) ⊆ taken_names m None.
Proof.
  intros n. rewrite !elem_of_taken_names.
  intros (o & ? & _ & ?). by exists o.
Qed.

Lemma lookup_wf_id m k o : scene_wf m → m !! k = Some o → id o = k.
Proof.
  intros [_ Hids] Ho. destruct m as [l]. unfold lookup, jsmap_lookup in Ho.
  cbn [entries] in *. apply assoc_get_elem in Ho.
  rewrite Forall_forall in Hids. by apply (Hids _ Ho).
Qed.

(** An object's own name is held by no other object. *)
Lemma own_name_free m k o :
  scene_inv m → m !! k = Some o → name o ∉ taken_names m (Some k).
Proof.
  intros [Hwf Hn] Ho. rewrite elem_of_taken_names.
  intros (o' & Hin & Hne & Hname). apply Hne.
  assert (o' = o) as ->; [|f_equal; by eapply lookup_wf_id].
  eapply NoDup_fmap_eq; [exact Hn|exact Hin| |exact Hname].
  by eapply lookup_elem_values.
Qed.
End InvariantLemmas.

(** ** Which commands keep the invariant *)

(** An [UPDATE] keeps the invariant when its [objectData] names no other
    id than its target and carries no empty name; the other commands
    always do.  (The findings below show both conditions are needed.) *)
Definition command_safe (cmd : AICommand) : bool :=
  match action cmd, objectData cmd with
  | UPDATE, Some d =>
      bool_decide (p_id d = None ∨ p_id d = resolve_target cmd) &&
      negb (bool_decide (p_name d = Some ""))
  | _, _ => true
  end.

Section Preservation.
Implicit Types (st : SceneManager).

Lemma scene_inv_empty : scene_inv ∅.
Proof. split_and!; repeat constructor. Qed.

Lemma renameObject_inv i n st : manager_inv st → manager_inv (renameObject i n st).
Proof.
  intros Hinv. unfold renameObject.
  destruct (objects st !! i) as [obj|] eqn:Hobj; [|done].
  destruct (String.eqb _ _); [done|].
  pose proof (saveState_inv st Hinv) as Hinv1.
  apply set_objects_inv; [done|]. destruct Hinv1 as [Hm _].
  apply scene_inv_set; [done| |apply getUniqueName_fresh].
  simpl. eapply lookup_wf_id; [apply Hinv|done].
Qed.

Lemma duplicateObject_inv i newId st :
  manager_inv st → manager_inv (duplicateObject i newId st).
Proof.
  intros Hinv. unfold duplicateObject.
  destruct (objects st !! i) as [obj|] eqn:Hobj; [|done].
  pose proof (saveState_inv st Hinv) as Hinv1.
  apply set_objects_inv; [done|]. destruct Hinv1 as [Hm _].
  apply scene_inv_set; [done|by unfold duplicate_of; destruct (position obj) as [[??]?]|].
  unfold duplicate_of. destruct (position obj) as [[??]?]. simpl.
  intros Hin. apply taken_names_mono in Hin. revert Hin. apply getUniqueName_fresh.
Qed.

Lemma processCommand_inv f cmd st :
  manager_inv st → command_safe cmd = true →
  manager_inv (processCommand f cmd st).
Proof.
  intros Hinv Hsafe. pose proof Hinv as [Hm _].
  unfold processCommand. destruct (action cmd) eqn:Hact.
  - (* CREATE *)
    destruct (objectData cmd) as [d|]; [|done].
    apply set_objects_inv; [done|]. apply scene_inv_set; [done|done|].
    intros Hin. apply taken_names_mono in Hin. revert Hin.
    apply getUniqueName_fresh.
  - (* UPDATE *)
    destruct (resolve_target cmd) as [t|] eqn:Ht; [|done].
    destruct (str_truthy _ && map_has _ _); [|done].
    destruct (objects st !! t) as [existing|] eqn:Hex; [|done].
    apply set_objects_inv; [done|].
    unfold command_safe in Hsafe. rewrite Hact in Hsafe.
    assert (id existing = t) as Hid by (eapply lookup_wf_id; [apply Hm|done]).
    destruct (objectData cmd) as [d|]; simpl.
    + apply andb_prop in Hsafe as [Hid' Hname].
      apply bool_decide_eq_true in Hid'. apply negb_true_iff, bool_decide_eq_false in Hname.
      apply scene_inv_set; [done|simpl; destruct Hid' as [Hp|Hp]; rewrite Hp;
        [done|by rewrite Ht]|].
      simpl. destruct (p_name d) as [n|] eqn:Hn; simpl.
      * destruct (negb (String.eqb n "")) eqn:Htr; simpl;
          [apply getUniqueName_fresh|].
        exfalso. apply Hname. destruct (String.eqb_spec n ""); [by subst|done].
      * by apply own_name_free.
    + apply scene_inv_set; [done|done|]. simpl. exact (own_name_free _ _ _ Hm Hex).
  - (* DELETE *)
    destruct (resolve_target cmd) as [t|]; [|done].
    destruct (str_truthy _); [|done].
    apply set_objects_inv; [done|]. by apply scene_inv_delete.
  - (* CLEAR *) apply set_objects_inv; [done|apply scene_inv_empty].
  - (* UNDO *) by apply undo_inv.
  - (* REDO *) by apply redo_inv.
  - (* FOCUS *) done.
Qed.

Lemma run_commands_inv fresh i cmds st :
  manager_inv st → forallb command_safe cmds = true →
  manager_inv (run_commands fresh i cmds st).
Proof.
  revert i st. induction cmds as [|cmd cmds IH]; intros i st Hinv Hsafe; [done|].
  simpl in Hsafe. apply andb_prop in Hsafe as [Hc Hcs].
  apply IH; [by apply processCommand_inv|done].
Qed.

Lemma processCommands_inv cmds fresh st :
  manager_inv st → forallb command_safe cmds = true →
  manager_inv (processCommands cmds fresh st).
Proof.
  intros Hinv Hsafe. unfold processCommands.
  apply run_commands_inv; [|done]. case_match; [by apply saveState_inv|done].
Qed.
End Preservation.

Section Bounds.
Implicit Types (st : SceneManager).

Lemma processCommand_bounded f cmd st :
  stacks_bounded st → stacks_bounded (processCommand f cmd st).
Proof.
  intros Hb. unfold processCommand.
  destruct (action cmd); repeat case_match;
    auto using set_objects_bounded, undo_bounded, redo_bounded.
Qed.

Lemma processCommands_bounded cmds fresh st :
  stacks_bounded st → stacks_bounded (processCommands cmds fresh st).
Proof.
  intros Hb. unfold processCommands.
  assert (stacks_bounded (if existsb modifies cmds then saveState st else st)) as H0
    by (case_match; auto using saveState_bounded).
  generalize 0. revert H0. generalize (if existsb modifies cmds then saveState st else st).
  induction cmds as [|c cs IH]; intros s Hs i; [done|].
  simpl. apply IH. by apply processCommand_bounded.
Qed.

Lemma renameObject_bounded i n st :
  stacks_bounded st → stacks_bounded (renameObject i n st).
Proof.
  intros Hb. unfold renameObject.
  repeat case_match; auto using saveState_bounded, set_objects_bounded.
Qed.

Lemma duplicateObject_bounded i n st :
  stacks_bounded st → stacks_bounded (duplicateObject i n st).
Proof.
  intros Hb. unfold duplicateObject.
  repeat case_match; auto using saveState_bounded, set_objects_bounded.
Qed.
End Bounds.

(** ** The public methods as a step relation *)

(** One call of a public mutating method.  [processCommands] is allowed
    on batches whose [UPDATE]s are [command_safe]. *)
Inductive step : SceneManager → SceneManager → Prop :=
  | step_rename i n st : step st (renameObject i n st)
  | step_duplicate i newId st : step st (duplicateObject i newId st)
  | step_commands cmds fresh st :
      forallb command_safe cmds = true → step st (processCommands cmds fresh st)
  | step_undo st : step st (undo st)
  | step_redo st : step st (redo st).

Definition reachable (st : SceneManager) : Prop := rtc step init st.

Lemma init_inv : manager_inv init ∧ stacks_bounded init.
Proof.
  split; [split_and!; [apply scene_inv_empty|constructor|constructor]|].
  unfold stacks_bounded. simpl. unfold maxHistory. lia.
Qed.

Lemma step_preserves st st' :
  step st st' → manager_inv st ∧ stacks_bounded st →
  manager_inv st' ∧ stacks_bounded st'.
Proof.
  intros Hs [Hinv Hb]. destruct Hs.
  - split; [by apply renameObject_inv|by apply renameObject_bounded].
  - split; [by apply duplicateObject_inv|by apply duplicateObject_bounded].
  - split; [by apply processCommands_inv|by apply processCommands_bounded].
  - split; [by apply undo_inv|by apply undo_bounded].
  - split; [by apply redo_inv|by apply redo_bounded].
Qed.

Lemma reachable_inv_bounded st :
  reachable st → manager_inv st ∧ stacks_bounded st.
Proof.
  unfold reachable. intros Hr. pose proof init_inv as H0. revert H0.
  induction Hr as [s|s1 s2 s3 Hs Hr IH]; [done|].
  intros H1. apply IH. by eapply step_preserves.
Qed.

(** ** Helpers for the functional theorems *)

Lemma set_objects_self (st : SceneManager) : set_objects (objects st) st = st.
Proof. by destruct st. Qed.

(** A command that [modifies] the scene only replaces the map. *)
Lemma processCommand_modifies f cmd (st : SceneManager) :
  modifies cmd = true → processCommand f cmd st = set_objects
    (objects (processCommand f cmd st)) st.
Proof.
  unfold modifies, processCommand. intros Hm.
  destruct (action cmd); try discriminate; repeat case_match; simpl;
    by rewrite ?set_objects_self.
Qed.

(** The [UNDO] command as the code's schema carries it. *)
Definition undo_command : AICommand := MkAICommand UNDO None None None.

(** ** Claims about the methods *)

(** C1: every state the public methods reach from the constructor has
    each object stored under its own id and no two objects sharing a
    name, provided the [UPDATE] commands are [command_safe]. *)
Theorem reachable_names_unique st :
  reachable st → scene_wf (objects st) ∧ names_unique (objects st).
Proof. intros Hr. apply reachable_inv_bounded in Hr as [[[? ?] _] _]. done. Qed.

(** C23: in every reachable state the undo and redo stacks together hold
    at most [maxHistory = 20] snapshots. *)
Theorem reachable_stacks_bounded st :
  reachable st → length (history st) + length (redoStack st) ≤ maxHistory.
Proof. intros Hr. by apply reachable_inv_bounded in Hr as [_ ?]. Qed.

(** C28: after [renameObject] really renames, [undo] brings back the
    exact scene and history, and the renamed scene becomes the only redo
    entry, when the scene survives JSON and the history is not full. *)
Theorem renameObject_undo st i n obj :
  objects st !! i = Some obj → name obj ≠ n → scene_ok (objects st) →
  length (history st) < maxHistory →
  undo (renameObject i n st) =
  MkHistoryState (objects st) (history st) [exportScene (objects (renameObject i n st))].
Proof.
  intros Hobj Hne Hok Hlen. unfold renameObject. rewrite Hobj.
  destruct (String.eqb_spec (name obj) n); [done|].
  by rewrite (undo_after_save st).
Qed.

(** C29: [renameObject] renames where the object stands: [Map.set] on a
    present key keeps its place, so [getObjects] lists the same objects
    in the same order, the renamed one carrying the name
    [getUniqueName] gives and every other one unchanged. *)
Theorem renameObject_in_place st i n obj :
  scene_wf (objects st) → objects st !! i = Some obj → name obj ≠ n →
  getObjects (renameObject i n st) =
    (λ o, if String.eqb (id o) i then with_name o (getUniqueName (objects st) n (Some i))
          else o) <$> getObjects st.
Proof.
  intros [Hnd Hids] Hobj Hne. unfold renameObject. rewrite Hobj.
  destruct (String.eqb_spec (name obj) n); [done|].
  unfold getObjects, map_values. cbn [set_objects objects saveState].
  destruct (objects st) as [l]. unfold lookup, jsmap_lookup in Hobj.
  unfold insert, jsmap_insert. cbn [entries] in *.
  rewrite assoc_set_in_place; [|apply list_elem_of_fmap; exists (i, obj);
                                 by split; [|apply assoc_get_elem]|exact Hnd].
  rewrite <-!list_fmap_compose. apply list_fmap_ext. intros j [k o] Hj. cbn.
  rewrite Forall_forall in Hids.
  assert (id o = k) as <- by (apply (Hids (k, o)); by eapply list_elem_of_lookup_2).
  destruct (String.eqb_spec (id o) i) as [Heq|]; [cbn|done].
  assert ((id o, o) = (i, obj)) as [= _ ->]; [|done].
  eapply (NoDup_fmap_eq fst); [exact Hnd|by eapply list_elem_of_lookup_2|
                               by apply assoc_get_elem|exact Heq].
Qed.

(** C30: [duplicateObject] appends a copy under the fresh id, shifted by
    [1.5] along x, unselected, with a name different from the original's
    and held by no other object; the original stays where it was. *)
Theorem duplicateObject_spec st i newId obj :
  scene_inv (objects st) → objects st !! i = Some obj →
  objects st !! newId = None →
  let copy := duplicate_of obj newId (getUniqueName (objects st) (name obj) None) in
  map_values (objects (duplicateObject i newId st)) = map_values (objects st) ++ [copy] ∧
  objects (duplicateObject i newId st) !! i = Some obj ∧
  name copy ≠ name obj ∧ (name copy ∉ taken_names (objects st) None) ∧
  selected copy = Some false ∧
  position copy = (num_add (position obj).1.1 offset_x, (position obj).1.2,
                   (position obj).2).
Proof.
  intros Hinv Hobj Hfresh copy. unfold duplicateObject. rewrite Hobj.
  cbn [set_objects objects saveState].
  assert (name copy ∉ taken_names (objects st) None) as Hname.
  { unfold copy, duplicate_of. destruct (position obj) as [[??]?].
    apply getUniqueName_fresh. }
  split_and!.
  - destruct (objects st) as [l] eqn:Hl. unfold map_values, insert, jsmap_insert.
    cbn [entries]. rewrite assoc_set_fresh.
    + by rewrite fmap_app.
    + apply assoc_get_None_inv. apply Hfresh.
  - rewrite lookup_set_ne; [done|]. intros <-. congruence.
  - intros Heq. apply Hname. rewrite Heq. apply elem_of_taken_names.
    exists obj. split_and!; [by eapply lookup_elem_values|done|done].
  - done.
  - unfold copy, duplicate_of. by destruct (position obj) as [[??]?].
  - unfold copy, duplicate_of. by destruct (position obj) as [[??]?].
Qed.

(** C31: a [DELETE] of an id that is not in the scene changes no object,
    yet it still records an undo snapshot and empties the redo stack. *)
Theorem delete_missing_consumes_history st t fresh :
  t ≠ "" → objects st !! t = None →
  let st' := processCommands [MkAICommand DELETE (Some t) None None] fresh st in
  objects st' = objects st ∧ history st' = history (saveState st) ∧
  redoStack st' = [].
Proof.
  intros Hne Habs st'.
  assert (str_truthy (Some t) = true) as Htr.
  { simpl. by destruct (String.eqb_spec t ""). }
  unfold st', processCommands. cbn [existsb modifies action orb run_commands].
  unfold processCommand, resolve_target, js_or. cbn [action targetId].
  rewrite !Htr. split_and!; [|done|done]. cbn [set_objects objects saveState].
  by rewrite delete_absent.
Qed.

(** C32: [UNDO] inside a batch undoes the batch's own snapshot: a batch
    of one modifying command followed by [UNDO] leaves the scene and the
    history as they were, and the modified scene becomes the redo
    entry. *)
Theorem batch_then_undo st c fresh :
  modifies c = true → scene_ok (objects st) → length (history st) < maxHistory →
  processCommands [c; undo_command] fresh st =
  MkHistoryState (objects st) (history st)
    [exportScene (objects (processCommand (fresh 0) c (saveState st)))].
Proof.
  intros Hm Hok Hlen. unfold processCommands. cbn [existsb]. rewrite Hm.
  cbn [orb run_commands]. rewrite (processCommand_modifies _ _ _ Hm).
  unfold processCommand at 1. cbn [action undo_command].
  by rewrite (undo_after_save st).
Qed.

#[export] Instance scene_ok_dec m : Decision (scene_ok m).
Proof. unfold scene_ok. apply _. Defined.

(** ** Concrete commands and scenes

    Commands as the planning collaborator would send them, and the
    scenes they build from the constructor; used by the scenarios, the
    findings and the witnesses below. *)

Definition partial_with (i n : option string) : PartialCADObject :=
  MkPartial i n None None None None None None None None None.

Definition create_cmd (i n : string) : AICommand :=
  MkAICommand CREATE None None (Some (partial_with (Some i) (Some n))).

Definition update_cmd (t : string) (u : PartialCADObject) : AICommand :=
  MkAICommand UPDATE (Some t) None (Some u).

Definition delete_cmd (t : string) : AICommand :=
  MkAICommand DELETE (Some t) None None.

Definition no_ids : nat → string := λ _, "obj_fresh".

Definition one_object : SceneManager :=
  processCommands [create_cmd "a" "X"] no_ids init.

Definition two_objects : SceneManager :=
  processCommands [create_cmd "a" "x"; create_cmd "b" "y"] no_ids init.

Lemma one_object_reachable : reachable one_object.
Proof. unfold reachable, one_object.
  eapply rtc_l; [|apply rtc_refl]. apply step_commands. reflexivity.
Defined.

Lemma two_objects_reachable : reachable two_objects.
Proof. unfold reachable, two_objects.
  eapply rtc_l; [|apply rtc_refl]. apply step_commands. reflexivity.
Defined.

(** ** Lemmas on single commands *)

Lemma str_truthy_ne (t : string) : t ≠ "" → str_truthy (Some t) = true.
Proof. intros Hne. simpl. by destruct (String.eqb_spec t ""). Qed.

(** An [UPDATE] of a present, non-empty target merges the cleaned
    updates into the object where it stands. *)
Lemma processCommand_update f t u st o :
  t ≠ "" → objects st !! t = Some o →
  processCommand f (update_cmd t u) st =
  set_objects (<[t := merge_updates o (clean_updates (objects st) t u)]> (objects st)) st.
Proof.
  intros Hne Ho. unfold processCommand, resolve_target, js_or. cbn [action targetId update_cmd].
  rewrite str_truthy_ne, Ho by done. cbn [default objectData].
  assert (map_has t (objects st) = true) as -> by (apply map_has_spec; by eexists).
  by rewrite str_truthy_ne.
Qed.

(** An update carrying only the empty name sets that name as it is. *)
Lemma merge_empty_name m t o :
  merge_updates o (clean_updates m t (partial_with None (Some ""))) = with_name o "".
Proof. by destruct o. Qed.

(** A modifying command followed by [undo] loads the snapshot the
    command saved, when the history has room for it. *)
Lemma undo_after_modify st c f :
  modifies c = true → length (history st) < maxHistory →
  objects (undo (processCommands [c] f st)) = loadScene (exportScene (objects st)).
Proof.
  intros Hm Hlen. unfold processCommands. cbn [existsb]. rewrite Hm.
  cbn [orb run_commands]. rewrite (processCommand_modifies _ _ _ Hm).
  rewrite (undo_snoc _ (history st) (encode (objects st))); [done|].
  cbn [set_objects history]. by apply saveState_history_below.
Qed.

(** ** Findings *)

(** C15 (finding): an [UPDATE] whose name is the empty string skips
    [getUniqueName] ([cleanUpdates.name && ...] is false for [""]): in
    any scene, two such updates of two distinct objects leave both named
    [""], so the names are no longer unique, whatever they were. *)
Theorem update_empty_name_duplicates st a b oa ob fresh :
  a ≠ b → a ≠ "" → b ≠ "" → getObject st a = Some oa → getObject st b = Some ob →
  let st' := processCommands [update_cmd a (partial_with None (Some ""));
                              update_cmd b (partial_with None (Some ""))] fresh st in
  getObject st' a = Some (with_name oa "") ∧ getObject st' b = Some (with_name ob "") ∧
  ¬ names_unique (objects st').
Proof.
  intros Hab Ha Hb Hoa Hob st'. unfold st', processCommands, getObject in *.
  cbn [existsb modifies action update_cmd orb run_commands].
  rewrite (processCommand_update _ a _ _ oa), merge_empty_name by done.
  rewrite (processCommand_update _ b _ _ ob), merge_empty_name; cycle 1.
  { done. } { cbn. by rewrite lookup_set_ne by congruence. }
  cbn [set_objects objects saveState].
  set (m := <[a:=with_name oa ""]> (objects st)).
  assert (<[b:=with_name ob ""]> m !! a = Some (with_name oa "")) as Hma.
  { unfold m. rewrite lookup_set_ne by congruence. apply lookup_set_eq. }
  assert (<[b:=with_name ob ""]> m !! b = Some (with_name ob "")) as Hmb
    by apply lookup_set_eq.
  split_and!; [done|done|]. by apply (lookup_values_not_nodup name _ a b _ _ Hma Hmb).
Qed.

(** C16 (finding): an [UPDATE] whose [objectData.id] is another object's
    id stores an object under a key that is not its id.  The snapshot
    the next modifying command saves is re-keyed by id on [undo], so
    the two objects sharing that id collapse into one: undo brings
    back one object fewer than the scene had. *)
Theorem update_foreign_id_loses_object st a b oa ob c fresh fresh' :
  a ≠ b → a ≠ "" → scene_wf (objects st) → getObject st a = Some oa →
  getObject st b = Some ob → modifies c = true → S (length (history st)) < maxHistory →
  let st1 := processCommands [update_cmd a (partial_with (Some b) None)] fresh st in
  getObject st1 a = Some (merge_updates oa (partial_with (Some b) None)) ∧
  length (getObjects (undo (processCommands [c] fresh' st1))) = length (getObjects st) - 1.
Proof.
  intros Hab Ha Hwf Hoa Hob Hm Hlen st1. unfold getObject in *.
  assert (objects st1 = <[a := merge_updates oa (partial_with (Some b) None)]> (objects st))
    as Hst1.
  { unfold st1, processCommands. cbn [existsb modifies action update_cmd orb run_commands].
    rewrite (processCommand_update _ a _ _ oa) by done. by destruct oa. }
  split; [by rewrite Hst1, lookup_set_eq|].
  assert (length (history st1) < maxHistory) as Hlen1.
  { unfold st1, processCommands. cbn [existsb modifies action update_cmd orb run_commands].
    rewrite processCommand_modifies by done. cbn [set_objects history].
    rewrite saveState_history_below, length_app by lia. cbn [length]. lia. }
  unfold getObjects. rewrite undo_after_modify by done.
  rewrite loadScene_size, exportScene_ids, Hst1.
  destruct Hwf as [Hnd Hids] eqn:Hwf'.
  pose proof (values_lookup_perm _ _ _ Hnd Hoa) as Hperm.
  pose proof (values_set_perm (objects st) a (merge_updates oa (partial_with (Some b) None)) Hnd)
    as Hperm1.
  pose proof (scene_wf_ids_nodup _ Hwf) as Hids_nd. rewrite Hperm, fmap_cons, NoDup_cons in Hids_nd.
  assert (b ∈ id <$> map_values (delete a (objects st))) as Hb.
  { apply list_elem_of_fmap. exists ob. split; [symmetry; by eapply lookup_wf_id|].
    apply (lookup_elem_values _ b). by rewrite lookup_delete_ne by congruence. }
  rewrite Hperm1, Hperm, fmap_cons. cbn [length].
  rewrite <-(size_ids_nodup (map_values (delete a (objects st)))) by apply Hids_nd.
  rewrite Nat.sub_succ, Nat.sub_0_r. f_equal. apply set_eq. intros k.
  rewrite !elem_of_list_to_set, elem_of_cons. cbn [id merge_updates partial_with p_id default]. naive_solver.
Qed.

(** C17 (finding): [undo] after any modifying command gives back each
    object through the JSON round trip, not the object itself: an
    object comes back unchanged exactly when it survives JSON, and a
    position [-0] (which [JSON.parse("-0")] yields) comes back as
    [+0], because [JSON.stringify(-0)] is ["0"]. *)
Theorem undo_normalizes_negative_zero st c fresh k o :
  modifies c = true → scene_wf (objects st) → length (history st) < maxHistory →
  getObject st k = Some o →
  let o' := getObject (undo (processCommands [c] fresh st)) k in
  o' = Some (json_clone o) ∧ (o' = Some o ↔ json_stable o) ∧
  ((position o).1.1 = Num (S754_zero true) → o' ≠ Some o).
Proof.
  intros Hm Hwf Hlen Ho o'.
  assert (o' = Some (json_clone o)) as Ho'.
  { unfold o', getObject. rewrite undo_after_modify by done.
    destruct (loadScene (exportScene (objects st))) as [l] eqn:Hl.
    change l with (entries (MkJsMap l)). rewrite <-Hl, loadScene_exportScene by done.
    rewrite lookup_fmap_values. unfold getObject in Ho. by rewrite Ho. }
  rewrite Ho'. unfold json_stable. split; [done|split; [split; [by intros [= ?]|by intros ->]|]].
  intros Hz [= Heq]. destruct (position o) as [[x y] z] eqn:Hp. cbn in Hz. subst x.
  apply (f_equal position) in Heq. cbn in Heq. rewrite Hp in Heq. cbn in Heq. congruence.
Qed.

(** ** Witnesses *)

#[export] Instance scene_inv_dec m : Decision (scene_inv m).
Proof. unfold scene_inv. apply _. Defined.

(** The object [one_object] holds. *)
Definition object_X : CADObject := create_object (partial_with (Some "a") (Some "X")) "a" "X".

(** The timeline [one_object] refines: the empty scene in the past. *)
Definition one_object_timeline : Timeline (JsMap CADObject) :=
  MkTimeline [∅] (objects one_object) [].

Lemma one_object_refines :
  refines one_object one_object_timeline ∧ timeline_ok one_object_timeline.
Proof.
  split.
  - split_and!; try reflexivity; repeat constructor; cbn; try decide_true;
      try (vm_compute; lia).
  - split_and!; repeat constructor; cbn; decide_true.
Qed.

Lemma reachable_names_unique_witness :
  reachable two_objects ∧ scene_wf (objects two_objects) ∧ names_unique (objects two_objects).
Proof. split; [apply two_objects_reachable|apply reachable_names_unique, two_objects_reachable]. Defined.

Lemma reachable_stacks_bounded_witness :
  reachable two_objects ∧
  length (history two_objects) + length (redoStack two_objects) ≤ maxHistory.
Proof. split; [apply two_objects_reachable|apply reachable_stacks_bounded, two_objects_reachable]. Defined.

Lemma renameObject_undo_witness :
  objects one_object !! "a" = Some object_X ∧ name object_X ≠ "Y" ∧
  scene_ok (objects one_object) ∧ length (history one_object) < maxHistory ∧
  undo (renameObject "a" "Y" one_object) =
  MkHistoryState (objects one_object) (history one_object)
    [exportScene (objects (renameObject "a" "Y" one_object))].
Proof.
  split_and!; [reflexivity|discriminate|decide_true|vm_compute; lia|].
  apply (renameObject_undo _ _ _ object_X);
    [reflexivity|discriminate|decide_true|vm_compute; lia].
Defined.

Lemma duplicateObject_spec_witness :
  scene_inv (objects one_object) ∧ objects one_object !! "a" = Some object_X ∧
  objects one_object !! "b" = None ∧
  let copy := duplicate_of object_X "b" (getUniqueName (objects one_object) (name object_X) None) in
  map_values (objects (duplicateObject "a" "b" one_object)) = map_values (objects one_object) ++ [copy] ∧
  objects (duplicateObject "a" "b" one_object) !! "a" = Some object_X ∧
  name copy ≠ name object_X ∧ (name copy ∉ taken_names (objects one_object) None) ∧
  selected copy = Some false ∧
  position copy = (num_add (position object_X).1.1 offset_x, (position object_X).1.2,
                   (position object_X).2).
Proof.
  split_and!; [decide_true|reflexivity|reflexivity|].
  apply duplicateObject_spec; [decide_true|reflexivity|reflexivity].
Defined.

Lemma delete_missing_consumes_history_witness :
  "zz" ≠ "" ∧ objects one_object !! "zz" = None ∧
  let st' := processCommands [MkAICommand DELETE (Some "zz") None None] no_ids one_object in
  objects st' = objects one_object ∧ history st' = history (saveState one_object) ∧
  redoStack st' = [].
Proof.
  split_and!; [discriminate|reflexivity|].
  apply delete_missing_consumes_history; [discriminate|reflexivity].
Defined.

Lemma batch_then_undo_witness :
  modifies (create_cmd "c" "W") = true ∧ scene_ok (objects one_object) ∧
  length (history one_object) < maxHistory ∧
  processCommands [create_cmd "c" "W"; undo_command] no_ids one_object =
  MkHistoryState (objects one_object) (history one_object)
    [exportScene (objects (processCommand (no_ids 0) (create_cmd "c" "W")
                             (saveState one_object)))].
Proof.
  split_and!; [reflexivity|decide_true|vm_compute; lia|].
  apply batch_then_undo; [reflexivity|decide_true|vm_compute; lia].
Defined.

Lemma stacks_bounded_preserved_witness :
  stacks_bounded one_object ∧
  stacks_bounded (saveState one_object) ∧ stacks_bounded (undo one_object) ∧
  stacks_bounded (redo one_object).
Proof.
  assert (stacks_bounded one_object) as Hb by (unfold stacks_bounded; vm_compute; lia).
  split; [exact Hb|apply stacks_bounded_preserved, Hb].
Defined.

Lemma saveState_keeps_newest_witness :
  length (history one_object) ≤ maxHistory ∧
  history (saveState one_object) =
    drop (length (history one_object) + 1 - maxHistory)
         (history one_object ++ [encode (objects one_object)]) ∧
  redoStack (saveState one_object) = [] ∧ objects (saveState one_object) = objects one_object.
Proof.
  split; [vm_compute; lia|]. apply saveState_keeps_newest. vm_compute. lia.
Defined.

Lemma undo_redo_exact_witness :
  refines one_object one_object_timeline ∧ timeline_ok one_object_timeline ∧
  1 ≤ length (history one_object) ∧
  Nat.iter 1 redo (Nat.iter 1 undo one_object) = one_object.
Proof.
  destruct one_object_refines as [Hr Hok].
  split_and!; [exact Hr|exact Hok|vm_compute; lia|].
  apply (undo_redo_exact _ one_object_timeline); [exact Hr|exact Hok|vm_compute; lia].
Defined.

Lemma history_refinement_witness :
  refines one_object one_object_timeline ∧ timeline_ok one_object_timeline ∧
  refines (saveState one_object) (save_abs one_object_timeline) ∧
  refines (undo one_object) (undo_abs one_object_timeline) ∧
  refines (redo one_object) (redo_abs one_object_timeline) ∧
  (∀ d, refines (set_objects d one_object) (set_abs d one_object_timeline)).
Proof.
  destruct one_object_refines as [Hr Hok].
  split_and!; [exact Hr|exact Hok|..];
    apply (history_refinement one_object one_object_timeline Hr Hok).
Defined.

Lemma update_empty_name_duplicates_witness :
  reachable two_objects ∧ names_unique (objects two_objects) ∧
  ¬ names_unique (objects (processCommands
      [update_cmd "a" (partial_with None (Some ""));
       update_cmd "b" (partial_with None (Some ""))] no_ids two_objects)).
Proof.
  split_and!; [apply two_objects_reachable|decide_true|].
  edestruct (update_empty_name_duplicates two_objects "a" "b") as (_ & _ & H);
    [congruence|congruence|congruence|reflexivity|reflexivity|exact H].
Defined.

Lemma update_foreign_id_loses_object_witness :
  length (getObjects two_objects) = 2 ∧
  length (getObjects (undo (processCommands [delete_cmd "none"] no_ids
     (processCommands [update_cmd "a" (partial_with (Some "b") None)] no_ids
        two_objects)))) = 1.
Proof.
  split; [reflexivity|].
  destruct (getObject two_objects "a") as [oa|] eqn:Ha; [|vm_compute in Ha; discriminate].
  destruct (getObject two_objects "b") as [ob|] eqn:Hb; [|vm_compute in Hb; discriminate].
  edestruct (update_foreign_id_loses_object two_objects "a" "b" oa ob (delete_cmd "none")
               no_ids no_ids) as [_ ->];
    [congruence|congruence|decide_true|exact Ha|exact Hb|reflexivity|
     vm_compute; lia|reflexivity].
Defined.

(** The object [two_objects] holds under ["a"]. *)
Definition object_x : CADObject := create_object (partial_with (Some "a") (Some "x")) "a" "x".

(** One object at [x = -0]. *)
Definition negative_zero_scene : SceneManager :=
  processCommands [MkAICommand CREATE None None
    (Some (MkPartial (Some "a") (Some "X") None
             (Some (Num (S754_zero true), js_lit 0 0, js_lit 0 0))
             None None None None None None None))] no_ids init.

Lemma undo_normalizes_negative_zero_witness :
  (position <$> getObject negative_zero_scene "a") =
    Some (Num (S754_zero true), js_lit 0 0, js_lit 0 0) ∧
  getObject (undo (processCommands [delete_cmd "none"] no_ids negative_zero_scene)) "a" ≠
    getObject negative_zero_scene "a".
Proof.
  split; [reflexivity|].
  destruct (getObject negative_zero_scene "a") as [o|] eqn:Ho; [|discriminate].
  edestruct (undo_normalizes_negative_zero negative_zero_scene (delete_cmd "none") no_ids "a" o)
    as (_ & _ & H); [reflexivity|decide_true|vm_compute; lia|exact Ho|].
  apply H. vm_compute in Ho. injection Ho as <-. reflexivity.
Defined.

Lemma renameObject_in_place_witness :
  scene_wf (objects two_objects) ∧ objects two_objects !! "a" = Some object_x ∧
  name object_x ≠ "y" ∧
  name <$> getObjects (renameObject "a" "y" two_objects) = ["y1"; "y"].
Proof.
  assert (objects two_objects !! "a" = Some object_x) as Ha by reflexivity.
  split_and!; [decide_true|exact Ha|done|].
  rewrite (renameObject_in_place two_objects "a" "y" object_x); [|decide_true|exact Ha|done].
  vm_compute. reflexivity.
Defined.
