(* ===== verification/CSG.v ===== *)
(** * The builtin table of the script DSL ([class CADContext], CSGEngine.ts lines 12-153)

    A [CADContext] holds the finalized objects ([private objects]), and,
    made explicit here, the heap objects the builtins create and share:

    - the material store: [this.material] (index 0) and every
      [material.clone()]; a brush refers to its material by index, so
      [result.material = a.material] in the booleans shares the material
      object exactly as the code does;
    - the brush arena: a script value [VBrush h] is a handle into it.

    Script values are JavaScript values with JavaScript truthiness: the
    guards [if (!mesh) return mesh] and [if (!a || !b) return a || b] test
    truthiness, not "is a brush", so a truthy value that is not a brush
    gets past them and fails with the [TypeError] the code would raise.

    The geometry kernel (three.js constructors, [Evaluator.evaluate]) is
    symbolic: a [Geometry] term records what was built ([Types]).
    Colors go through the [ThreeColor] interface ([Color]).

    Coercions the model does not follow (a string where a number is
    expected, [Color] given a number, a name that is not a string) give
    [Unsupported] instead of a guessed result. *)

From S2P Require Import Prelude Types Color.

(** ** Values, brushes and the context *)

(** [mesh.material]: one material object, or an array of them. *)
Inductive MaterialRef := MatOne (m : nat) | MatArray (ms : list nat).

Record Brush := MkBrush {
  b_geometry : Geometry;
  b_material : MaterialRef;
  b_position : Vector3;
  b_rotation : Vector3;
  b_scale : Vector3;
  b_userType : ShapeType
}.

(** The callables a script can reach. *)
Inductive Builtin :=
  | B_Box | B_Sphere | B_Cylinder | B_Move | B_Rotate | B_Scale | B_Color
  | B_Union | B_Subtract | B_Intersect | B_Add.

#[export] Instance Builtin_eq_dec : EqDecision Builtin.
Proof. solve_decision. Defined.

Inductive Value :=
  | VUndefined
  | VNull
  | VBool (b : bool)
  | VNum (n : num)
  | VStr (s : string)
  | VBrush (h : nat)
  | VBuiltin (b : Builtin).

(** [ToBoolean]. *)
Definition truthy (v : Value) : bool :=
  match v with
  | VUndefined | VNull => false
  | VBool b => b
  | VNum (Num (S754_zero _)) | VNum (Num S754_nan) | VNum NumNull => false
  | VNum _ => true
  | VStr s => negb (String.eqb s "")
  | VBrush _ | VBuiltin _ => true
  end.

(** The exceptions a builtin raises. *)
Inductive ScriptError :=
  | TypeError (msg : string)
  | ReferenceError (msg : string)
  | SyntaxError (msg : string)
  | Unsupported (what : string).

Definition error_message (e : ScriptError) : string :=
  match e with
  | TypeError m | ReferenceError m | SyntaxError m | Unsupported m => m
  end.

Section CADContext.
Context `{ThreeColor}.

Record CADContext := MkContext {
  results : list CADObject;
  materials : list color_t;
  brushes : list Brush
}.

(** [new CADContext()]: [this.material] is grey [0xcccccc]. *)
Definition new_context : CADContext :=
  MkContext [] [color_of_int 0xcccccc%Z] [].

Definition alloc_material (c : color_t) (ctx : CADContext) : nat * CADContext :=
  (length (materials ctx), MkContext (results ctx) (materials ctx ++ [c]) (brushes ctx)).

Definition alloc_brush (b : Brush) (ctx : CADContext) : nat * CADContext :=
  (length (brushes ctx), MkContext (results ctx) (materials ctx) (brushes ctx ++ [b])).

Definition update_brush (h : nat) (b : Brush) (ctx : CADContext) : CADContext :=
  MkContext (results ctx) (materials ctx) (<[h := b]> (brushes ctx)).

Definition material_color (ctx : CADContext) (m : nat) : color_t :=
  default (color_of_int 0xcccccc%Z) (materials ctx !! m).

(** A builtin returns a value and the new context, or throws. *)
Definition BuiltinResult : Type := ScriptError + (Value * CADContext).

(** ** Numbers *)

Definition NaN : num := Num S754_nan.
Definition zero : num := Num (S754_zero false).
Definition one : num := js_lit 1 0.
Definition half : num := js_lit 1 (-1).

(** [ToNumber] on the values a numeric parameter can receive. *)
Definition to_number (v : Value) : ScriptError + num :=
  match v with
  | VNum n => inr n
  | VUndefined => inr NaN
  | VNull => inr zero
  | VBool b => inr (if b then one else zero)
  | VBrush _ | VBuiltin _ => inr NaN
  | VStr _ => inl (Unsupported "string to number")
  end.

(** [Vector3.set(x, y, z)] stores its arguments as they are: a number,
    or [null] (which JSON keeps as [null]). *)
Definition coordinate (v : Value) : ScriptError + num :=
  match v with
  | VNum n => inr n
  | VNull => inr NumNull
  | _ => inl (Unsupported "a coordinate that is not a number")
  end.

(** A default parameter: [param = d] applies only to [undefined]. *)
Definition param (v : Value) (d : num) : ScriptError + num :=
  match v with VUndefined => inr d | _ => to_number v end.

Definition arg (args : list Value) (i : nat) : Value := default VUndefined (args !! i).

(** ** Primitives *)

(** [new Brush(geo, this.material.clone())], [userData.type = ty]. *)
Definition new_brush (g : Geometry) (ty : ShapeType) (ctx : CADContext)
    : BuiltinResult :=
  let '(m, ctx1) := alloc_material (material_color ctx 0) ctx in
  let b := MkBrush g (MatOne m) (zero, zero, zero) (zero, zero, zero)
                   (one, one, one) ty in
  let '(h, ctx2) := alloc_brush b ctx1 in
  inr (VBrush h, ctx2).

Definition Box (args : list Value) (ctx : CADContext) : BuiltinResult :=
  w ← param (arg args 0) one; h ← param (arg args 1) one;
  d ← param (arg args 2) one;
  new_brush (BoxGeometry w h d) BOX ctx.

Definition Sphere (args : list Value) (ctx : CADContext) : BuiltinResult :=
  r ← param (arg args 0) half;
  new_brush (SphereGeometry r 32 32) SPHERE ctx.

Definition Cylinder (args : list Value) (ctx : CADContext) : BuiltinResult :=
  rt ← param (arg args 0) half; rb ← param (arg args 1) half;
  h ← param (arg args 2) one;
  new_brush (CylinderGeometry rt rb h 32) CYLINDER ctx.

(** ** Transforms: [if (!mesh) return mesh; mesh.<field>.set(x, y, z)] *)

Inductive TransformField := TPosition | TRotation | TScale.

Definition set_field (f : TransformField) (v : Vector3) (b : Brush) : Brush :=
  match f with
  | TPosition => MkBrush (b_geometry b) (b_material b) v (b_rotation b) (b_scale b) (b_userType b)
  | TRotation => MkBrush (b_geometry b) (b_material b) (b_position b) v (b_scale b) (b_userType b)
  | TScale => MkBrush (b_geometry b) (b_material b) (b_position b) (b_rotation b) v (b_userType b)
  end.

Definition transform (f : TransformField) (args : list Value) (ctx : CADContext)
    : BuiltinResult :=
  let mesh := arg args 0 in
  if negb (truthy mesh) then inr (mesh, ctx) else
  match mesh with
  | VBrush h =>
      match brushes ctx !! h with
      | Some b =>
          x ← coordinate (arg args 1); y ← coordinate (arg args 2);
          z ← coordinate (arg args 3);
          inr (mesh, update_brush h (set_field f (x, y, z) b) ctx)
      | None => inl (TypeError "Cannot read properties of undefined (reading 'set')")
      end
  | _ => inl (TypeError "Cannot read properties of undefined (reading 'set')")
  end.

(** ** [Color(mesh, hex)] *)

(** [color.set(hex)]: only a string style is modelled; [undefined],
    [null], booleans and objects leave the color unchanged. *)
Definition set_color (c : color_t) (hex : Value) : ScriptError + color_t :=
  match hex with
  | VStr s => inr (color_set c s)
  | VNum _ => inl (Unsupported "Color.set with a number")
  | _ => inr c
  end.

(** One round of [mesh.material.forEach(m => m.color.set(hex))]. *)
Definition recolor_step (hex : Value) (acc : ScriptError + CADContext) (m : nat)
    : ScriptError + CADContext :=
  ctx' ← acc;
  c ← set_color (material_color ctx' m) hex;
  inr (MkContext (results ctx') (<[m := c]> (materials ctx')) (brushes ctx')).

Definition recolor_in_place (hex : Value) (ms : list nat) (ctx : CADContext)
    : ScriptError + CADContext :=
  foldl (recolor_step hex) (inr ctx) ms.

Definition Color (args : list Value) (ctx : CADContext) : BuiltinResult :=
  let mesh := arg args 0 in
  let hex := arg args 1 in
  if negb (truthy mesh) then inr (mesh, ctx) else
  match mesh with
  | VBrush h =>
      match brushes ctx !! h with
      | Some b =>
          match b_material b with
          | MatArray ms => ctx' ← recolor_in_place hex ms ctx; inr (mesh, ctx')
          | MatOne m =>
              c ← set_color (material_color ctx m) hex;
              let '(m', ctx1) := alloc_material c ctx in
              inr (mesh, update_brush h (MkBrush (b_geometry b) (MatOne m') (b_position b)
                                         (b_rotation b) (b_scale b) (b_userType b)) ctx1)
          end
      | None => inl (TypeError "Cannot read properties of undefined (reading 'clone')")
      end
  | _ => inl (TypeError "Cannot read properties of undefined (reading 'clone')")
  end.

(** ** Booleans *)

(** The operand's geometry in world space ([updateMatrixWorld]). *)
Definition world (b : Brush) : Geometry :=
  Transformed (b_position b) (b_rotation b) (b_scale b) (b_geometry b).

(** [if (!a || !b) return a || b;] then [evaluator.evaluate(a, b, op)],
    [userData.type = 'MESH'], [result.material = a.material]. *)
Definition boolean (op : CSGOp) (args : list Value) (ctx : CADContext)
    : BuiltinResult :=
  let a := arg args 0 in
  let b := arg args 1 in
  if negb (truthy a) || negb (truthy b) then
    inr (if truthy a then a else b, ctx)
  else
  match a, b with
  | VBrush ha, VBrush hb =>
      match brushes ctx !! ha, brushes ctx !! hb with
      | Some ba, Some bb =>
          let r := MkBrush (Evaluated op (world ba) (world bb)) (b_material ba)
                     (zero, zero, zero) (zero, zero, zero) (one, one, one) MESH in
          let '(h, ctx1) := alloc_brush r ctx in
          inr (VBrush h, ctx1)
      | _, _ => inl (TypeError "a.updateMatrixWorld is not a function")
      end
  | VBrush _, _ => inl (TypeError "b.updateMatrixWorld is not a function")
  | _, _ => inl (TypeError "a.updateMatrixWorld is not a function")
  end.

(** ** [Add(mesh, name)] *)

(** [obj_${this.objects.length}_${Date.now()}]. *)
Definition object_id (n : nat) (now : N) : string :=
  "obj_" +:+ pretty (N.of_nat n) +:+ "_" +:+ pretty now.

(** ['#' + color.getHexString()] for a single material, ['#cccccc'] for
    an array. *)
Definition extract_color (b : Brush) (ctx : CADContext) : string :=
  match b_material b with
  | MatOne m => "#" +:+ getHexString (material_color ctx m)
  | MatArray _ => "#cccccc"
  end.

Definition Add (now : N) (args : list Value) (ctx : CADContext) : BuiltinResult :=
  let mesh := arg args 0 in
  if negb (truthy mesh) then inr (VUndefined, ctx) else
  match mesh with
  | VBrush h =>
      match brushes ctx !! h with
      | Some b =>
          match arg args 1 with
          | VStr n =>
              let o := MkCADObject (object_id (length (results ctx)) now) n MESH
                         (b_position b) (b_rotation b) (b_scale b) (extract_color b ctx)
                         None (Some false) (Some true) (Some (GeoBuffer (b_geometry b))) in
              inr (VUndefined, MkContext (results ctx ++ [o]) (materials ctx) (brushes ctx))
          | _ => inl (Unsupported "Add with a name that is not a string")
          end
      | None => inl (TypeError "Cannot read properties of undefined (reading 'clone')")
      end
  | _ => inl (TypeError "Cannot read properties of undefined (reading 'clone')")
  end.

(** The dispatch of a call to a builtin; [now] is [Date.now()] at this
    call. *)
Definition call_builtin (now : N) (f : Builtin) (args : list Value)
    (ctx : CADContext) : BuiltinResult :=
  match f with
  | B_Box => Box args ctx
  | B_Sphere => Sphere args ctx
  | B_Cylinder => Cylinder args ctx
  | B_Move => transform TPosition args ctx
  | B_Rotate => transform TRotation args ctx
  | B_Scale => transform TScale args ctx
  | B_Color => Color args ctx
  | B_Union => boolean ADDITION args ctx
  | B_Subtract => boolean SUBTRACTION args ctx
  | B_Intersect => boolean INTERSECTION args ctx
  | B_Add => Add now args ctx
  end.

End CADContext.

(** ** The context invariant: every brush has one material *)

Ltac bind_inv :=
  repeat match goal with
  | H : (_ ≫= _) = inr _ |- _ => apply sum_bind_inr_inv in H as (? & ? & H)
  end.

Section Invariant.
Context `{ThreeColor}.

(** A brush's material is a single material of the store.  Primitives
    give each brush its own clone, booleans share the left operand's,
    [Color] replaces it with a fresh clone: no builtin ever stores an
    array, so the [Array.isArray] branches of [Color] and [Add] are
    dead. *)
Definition brush_wf (ctx : CADContext) (b : Brush) : Prop :=
  ∃ m, b_material b = MatOne m ∧ m < length (materials ctx).

Definition ctx_wf (ctx : CADContext) : Prop := Forall (brush_wf ctx) (brushes ctx).

Lemma brush_wf_grow ctx ctx' b :
  length (materials ctx) ≤ length (materials ctx') → brush_wf ctx b → brush_wf ctx' b.
Proof. intros Hle (m & Hm & Hlt). exists m. split; [done|lia]. Qed.

Lemma ctx_wf_alloc_material c ctx : ctx_wf ctx → ctx_wf (alloc_material c ctx).2.
Proof.
  unfold ctx_wf. simpl. intros Hwf. eapply Forall_impl; [exact Hwf|].
  intros b. apply brush_wf_grow. simpl. rewrite length_app. lia.
Qed.

Lemma ctx_wf_alloc_brush b ctx :
  ctx_wf ctx → brush_wf ctx b → ctx_wf (alloc_brush b ctx).2.
Proof. unfold ctx_wf. simpl. intros. apply Forall_app. auto. Qed.

Lemma ctx_wf_update_brush h b ctx :
  ctx_wf ctx → brush_wf ctx b → ctx_wf (update_brush h b ctx).
Proof. unfold ctx_wf. simpl. intros. by apply Forall_insert. Qed.

Lemma brush_wf_lookup ctx h b :
  ctx_wf ctx → brushes ctx !! h = Some b → brush_wf ctx b.
Proof. intros Hwf Hb. unfold ctx_wf in Hwf. rewrite Forall_lookup in Hwf. eauto. Qed.

Lemma new_brush_wf g ty ctx v ctx' :
  ctx_wf ctx → new_brush g ty ctx = inr (v, ctx') → ctx_wf ctx'.
Proof.
  unfold new_brush. intros Hwf.
  pose proof (ctx_wf_alloc_material (material_color ctx 0) ctx Hwf) as Hwf1.
  destruct (alloc_material _ _) as [m ctx1] eqn:Hm. simpl in Hwf1.
  injection Hm as <- <-. intros [= _ <-].
  apply (ctx_wf_alloc_brush _ _ Hwf1).
  exists (length (materials ctx)). simpl. rewrite length_app. simpl. split; [done|lia].
Qed.

Lemma primitives_wf vs ctx v ctx' :
  ctx_wf ctx →
  Box vs ctx = inr (v, ctx') ∨ Sphere vs ctx = inr (v, ctx') ∨
  Cylinder vs ctx = inr (v, ctx') → ctx_wf ctx'.
Proof.
  intros Hwf. unfold Box, Sphere, Cylinder.
  intros [H'|[H'|H']]; bind_inv; eauto using new_brush_wf.
Qed.

Lemma transform_wf f vs ctx v ctx' :
  ctx_wf ctx → transform f vs ctx = inr (v, ctx') → ctx_wf ctx'.
Proof.
  intros Hwf. unfold transform.
  destruct (truthy _); simpl; [|by intros [= _ <-]].
  repeat case_match; intros H'; bind_inv; simplify_eq; try done.
  apply ctx_wf_update_brush; [done|].
  destruct (brush_wf_lookup _ _ _ Hwf ltac:(eassumption)) as (m & Hm & ?).
  exists m. by destruct f.
Qed.

Lemma Color_wf vs ctx v ctx' :
  ctx_wf ctx → Color vs ctx = inr (v, ctx') → ctx_wf ctx'.
Proof.
  intros Hwf. unfold Color.
  destruct (truthy _); simpl; [|by intros [= _ <-]].
  repeat case_match; intros H'; bind_inv; simplify_eq; try done.
  - apply (ctx_wf_update_brush _ _ _ (ctx_wf_alloc_material x ctx Hwf)).
    eexists. simpl. rewrite length_app. simpl. split; [done|lia].
  - destruct (brush_wf_lookup _ _ _ Hwf ltac:(eassumption)) as (? & ? & _). congruence.
Qed.

Lemma boolean_wf op vs ctx v ctx' :
  ctx_wf ctx → boolean op vs ctx = inr (v, ctx') → ctx_wf ctx'.
Proof.
  intros Hwf. unfold boolean.
  destruct (negb _ || negb _); [by intros [= _ <-]|].
  repeat case_match; intros H'; simplify_eq; try done.
  match goal with H : alloc_brush ?r ctx = _ |- _ =>
    pose proof (ctx_wf_alloc_brush r ctx Hwf) as Hr; rewrite H in Hr; apply Hr end.
  destruct (brush_wf_lookup ctx h b) as (m & ? & ?); [done..|]. by exists m.
Qed.

Lemma Add_wf now vs ctx v ctx' :
  ctx_wf ctx → Add now vs ctx = inr (v, ctx') → ctx_wf ctx'.
Proof.
  intros Hwf. unfold Add.
  destruct (truthy _); simpl; [|by intros [= _ <-]].
  by repeat case_match; intros H'; simplify_eq.
Qed.

(** Every builtin keeps the invariant. *)
Lemma call_builtin_wf now f vs ctx v ctx' :
  ctx_wf ctx → call_builtin now f vs ctx = inr (v, ctx') → ctx_wf ctx'.
Proof.
  intros Hwf. destruct f; cbn [call_builtin];
    eauto using transform_wf, Color_wf, boolean_wf, Add_wf.
  all: intros; eapply primitives_wf; eauto.
Qed.

End Invariant.

#[export] Hint Resolve ctx_wf_alloc_material ctx_wf_alloc_brush ctx_wf_update_brush
  brush_wf_lookup : janus.

(** ** What the builtins do *)

Section Builtins.
Context `{ThreeColor}.

(** The color [Add] would record for brush [h]. *)
Definition brush_color (ctx : CADContext) (h : nat) : option string :=
  (λ b, extract_color b ctx) <$> brushes ctx !! h.

Lemma material_color_app ctx m cs :
  m < length (materials ctx) →
  default (color_of_int 0xcccccc%Z) ((materials ctx ++ cs) !! m) = material_color ctx m.
Proof. intros. unfold material_color. by rewrite lookup_app_l. Qed.

Lemma extract_color_grow b ctx ctx' :
  brush_wf ctx b → materials ctx' = materials ctx ++ drop (length (materials ctx)) (materials ctx') →
  extract_color b ctx' = extract_color b ctx.
Proof.
  intros (m & Hm & Hlt) Hmat. unfold extract_color. rewrite Hm.
  unfold material_color at 1. rewrite Hmat. by rewrite material_color_app.
Qed.

Lemma lookup_alloc_brush b ctx :
  brushes (alloc_brush b ctx).2 !! (alloc_brush b ctx).1 = Some b.
Proof. simpl. by rewrite lookup_app_r, Nat.sub_diag by lia. Qed.

(** C8: the object [Add] makes from the result of a boolean
    carries the left operand's color, whatever the right operand's: the
    result shares [a.material]. *)
Theorem boolean_result_color op ctx ha hb ba bb now nm :
  brushes ctx !! ha = Some ba → brushes ctx !! hb = Some bb →
  ∃ h ctx1 o,
    boolean op [VBrush ha; VBrush hb] ctx = inr (VBrush h, ctx1) ∧
    Add now [VBrush h; VStr nm] ctx1 =
      inr (VUndefined, MkContext (results ctx ++ [o]) (materials ctx1) (brushes ctx1)) ∧
    color o = extract_color ba ctx ∧ name o = nm ∧ type o = MESH.
Proof.
  intros Ha Hb. unfold boolean, Add, arg. simpl. rewrite Ha, Hb. simpl.
  eexists _, _, _. split; [reflexivity|]. simpl.
  rewrite lookup_app_r, Nat.sub_diag by lia. simpl. eauto.
Qed.

(** C21 (finding): a boolean with an absent operand never throws and
    leaves the context alone: with one falsy operand it returns the other
    one (Scenario E), and with both falsy it returns the second, where
    the specification asks for a [NoOperands] error. *)
Theorem boolean_absent_operands op a b ctx :
  truthy b = false →
  boolean op [a; b] ctx = inr (a, ctx) ∧
  boolean op [b; a] ctx = inr (a, ctx) ∨
  truthy a = false ∧ boolean op [a; b] ctx = inr (b, ctx).
Proof.
  intros Hb. unfold boolean, arg. simpl. rewrite Hb. simpl.
  destruct (truthy a) eqn:Ha; simpl; [left|right]; rewrite ?Ha; auto.
Qed.

(** C7: [Color(mesh, style)] gives [mesh] the color [style] sets on its
    material's color, and changes the color of no other brush, although
    a boolean result shares its material with its left operand: the
    material is cloned before it is set. *)
Theorem Color_recolors_own_brush ctx h s v ctx' :
  ctx_wf ctx → Color [VBrush h; VStr s] ctx = inr (v, ctx') →
  (∃ b m, brushes ctx !! h = Some b ∧ b_material b = MatOne m ∧
     brush_color ctx' h = Some ("#" +:+ getHexString (color_set (material_color ctx m) s))) ∧
  ∀ h', h' ≠ h → brush_color ctx' h' = brush_color ctx h'.
Proof.
  intros Hwf. unfold Color, arg. simpl.
  destruct (brushes ctx !! h) as [b|] eqn:Hb; [|done].
  destruct (brush_wf_lookup _ _ _ Hwf Hb) as (m & Hm & Hlt). rewrite Hm.
  simpl. intros [= <- <-]. unfold brush_color, update_brush. simpl. split.
  - exists b, m. split_and!; [done..|].
    rewrite list_lookup_insert, decide_True by (split; [done|by eapply lookup_lt_Some]).
    simpl. unfold extract_color, material_color. simpl.
    by rewrite lookup_app_r, Nat.sub_diag by lia.
  - intros h' Hne. rewrite list_lookup_insert_ne by done.
    destruct (brushes ctx !! h') as [b'|] eqn:Hb'; [|done]. simpl. f_equal.
    apply extract_color_grow; [by eapply brush_wf_lookup|]. simpl.
    by rewrite drop_app_length.
Qed.

Lemma recolor_in_place_results hex ms ctx ctx' :
  recolor_in_place hex ms ctx = inr ctx' → results ctx' = results ctx.
Proof.
  unfold recolor_in_place.
  cut (∀ acc, (∀ c, acc = inr c → results c = results ctx) →
              foldl (recolor_step hex) acc ms = inr ctx' → results ctx' = results ctx).
  { intros Hgen. apply Hgen. by intros c [= <-]. }
  induction ms as [|m ms IH]; intros acc Hacc; simpl; [auto|].
  apply IH. intros c. unfold recolor_step.
  destruct acc as [e|c0]; simpl; [done|].
  destruct (set_color _ _); simpl; [done|]. intros [= <-]. simpl. auto.
Qed.

(** A builtin leaves the finalized objects alone, except [Add], which
    appends one object whose id is [obj_<index>_<now>]. *)
Lemma call_builtin_results now f vs ctx v ctx' :
  call_builtin now f vs ctx = inr (v, ctx') →
  results ctx' = results ctx ∨
  ∃ o, results ctx' = results ctx ++ [o] ∧ id o = object_id (length (results ctx)) now.
Proof.
  destruct f; cbn [call_builtin];
    unfold Box, Sphere, Cylinder, new_brush, transform, Color, boolean, Add;
    intros Hc; bind_inv;
    repeat (case_match || simplify_eq || bind_inv);
    unfold alloc_material, alloc_brush in *; simplify_eq; simpl; eauto.
  left. by eapply recolor_in_place_results.
Qed.

(** C22 (finding): the three primitives throw on no number at all: negative, zero,
    infinite and [NaN] dimensions all give a brush whose geometry
    records them. *)
Theorem primitives_accept_any_number ctx (x y z : num) :
  (∃ h ctx', Box [VNum x; VNum y; VNum z] ctx = inr (VBrush h, ctx') ∧
     b_geometry <$> brushes ctx' !! h = Some (BoxGeometry x y z)) ∧
  (∃ h ctx', Sphere [VNum x] ctx = inr (VBrush h, ctx') ∧
     b_geometry <$> brushes ctx' !! h = Some (SphereGeometry x 32 32)) ∧
  (∃ h ctx', Cylinder [VNum x; VNum y; VNum z] ctx = inr (VBrush h, ctx') ∧
     b_geometry <$> brushes ctx' !! h = Some (CylinderGeometry x y z 32)).
Proof.
  unfold Box, Sphere, Cylinder, new_brush. simpl.
  split_and!; (eexists _, _; split; [reflexivity|]); simpl;
    by rewrite lookup_app_r, Nat.sub_diag by lia.
Qed.

(** C33: the transforms, [Color] and [Add] pass a falsy first argument
    through: the transforms and [Color] return it, [Add] returns
    [undefined], and none of them touches the context. *)
Theorem falsy_mesh_passthrough mesh rest now ctx :
  truthy mesh = false →
  transform TPosition (mesh :: rest) ctx = inr (mesh, ctx) ∧
  transform TRotation (mesh :: rest) ctx = inr (mesh, ctx) ∧
  transform TScale (mesh :: rest) ctx = inr (mesh, ctx) ∧
  Color (mesh :: rest) ctx = inr (mesh, ctx) ∧
  Add now (mesh :: rest) ctx = inr (VUndefined, ctx).
Proof. intros Hm. unfold transform, Color, Add, arg. simpl. by rewrite Hm. Qed.

End Builtins.
