(* ===== verification/Script.v ===== *)
(** * [CSGEngine.execute] (CSGEngine.ts, lines 155-178): running a script

    The engine wraps the script text in

    [const { Box, ..., Add } = ctx; try { <code> } catch (e) {
       throw new Error("Line " + (e.lineNumber || '?') + ": " + e.message) }]

    and runs it with [new Function('ctx', body)(new CADContext())].  The
    script is JavaScript; the model takes it already parsed, in the
    fragment the generated scripts use: [const] and [let] declarations,
    assignment, expression statements, [if], [while] and
    [for (let x = e; c; u)] with block scopes, [x++] and [x--], calls, literals, the
    arithmetic and comparison operators on numbers, [+] on strings,
    [===]/[!==], unary [-] and [!], and the short-circuit [&&]/[||].
    Operators given operands JavaScript would first coerce (a string to
    [-], a number to [+] with a string) end the run as [ExecUnsupported].

    What the model keeps of JavaScript:
    - [let]/[const] are hoisted to the top of their block: a use before
      the declaration throws [ReferenceError] (the dead zone), a repeated
      declaration in one block is a [SyntaxError] raised by
      [new Function] before anything runs, and is not wrapped;
    - names resolve in the script's block scopes, then in the function
      scope holding the eleven destructured builtins, then in the global
      object of the host page: the body of [new Function] is not
      sandboxed and runs in sloppy mode, so a script can read any global
      and an assignment to an undeclared name writes one.  Reaching the
      host ends the run as [ExecHost x]: what the page does then is
      outside the model;
    - errors thrown while running are caught and rethrown as
      ["Line ?: " ++ message]: V8's errors have no [lineNumber];
    - the argument list is evaluated before the callee is checked to be
      a function.

    [while] has no bound in JavaScript and none in the engine; the
    interpreter is a [Fixpoint] on fuel, and running out is
    [ExecOutOfFuel].  [exec_enough_fuel] shows that a block without
    loops never runs out with more fuel than its nesting depth, so
    [script_fuel] is enough for such scripts. *)

From S2P Require Import Prelude JsMap Types Color CSG.

(** ** Syntax *)

Inductive BinOp := OAdd | OSub | OMul | ODiv | OLt | OGt | OLe | OGe | OStrictEq | OStrictNeq.
Inductive UnOp := ONeg | ONot.
Inductive LogicOp := OAnd | OOr.

Inductive expr :=
  | EVar (x : string)
  | ENum (n : num)
  | EStr (s : string)
  | EBool (b : bool)
  | ENull
  | EUndefined
  | EBin (op : BinOp) (a b : expr)
  | EUnary (op : UnOp) (a : expr)
  | ELogic (op : LogicOp) (a b : expr)
  | ECall (f : expr) (args : list expr).

Inductive stmt :=
  | SConst (x : string) (e : expr)
  | SLet (x : string) (e : expr)
  | SAssign (x : string) (e : expr)
  | SExpr (e : expr)
  | SIf (c : expr) (thn els : list stmt)
  | SWhile (c : expr) (body : list stmt)
  | SIncr (x : string) (up : bool)
  | SFor (x : string) (init cond : expr) (upd : stmt) (body : list stmt).

(** ** Bindings and scopes *)

(** A hoisted [let]/[const] binding is uninitialized until its
    declaration runs. *)
Inductive Binding :=
  | Uninit (is_const : bool)
  | Init (is_const : bool) (v : Value).

Definition Scope : Type := list (string * Binding).
(** Innermost scope first. *)
Definition Env : Type := list Scope.

(** The names a block declares at its top level, with [true] for
    [const]. *)
Definition declared (ss : list stmt) : list (string * bool) :=
  omap (λ s, match s with
             | SConst x _ => Some (x, true)
             | SLet x _ => Some (x, false)
             | _ => None
             end) ss.

Definition hoist (ss : list stmt) : Scope :=
  (λ d : string * bool, (d.1, Uninit d.2)) <$> declared ss.

Definition builtin_names : list (string * Builtin) :=
  [("Box", B_Box); ("Sphere", B_Sphere); ("Cylinder", B_Cylinder);
   ("Move", B_Move); ("Rotate", B_Rotate); ("Scale", B_Scale);
   ("Color", B_Color); ("Union", B_Union); ("Subtract", B_Subtract);
   ("Intersect", B_Intersect); ("Add", B_Add)].

(** [const { Box, ..., Add } = ctx]: the function scope. *)
Definition function_scope : Scope :=
  (λ p : string * Builtin, (p.1, Init true (VBuiltin p.2))) <$> builtin_names.

(** ** Early errors *)

(** The first name declared twice in one block, nested blocks
    included: [new Function] refuses such a body with
    [SyntaxError: Identifier 'x' has already been declared]. *)
Fixpoint first_dup (names : list string) : option string :=
  match names with
  | [] => None
  | x :: rest => if decide (x ∈ rest) then Some x else first_dup rest
  end.

Fixpoint dup_decl_stmt (s : stmt) : option string :=
  let block := fix block (ss : list stmt) : option string :=
    match ss with
    | [] => None
    | s :: ss' => match dup_decl_stmt s with Some x => Some x | None => block ss' end
    end in
  match s with
  | SIf _ b1 b2 =>
      match first_dup (declared b1).*1 with
      | Some x => Some x
      | None => match block b1 with Some x => Some x | None =>
                  match first_dup (declared b2).*1 with
                  | Some x => Some x
                  | None => block b2
                  end end
      end
  | SWhile _ b | SFor _ _ _ _ b =>
      match first_dup (declared b).*1 with Some x => Some x | None => block b end
  | _ => None
  end.

Definition dup_decl (ss : list stmt) : option string :=
  match first_dup (declared ss).*1 with
  | Some x => Some x
  | None => foldr (λ s acc, match dup_decl_stmt s with Some x => Some x | None => acc end)
                  None ss
  end.

(** ** How a run ends early *)

Inductive Abort :=
  | Throw (e : ScriptError)
  | HostAccess (x : string)
  | OutOfFuel.

Definition throw {A} (e : ScriptError) : Abort + A := inl (Throw e).

Definition lift {A} (r : ScriptError + A) : Abort + A :=
  match r with inl e => inl (Throw e) | inr a => inr a end.

(** ** The interpreter *)

Section Interp.
Context `{ThreeColor}.
(** [Date.now()] when the [k]-th object is pushed by [Add]. *)
Variable clock : nat → N.
(** The names the host page's global object holds. *)
Variable host : list string.

Fixpoint scope_find (x : string) (env : Env) : option Binding :=
  match env with
  | [] => None
  | sc :: env' =>
      match assoc_get x sc with Some b => Some b | None => scope_find x env' end
  end.

(** Reading a name. *)
Definition resolve (env : Env) (x : string) : Abort + Value :=
  match scope_find x env with
  | Some (Init _ v) => inr v
  | Some (Uninit _) => throw (ReferenceError ("Cannot access '" +:+ x +:+ "' before initialization"))
  | None =>
      if decide (x = "ctx" ∨ x = "arguments") then throw (Unsupported "the function's own parameters")
      else if decide (x ∈ host) then inl (HostAccess x)
      else throw (ReferenceError (x +:+ " is not defined"))
  end.

(** The innermost scope holding [x] gets [b]. *)
Fixpoint scope_update (x : string) (b : Binding) (env : Env) : Env :=
  match env with
  | [] => []
  | sc :: env' =>
      match assoc_get x sc with
      | Some _ => assoc_set x b sc :: env'
      | None => sc :: scope_update x b env'
      end
  end.

(** [x = v]. *)
Definition assign (env : Env) (x : string) (v : Value) : Abort + Env :=
  match scope_find x env with
  | Some (Init false _) => inr (scope_update x (Init false v) env)
  | Some (Init true _) => throw (TypeError "Assignment to constant variable.")
  | Some (Uninit _) => throw (ReferenceError ("Cannot access '" +:+ x +:+ "' before initialization"))
  | None =>
      if decide (x = "ctx" ∨ x = "arguments") then throw (Unsupported "the function's own parameters")
      else inl (HostAccess x)
  end.

(** The declaration of [x] runs: its hoisted binding is initialized. *)
Definition initialize (env : Env) (x : string) (is_const : bool) (v : Value) : Env :=
  match env with
  | [] => []
  | sc :: env' => assoc_set x (Init is_const v) sc :: env'
  end.

Definition callee_text (f : expr) : string :=
  match f with EVar x => x | _ => "expression" end.

Definition add_values (a b : Value) : Abort + Value :=
  match a, b with
  | VNum x, VNum y => inr (VNum (num_add x y))
  | VStr x, VStr y => inr (VStr (x +:+ y))
  | _, _ => throw (Unsupported "+ on values that are not two numbers or two strings")
  end.

(** [-], [*], [/] on two numbers. *)
Definition num_binop (f : spec_float → spec_float → spec_float) (what : string)
    (a b : Value) : Abort + Value :=
  match a, b with
  | VNum x, VNum y => inr (VNum (Num (f (to_float x) (to_float y))))
  | _, _ => throw (Unsupported (what +:+ " on values that are not two numbers"))
  end.

(** The relational operators on two numbers: [NaN] compares false. *)
Definition num_compare (f : spec_float → spec_float → bool) (what : string)
    (a b : Value) : Abort + Value :=
  match a, b with
  | VNum x, VNum y => inr (VBool (f (to_float x) (to_float y)))
  | _, _ => throw (Unsupported (what +:+ " on values that are not numbers"))
  end.

(** [===]: values of different types differ; numbers compare as
    floats ([NaN] differs from itself, [+0] equals [-0]); brushes and
    builtins are objects, equal when they are the same object. *)
Definition strict_equals (a b : Value) : bool :=
  match a, b with
  | VUndefined, VUndefined | VNull, VNull => true
  | VBool x, VBool y => Bool.eqb x y
  | VNum x, VNum y => SFeqb (to_float x) (to_float y)
  | VStr x, VStr y => String.eqb x y
  | VBrush h, VBrush h' => Nat.eqb h h'
  | VBuiltin f, VBuiltin g => bool_decide (f = g)
  | _, _ => false
  end.

Definition binop_eval (op : BinOp) (a b : Value) : Abort + Value :=
  match op with
  | OAdd => add_values a b
  | OSub => num_binop (SFsub js_prec js_emax) "-" a b
  | OMul => num_binop (SFmul js_prec js_emax) "*" a b
  | ODiv => num_binop (SFdiv js_prec js_emax) "/" a b
  | OLt => num_compare SFltb "<" a b
  | OGt => num_compare (λ x y, SFltb y x) ">" a b
  | OLe => num_compare SFleb "<=" a b
  | OGe => num_compare (λ x y, SFleb y x) ">=" a b
  | OStrictEq => inr (VBool (strict_equals a b))
  | OStrictNeq => inr (VBool (negb (strict_equals a b)))
  end.

(** [x++] and [x--] on a number. *)
Definition incr_value (up : bool) (v : Value) : Abort + Value :=
  match v with
  | VNum n => inr (VNum (num_add n (js_lit (if up then 1 else -1) 0)))
  | _ => throw (Unsupported "++ or -- on a value that is not a number")
  end.

(** Unary [-] on a number ([-null] is [-0]), and [!]. *)
Definition unop_eval (op : UnOp) (a : Value) : Abort + Value :=
  match op, a with
  | ONeg, VNum x => inr (VNum (Num (SFopp (to_float x))))
  | ONeg, _ => throw (Unsupported "unary - on a value that is not a number")
  | ONot, v => inr (VBool (negb (truthy v)))
  end.

(** [x++] / [x--] as a statement: read [x], add one or minus one, write
    it back. *)
Definition incr (env : Env) (x : string) (up : bool) : Abort + Env :=
  v ← resolve env x; v' ← incr_value up v; assign env x v'.

Fixpoint eval (env : Env) (e : expr) (ctx : CADContext)
    : Abort + (Value * CADContext) :=
  match e with
  | EVar x => v ← resolve env x; inr (v, ctx)
  | ENum n => inr (VNum n, ctx)
  | EStr s => inr (VStr s, ctx)
  | EBool b => inr (VBool b, ctx)
  | ENull => inr (VNull, ctx)
  | EUndefined => inr (VUndefined, ctx)
  | EBin op a b =>
      '(va, ctx1) ← eval env a ctx; '(vb, ctx2) ← eval env b ctx1;
      v ← binop_eval op va vb; inr (v, ctx2)
  | EUnary op a => '(va, ctx1) ← eval env a ctx; v ← unop_eval op va; inr (v, ctx1)
  | ELogic op a b =>
      '(va, ctx1) ← eval env a ctx;
      match op, truthy va with
      | OAnd, true | OOr, false => eval env b ctx1
      | _, _ => inr (va, ctx1)
      end
  | ECall f args =>
      '(vf, ctx1) ← eval env f ctx;
      '(vs, ctx2) ← (fix eval_args (l : list expr) (c : CADContext)
                       : Abort + (list Value * CADContext) :=
                       match l with
                       | [] => inr ([], c)
                       | a :: l' => '(v, c1) ← eval env a c;
                                    '(vs, c2) ← eval_args l' c1; inr (v :: vs, c2)
                       end) args ctx1;
      match vf with
      | VBuiltin b => lift (call_builtin (clock (length (results ctx2))) b vs ctx2)
      | _ => throw (TypeError (callee_text f +:+ " is not a function"))
      end
  end.

(** The statements of a block, in order, stopping at the first one that
    does not complete. *)
Fixpoint run_stmts (step : Env → stmt → CADContext → Abort + (Env * CADContext))
    (env : Env) (ss : list stmt) (ctx : CADContext) : Abort + (Env * CADContext) :=
  match ss with
  | [] => inr (env, ctx)
  | s :: ss' =>
      match step env s ctx with
      | inr (env1, ctx1) => run_stmts step env1 ss' ctx1
      | inl a => inl a
      end
  end.

Lemma run_stmts_cons step env s ss ctx :
  run_stmts step env (s :: ss) ctx =
  match step env s ctx with
  | inr (env1, ctx1) => run_stmts step env1 ss ctx1
  | inl a => inl a
  end.
Proof. done. Qed.

(** A block runs in a new scope holding its hoisted declarations; it
    gives back the enclosing scopes, with the assignments it made to
    them. *)
Fixpoint exec_block (fuel : nat) (env : Env) (ss : list stmt) (ctx : CADContext)
    {struct fuel} : Abort + (Env * CADContext) :=
  match fuel with
  | O => inl OutOfFuel
  | S fuel' =>
      '(env', ctx') ← run_stmts (exec_stmt fuel') (hoist ss :: env) ss ctx;
      inr (tail env', ctx')
  end
with exec_stmt (fuel : nat) (env : Env) (s : stmt) (ctx : CADContext)
    {struct fuel} : Abort + (Env * CADContext) :=
  match fuel with
  | O => inl OutOfFuel
  | S fuel' =>
      match s with
      | SConst x e => '(v, ctx1) ← eval env e ctx; inr (initialize env x true v, ctx1)
      | SLet x e => '(v, ctx1) ← eval env e ctx; inr (initialize env x false v, ctx1)
      | SAssign x e => '(v, ctx1) ← eval env e ctx; env1 ← assign env x v; inr (env1, ctx1)
      | SExpr e => '(_, ctx1) ← eval env e ctx; inr (env, ctx1)
      | SIf c b1 b2 =>
          '(v, ctx1) ← eval env c ctx;
          exec_block fuel' env (if truthy v then b1 else b2) ctx1
      | SWhile c body =>
          '(v, ctx1) ← eval env c ctx;
          if truthy v then
            '(env1, ctx2) ← exec_block fuel' env body ctx1;
            exec_stmt fuel' env1 (SWhile c body) ctx2
          else inr (env, ctx1)      | SIncr x up => env1 ← incr env x up; inr (env1, ctx)
      | SFor x init c upd body =>
          '(v, ctx1) ← eval ([(x, Uninit false)] :: env) init ctx;
          '(env1, ctx2) ← exec_stmt fuel' (initialize ([(x, Uninit false)] :: env) x false v)
                            (SWhile c [SIf (EBool true) body []; upd]) ctx1;
          inr (tail env1, ctx2)
      end
  end.

Lemma exec_block_S fuel env ss ctx :
  exec_block (S fuel) env ss ctx =
  '(env', ctx') ← run_stmts (exec_stmt fuel) (hoist ss :: env) ss ctx;
  inr (tail env', ctx').
Proof. done. Qed.

Lemma exec_stmt_S fuel env s ctx :
  exec_stmt (S fuel) env s ctx =
  match s with
  | SConst x e => '(v, ctx1) ← eval env e ctx; inr (initialize env x true v, ctx1)
  | SLet x e => '(v, ctx1) ← eval env e ctx; inr (initialize env x false v, ctx1)
  | SAssign x e => '(v, ctx1) ← eval env e ctx; env1 ← assign env x v; inr (env1, ctx1)
  | SExpr e => '(_, ctx1) ← eval env e ctx; inr (env, ctx1)
  | SIf c b1 b2 =>
      '(v, ctx1) ← eval env c ctx;
      exec_block fuel env (if truthy v then b1 else b2) ctx1
  | SWhile c body =>
      '(v, ctx1) ← eval env c ctx;
      if truthy v then
        '(env1, ctx2) ← exec_block fuel env body ctx1;
        exec_stmt fuel env1 (SWhile c body) ctx2
      else inr (env, ctx1)
  | SIncr x up => env1 ← incr env x up; inr (env1, ctx)
  | SFor x init c upd body =>
      '(v, ctx1) ← eval ([(x, Uninit false)] :: env) init ctx;
      '(env1, ctx2) ← exec_stmt fuel (initialize ([(x, Uninit false)] :: env) x false v)
                        (SWhile c [SIf (EBool true) body []; upd]) ctx1;
      inr (tail env1, ctx2)
  end.
Proof. done. Qed.

(** ** [execute] *)

Inductive ExecResult :=
  | ExecOk (objects : list CADObject)
  | ExecError (message : string)
  | ExecUnsupported (what : string)
  | ExecHost (x : string)
  | ExecOutOfFuel.

(** [new Function('ctx', body)] (early errors), [func(context)] with the
    script's block inside the function scope, the [catch] that rewraps
    the message, and [context.getResults()]. *)
Definition execute (fuel : nat) (code : list stmt) : ExecResult :=
  match dup_decl code with
  | Some x => ExecError ("Identifier '" +:+ x +:+ "' has already been declared")
  | None =>
      match exec_block fuel [function_scope] code new_context with
      | inr (_, ctx) => ExecOk (results ctx)
      | inl (Throw (Unsupported w)) => ExecUnsupported w
      | inl (Throw e) => ExecError ("Line ?: " +:+ error_message e)
      | inl (HostAccess x) => ExecHost x
      | inl OutOfFuel => ExecOutOfFuel
      end
  end.

End Interp.

(** ** Induction on expressions *)

Section expr_ind'.
Variable P : expr → Prop.
Hypothesis P_var : ∀ x, P (EVar x).
Hypothesis P_num : ∀ n, P (ENum n).
Hypothesis P_str : ∀ s, P (EStr s).
Hypothesis P_bool : ∀ b, P (EBool b).
Hypothesis P_null : P ENull.
Hypothesis P_undefined : P EUndefined.
Hypothesis P_bin : ∀ op a b, P a → P b → P (EBin op a b).
Hypothesis P_unary : ∀ op a, P a → P (EUnary op a).
Hypothesis P_logic : ∀ op a b, P a → P b → P (ELogic op a b).
Hypothesis P_call : ∀ f args, P f → Forall P args → P (ECall f args).

Fixpoint expr_ind' (e : expr) : P e :=
  match e with
  | EVar x => P_var x
  | ENum n => P_num n
  | EStr s => P_str s
  | EBool b => P_bool b
  | ENull => P_null
  | EUndefined => P_undefined
  | EBin op a b => P_bin op a b (expr_ind' a) (expr_ind' b)
  | EUnary op a => P_unary op a (expr_ind' a)
  | ELogic op a b => P_logic op a b (expr_ind' a) (expr_ind' b)
  | ECall f args =>
      P_call f args (expr_ind' f)
        ((fix go (l : list expr) : Forall P l :=
            match l return Forall P l with
            | [] => List.Forall_nil P
            | a :: l' => @List.Forall_cons _ P a l' (expr_ind' a) (go l')
            end) args)
  end.
End expr_ind'.

(** ** Runs from related contexts *)

(** [R] relates two contexts; if every builtin called on related
    contexts gives the same value or the same exception and related
    contexts, then so does every expression, statement and block. *)
Section Simulation.
Context `{ThreeColor}.
Variables (clock1 clock2 : nat → N) (host : list string).
Variable R : CADContext → CADContext → Prop.

Definition res_rel {A} (r1 r2 : Abort + (A * CADContext)) : Prop :=
  match r1, r2 with
  | inl a1, inl a2 => a1 = a2
  | inr (x1, c1), inr (x2, c2) => x1 = x2 ∧ R c1 c2
  | _, _ => False
  end.

Hypothesis builtin_rel : ∀ f vs c1 c2, R c1 c2 →
  res_rel (lift (call_builtin (clock1 (length (results c1))) f vs c1))
          (lift (call_builtin (clock2 (length (results c2))) f vs c2)).

Lemma res_rel_bind {A B} (m1 m2 : Abort + (A * CADContext))
    (k1 k2 : A * CADContext → Abort + (B * CADContext)) :
  res_rel m1 m2 → (∀ x c1 c2, R c1 c2 → res_rel (k1 (x, c1)) (k2 (x, c2))) →
  res_rel (m1 ≫= k1) (m2 ≫= k2).
Proof.
  intros Hm Hk.
  destruct m1 as [a1|[x1 c1]], m2 as [a2|[x2 c2]]; simpl in *; try done.
  destruct Hm as [-> HR]. by apply Hk.
Qed.

Lemma res_rel_bind_same {A B} (m : Abort + A) (k1 k2 : A → Abort + (B * CADContext)) :
  (∀ a, res_rel (k1 a) (k2 a)) → res_rel (m ≫= k1) (m ≫= k2).
Proof. destruct m; simpl; auto. Qed.

Lemma eval_rel env e c1 c2 :
  R c1 c2 → res_rel (eval clock1 host env e c1) (eval clock2 host env e c2).
Proof.
  revert c1 c2. induction e using expr_ind'; intros c1 c2 HR; cbn [eval].
  all: try (apply res_rel_bind_same; intros; simpl; by auto).
  all: try (simpl; by auto).
  - apply res_rel_bind; [by auto|]. intros va c1' c2' HR'.
    apply res_rel_bind; [by auto|]. intros vb c1'' c2'' HR''.
    apply res_rel_bind_same. intros v. simpl. auto.
  - apply res_rel_bind; [by auto|]. intros va c1' c2' HR'.
    apply res_rel_bind_same. intros v. simpl. auto.
  - apply res_rel_bind; [by auto|]. intros va c1' c2' HR'.
    destruct op, (truthy va); simpl; auto.
  - apply res_rel_bind; [by auto|]. intros vf c1' c2' HR'.
    apply res_rel_bind.
    + revert c1' c2' HR'. induction H0 as [|a args Ha Hargs IH];
        intros c1' c2' HR'; simpl; [done|].
      apply res_rel_bind; [by auto|]. intros v d1 d2 HRd.
      apply res_rel_bind; [by auto|]. intros vs e1 e2 HRe. simpl. auto.
    + intros vs d1 d2 HRd. destruct vf; simpl; auto.
Qed.

Lemma exec_rel fuel :
  (∀ env ss c1 c2, R c1 c2 →
     res_rel (exec_block clock1 host fuel env ss c1) (exec_block clock2 host fuel env ss c2)) ∧
  (∀ env s c1 c2, R c1 c2 →
     res_rel (exec_stmt clock1 host fuel env s c1) (exec_stmt clock2 host fuel env s c2)).
Proof.
  induction fuel as [|fuel [IHb IHs]]; split; try done.
  - intros env ss c1 c2 HR. rewrite !exec_block_S.
    apply res_rel_bind; [|intros; simpl; auto].
    generalize (hoist ss :: env) as env0. revert c1 c2 HR.
    induction ss as [|s ss IH]; intros c1 c2 HR env0; [simpl; auto|].
    rewrite !run_stmts_cons.
    pose proof (IHs env0 s c1 c2 HR) as Hs.
    destruct (exec_stmt clock1 _ _ _ _ _) as [a1|[e1 d1]],
             (exec_stmt clock2 _ _ _ _ _) as [a2|[e2 d2]]; simpl in Hs; try done.
    destruct Hs as [<- HRd]. by apply IH.
  - intros env s c1 c2 HR. rewrite !exec_stmt_S.
    destruct s as [x e|x e|x e|e|c b1 b2|c body|x up|x init c upd body];
      try (apply res_rel_bind_same; intros; by split);
      (apply res_rel_bind; [by apply eval_rel|]); intros v d1 d2 HRd;
      try by split.
    + apply res_rel_bind_same. intros. by split.
    + auto.
    + destruct (truthy v); [|by split].
      apply res_rel_bind; [by auto|]. intros e0 f1 f2 HRf. auto.
    + apply res_rel_bind; [by auto|]. intros e0 f1 f2 HRf. by split.
Qed.

End Simulation.

(** ** Invariants of a whole run *)

Section Preserve.
Context `{ThreeColor}.
Variables (clock : nat → N) (host : list string).
Variable P : CADContext → Prop.
Hypothesis builtin_P : ∀ f vs ctx v ctx', P ctx →
  call_builtin (clock (length (results ctx))) f vs ctx = inr (v, ctx') → P ctx'.

(** A property of the context that every builtin keeps holds after
    every block a script runs. *)
Lemma exec_block_preserves fuel env ss ctx env' ctx' :
  P ctx → exec_block clock host fuel env ss ctx = inr (env', ctx') → P ctx'.
Proof.
  intros HP Hrun.
  assert (∀ f vs c1 c2, c1 = c2 ∧ P c1 →
    res_rel (λ c1 c2, c1 = c2 ∧ P c1)
      (lift (call_builtin (clock (length (results c1))) f vs c1))
      (lift (call_builtin (clock (length (results c2))) f vs c2))) as Hb.
  { intros f vs c1 c2 [<- HP1].
    destruct (call_builtin _ f vs c1) as [e|[v c']] eqn:Hc; simpl; [done|].
    split_and!; eauto. }
  pose proof (proj1 (exec_rel clock clock host (λ c1 c2, c1 = c2 ∧ P c1) Hb fuel)
    env ss ctx ctx (conj eq_refl HP))
    as Hrel.
  rewrite Hrun in Hrel. by destruct Hrel as (_ & _ & ?).
Qed.

End Preserve.

(** ** Ids *)

Section Ids.
Context `{ThreeColor}.

(** The [i]-th finalized object has the id [obj_<i>_<t>] for some time
    [t]. *)
Definition ids_ok (ctx : CADContext) : Prop :=
  ∀ i o, results ctx !! i = Some o → ∃ t, id o = object_id i t.

Lemma object_id_inj i j t s : object_id i t = object_id j s → i = j.
Proof.
  unfold object_id. intros Heq%append_suffix_inj.
  apply sep_split_inj in Heq as [Heq _]; [|apply pretty_N_no_underscore..].
  apply (inj pretty) in Heq. lia.
Qed.

Lemma ids_ok_NoDup ctx : ids_ok ctx → NoDup (id <$> results ctx).
Proof.
  intros Hids. apply NoDup_alt. intros i j x.
  rewrite !list_lookup_fmap.
  destruct (results ctx !! i) as [oi|] eqn:Hi, (results ctx !! j) as [oj|] eqn:Hj;
    simpl; try done.
  intros [= <-] [= Heq].
  destruct (Hids _ _ Hi) as [t Ht], (Hids _ _ Hj) as [s Hs].
  eapply object_id_inj. rewrite <-Ht, <-Hs. done.
Qed.

Lemma ids_ok_builtin now f vs ctx v ctx' :
  ids_ok ctx → call_builtin now f vs ctx = inr (v, ctx') → ids_ok ctx'.
Proof.
  intros Hids Hc. unfold ids_ok.
  destruct (call_builtin_results _ _ _ _ _ _ Hc) as [->|(o & -> & Ho)]; [done|].
  intros i o'. destruct (decide (i < length (results ctx))).
  - rewrite lookup_app_l by done. apply Hids.
  - rewrite lookup_app_r by lia. intros Hi%list_lookup_singleton_Some.
    destruct Hi as [Hi <-]. exists now. rewrite Ho. f_equal. lia.
Qed.

End Ids.

(** ** Determinism *)

Section Determinism.
Context `{ThreeColor}.

(** An object with its id blanked out: the only field taken from
    [Date.now()]. *)
Definition forget_id (o : CADObject) : CADObject :=
  MkCADObject "" (name o) (type o) (position o) (rotation o) (scale o) (color o)
    (args o) (selected o) (visible o) (geometryData o).

Definition strip (ctx : CADContext) : CADContext :=
  MkContext (forget_id <$> results ctx) (materials ctx) (brushes ctx).

Definition strip_result (r : ExecResult) : ExecResult :=
  match r with ExecOk objs => ExecOk (forget_id <$> objs) | _ => r end.

Definition with_results (r : list CADObject) (c : CADContext) : CADContext :=
  MkContext r (materials c) (brushes c).

(** Recoloring in place reads and writes materials only. *)
Lemma recolor_in_place_with_results hex ms r m b :
  recolor_in_place hex ms (MkContext r m b) =
  with_results r <$> recolor_in_place hex ms (MkContext [] m b).
Proof.
  unfold recolor_in_place.
  change (inr (MkContext r m b) : ScriptError + CADContext)
    with (with_results r <$> (inr (MkContext [] m b) : ScriptError + CADContext)).
  generalize (inr (MkContext [] m b) : ScriptError + CADContext) as acc.
  induction ms as [|m' ms IH]; intros acc; simpl; [done|].
  rewrite <-IH. f_equal. unfold recolor_step.
  destruct acc as [e|c]; simpl; [done|]. by destruct (set_color _ _).
Qed.

Lemma builtin_strip now1 now2 f vs c1 c2 :
  strip c1 = strip c2 →
  res_rel (λ c1 c2, strip c1 = strip c2)
    (lift (call_builtin now1 f vs c1)) (lift (call_builtin now2 f vs c2)).
Proof.
  destruct c1 as [r1 m1 b1], c2 as [r2 m2 b2]. unfold strip. simpl.
  intros [= Hr <- <-].
  destruct f; cbn [call_builtin];
    unfold Box, Sphere, Cylinder, new_brush, transform, Color, boolean, Add,
      alloc_material, alloc_brush, update_brush, material_color, extract_color;
    simpl;
    repeat (first [ rewrite (recolor_in_place_with_results _ _ r1)
                  | rewrite (recolor_in_place_with_results _ _ r2)
                  | match goal with |- context [recolor_in_place ?x ?ms ?c] =>
                      destruct (recolor_in_place x ms c) end
                  | case_match
                  | match goal with |- context [?m ≫= _] => destruct m end ]; simpl);
    try done.
  all: split; [done|]; simpl; by rewrite ?fmap_app, Hr.
Qed.

End Determinism.

(** ** What a run of [execute] guarantees *)

Section Execute.
Context `{ThreeColor}.

(** C12: [execute] is deterministic up to the ids: whatever
    [Date.now()] returns at each [Add], two runs of the same script end
    the same way, and when they succeed their objects agree on every
    field but [id]. *)
Theorem execute_deterministic clock1 clock2 host fuel code :
  strip_result (execute clock1 host fuel code) = strip_result (execute clock2 host fuel code).
Proof.
  unfold execute. destruct (dup_decl code); [done|].
  pose proof (proj1 (exec_rel clock1 clock2 host (λ c1 c2, strip c1 = strip c2)
                (λ f vs c1 c2 H, builtin_strip _ _ f vs c1 c2 H) fuel)
                [function_scope] code new_context new_context eq_refl) as Hrel.
  destruct (exec_block clock1 _ _ _ _ _) as [a1|[env1 c1]],
           (exec_block clock2 _ _ _ _ _) as [a2|[env2 c2]]; simpl in Hrel; try done.
  - by subst.
  - destruct Hrel as [_ Hs]. unfold strip in Hs. injection Hs as Hr _ _. simpl. by rewrite Hr.
Qed.

(** C6: within one run the ids [Add] gives are pairwise distinct,
    whatever [Date.now()] returns, even when every [Add] happens in the
    same millisecond: the id carries the object's index. *)
Theorem execute_ids_unique clock host fuel code objs :
  execute clock host fuel code = ExecOk objs → NoDup (id <$> objs).
Proof.
  unfold execute. destruct (dup_decl code); [done|].
  destruct (exec_block clock host fuel [function_scope] code new_context)
    as [a|[env' ctx']] eqn:Hrun; [by destruct a as [[]| |]|].
  intros [= <-]. apply ids_ok_NoDup.
  refine (exec_block_preserves clock host ids_ok _ _ _ _ _ _ _ _ Hrun).
  - intros f vs ctx v ctx'' Hids. apply ids_ok_builtin, Hids.
  - intros i o Hi. done.
Qed.

(** C14: in every run every brush holds one material of the store, so
    the [Array.isArray(mesh.material)] branches of [Color] and [Add]
    never run and [Add] always reports the brush's own color. *)
Theorem execute_single_materials clock host fuel code env' ctx' :
  exec_block clock host fuel [function_scope] code new_context = inr (env', ctx') →
  ctx_wf ctx'.
Proof.
  intros Hrun. refine (exec_block_preserves clock host ctx_wf _ _ _ _ _ _ _ _ Hrun).
  - intros f vs ctx v ctx'' Hwf. by apply call_builtin_wf.
  - constructor.
Qed.

End Execute.

(** ** Fuel *)

(** A statement without [while]. *)
Fixpoint loop_free (s : stmt) : bool :=
  match s with
  | SIf _ b1 b2 => forallb loop_free b1 && forallb loop_free b2
  | SWhile _ _ | SFor _ _ _ _ _ => false
  | _ => true
  end.

(** The fuel a statement without [while] needs: one unit per level of
    block nesting. *)
Fixpoint stmt_depth (s : stmt) : nat :=
  match s with
  | SIf _ b1 b2 =>
      S (S (max (foldr (λ s acc, max (stmt_depth s) acc) 0 b1)
                (foldr (λ s acc, max (stmt_depth s) acc) 0 b2)))
  | _ => 1
  end.

Definition block_depth (ss : list stmt) : nat :=
  foldr (λ s acc, max (stmt_depth s) acc) 0 ss.

(** The fuel [execute] is given for a script without [while]. *)
Definition script_fuel (code : list stmt) : nat := S (block_depth code).

Lemma bind_OutOfFuel {A B} (m : Abort + A) (k : A → Abort + B) :
  (m ≫= k) = inl OutOfFuel → m = inl OutOfFuel ∨ ∃ a, m = inr a ∧ k a = inl OutOfFuel.
Proof. destruct m; simpl; [intros [= ->]|]; eauto. Qed.

Lemma lift_not_OutOfFuel {A} (r : ScriptError + A) : lift r ≠ inl OutOfFuel.
Proof. by destruct r. Qed.

Lemma binop_eval_not_OutOfFuel op a b : binop_eval op a b ≠ inl OutOfFuel.
Proof.
  destruct op; unfold binop_eval, add_values, num_binop, num_compare; by repeat case_match.
Qed.

Lemma unop_eval_not_OutOfFuel op a : unop_eval op a ≠ inl OutOfFuel.
Proof. destruct op, a; done. Qed.

Lemma incr_not_OutOfFuel host env x up : incr host env x up ≠ inl OutOfFuel.
Proof.
  unfold incr, resolve, incr_value, assign.
  destruct (scope_find x env) as [[]|]; simpl; repeat case_match; done.
Qed.

Section Fuel.
Context `{ThreeColor}.
Variables (clock : nat → N) (host : list string).

(** Evaluating an expression uses no fuel: only loops do. *)
Lemma eval_not_OutOfFuel env e ctx : eval clock host env e ctx ≠ inl OutOfFuel.
Proof.
  revert ctx. induction e using expr_ind'; intros ctx; cbn [eval].
  all: try done.
  all: try (intros [Hm|(? & ? & Hk)]%bind_OutOfFuel;
            [unfold resolve in Hm; repeat case_match; done|done]).
  - intros [Hm|([va c1] & _ & Hk)]%bind_OutOfFuel; [by eapply IHe1|].
    apply bind_OutOfFuel in Hk as [Hm|([vb c2] & _ & Hk)]; [by eapply IHe2|].
    apply bind_OutOfFuel in Hk as [Hm|(? & _ & Hk)]; [|done].
    by eapply binop_eval_not_OutOfFuel.
  - intros [Hm|([va c1] & _ & Hk)]%bind_OutOfFuel; [by eapply IHe|].
    apply bind_OutOfFuel in Hk as [Hm|(? & _ & Hk)]; [|done].
    by eapply unop_eval_not_OutOfFuel.
  - intros [Hm|([va c1] & _ & Hk)]%bind_OutOfFuel; [by eapply IHe1|].
    destruct op, (truthy va); simpl in Hk; try done; by eapply IHe2.
  - intros [Hm|([vf c1] & _ & Hk)]%bind_OutOfFuel; [by eapply IHe|].
    apply bind_OutOfFuel in Hk as [Hm|([vs c2] & _ & Hk)].
    + revert c1 Hm. induction H0 as [|a args Ha Hargs IH]; intros c1;
        [done|].
      intros [Hm|([v d1] & _ & Hk)]%bind_OutOfFuel; [by eapply Ha|].
      apply bind_OutOfFuel in Hk as [Hm|([vs c2] & _ & Hk)]; [by eapply IH|inversion Hk].
    + destruct vf; try done. by eapply lift_not_OutOfFuel.
Qed.

Lemma run_stmts_not_OutOfFuel step env ss ctx :
  (∀ env s ctx, s ∈ ss → step env s ctx ≠ inl OutOfFuel) →
  run_stmts step env ss ctx ≠ inl OutOfFuel.
Proof.
  revert env ctx. induction ss as [|s ss IH]; intros env ctx Hs; simpl; [done|].
  destruct (step env s ctx) as [a|[env1 c1]] eqn:Hstep.
  - intros [= ->]. by apply (Hs env s ctx); [left|].
  - apply IH. intros env' s' ctx' Hin. apply Hs. by right.
Qed.

Lemma stmt_depth_le_block s ss : s ∈ ss → stmt_depth s ≤ block_depth ss.
Proof.
  induction ss as [|s' ss IH]; [by intros ?%elem_of_nil|].
  rewrite elem_of_cons. unfold block_depth in *. simpl. intros [->|?]; [lia|].
  specialize (IH H0). lia.
Qed.

(** With more fuel than its nesting depth, a block without [while]
    never runs out. *)
Lemma exec_enough_fuel fuel :
  (∀ env ss ctx, forallb loop_free ss = true → block_depth ss < fuel →
     exec_block clock host fuel env ss ctx ≠ inl OutOfFuel) ∧
  (∀ env s ctx, loop_free s = true → stmt_depth s ≤ fuel →
     exec_stmt clock host fuel env s ctx ≠ inl OutOfFuel).
Proof.
  induction fuel as [|fuel [IHb IHs]]; split.
  - intros; lia.
  - intros env s ctx _ Hd. destruct s; simpl in Hd; lia.
  - intros env ss ctx Hlf Hd. rewrite exec_block_S.
    intros [Hm|([env' c'] & _ & Hk)]%bind_OutOfFuel; [|inversion Hk].
    revert Hm. apply run_stmts_not_OutOfFuel. intros env0 s ctx0 Hin. apply IHs.
    + rewrite forallb_forall in Hlf. apply Hlf. by apply list_elem_of_In.
    + pose proof (stmt_depth_le_block s ss Hin). lia.
  - intros env s ctx Hlf Hd. rewrite exec_stmt_S.
    destruct s as [x e|x e|x e|e|c0 b1 b2|c0 body|x up|x init c0 upd body]; simpl in Hlf, Hd;
      try done;
      try (intros [Hm|(? & _ & Hk)]%bind_OutOfFuel; [by eapply incr_not_OutOfFuel|done]);
      intros [Hm|([v c] & _ & Hk)]%bind_OutOfFuel; try exact (eval_not_OutOfFuel _ _ _ Hm);
      try by inversion Hk.
    + apply bind_OutOfFuel in Hk as [Hm|(? & _ & Hk)]; [|by inversion Hk].
      unfold assign in Hm. by repeat case_match.
    + apply andb_prop in Hlf as [Hl1 Hl2]. revert Hk.
      apply IHb; [by destruct (truthy v)|].
      unfold block_depth. destruct (truthy v); lia.
Qed.

Lemma run_stmts_ext step1 step2 env ss ctx :
  (∀ env s ctx, s ∈ ss → step1 env s ctx ≠ inl OutOfFuel →
     step2 env s ctx = step1 env s ctx) →
  run_stmts step1 env ss ctx ≠ inl OutOfFuel →
  run_stmts step2 env ss ctx = run_stmts step1 env ss ctx.
Proof.
  revert env ctx. induction ss as [|s ss IH]; intros env ctx Hext Hne; [done|].
  rewrite !run_stmts_cons in *.
  destruct (step1 env s ctx) as [a|[env1 c1]] eqn:Hs1.
  - rewrite Hext; [by rewrite Hs1|by left|]. rewrite Hs1. intros [= ->]. by apply Hne.
  - rewrite Hext; [rewrite Hs1|by left|by rewrite Hs1].
    apply IH; [|done]. intros. apply Hext; [by right|done].
Qed.

(** More fuel does not change a run that did not run out. *)
Lemma exec_fuel_mono fuel :
  (∀ env ss ctx fuel', fuel ≤ fuel' →
     exec_block clock host fuel env ss ctx ≠ inl OutOfFuel →
     exec_block clock host fuel' env ss ctx = exec_block clock host fuel env ss ctx) ∧
  (∀ env s ctx fuel', fuel ≤ fuel' →
     exec_stmt clock host fuel env s ctx ≠ inl OutOfFuel →
     exec_stmt clock host fuel' env s ctx = exec_stmt clock host fuel env s ctx).
Proof.
  induction fuel as [|fuel [IHb IHs]]; split; try done.
  - intros env ss ctx [|fuel'] Hle Hne; [lia|]. rewrite !exec_block_S in *.
    rewrite (run_stmts_ext (exec_stmt clock host fuel)); [done| |].
    + intros. apply IHs; [lia|done].
    + intros Heq. apply Hne. by rewrite Heq.
  - intros env s ctx [|fuel'] Hle Hne; [lia|]. rewrite !exec_stmt_S in *.
    destruct s as [x e|x e|x e|e|c b1 b2|c body|x up|x init c upd body];
      [..|destruct (eval clock host ([(x, Uninit false)] :: env) init ctx) as [a|[v c1]];
          [done|]; simpl in *;
          destruct (exec_stmt clock host fuel _ (SWhile c _) c1) as [a|[e1 c2]] eqn:Hs;
          (rewrite IHs, Hs; [done|lia|by rewrite Hs])];
      try done;
      destruct (eval clock host env _ ctx) as [a|[v c1]]; try done; simpl in *.
    + apply IHb; [lia|done].
    + destruct (truthy v); [|done].
      destruct (exec_block clock host fuel env body c1) as [a|[e1 c2]] eqn:Hb.
      * rewrite IHb, Hb; [done|lia|by rewrite Hb].
      * rewrite IHb, Hb; [|lia|by rewrite Hb]. simpl in *. apply IHs; [lia|done].
Qed.

End Fuel.

(** ** Termination, and its absence *)

Section Termination.
Context `{ThreeColor}.
Variables (clock : nat → N) (host : list string).

Lemma while_true_stmt fuel env ctx :
  exec_stmt clock host fuel env (SWhile (EBool true) []) ctx = inl OutOfFuel.
Proof.
  revert env ctx. induction fuel as [|fuel IH]; intros env ctx; [done|].
  rewrite exec_stmt_S. simpl. destruct fuel as [|fuel]; [done|].
  rewrite exec_block_S. simpl. apply IH.
Qed.

(** C13 (finding): the engine has no execution budget: [while (true) {}]
    runs out of every amount of fuel, so [execute] never returns on it,
    where the specification requires a [Timeout] error. *)
Theorem execute_while_true_diverges fuel :
  execute clock host fuel [SWhile (EBool true) []] = ExecOutOfFuel.
Proof.
  unfold execute. simpl. destruct fuel as [|fuel]; [done|].
  rewrite exec_block_S. simpl. by rewrite while_true_stmt.
Qed.

Lemma scope_find_function_scope x :
  x ∉ builtin_names.*1 → scope_find x [[]; function_scope] = None.
Proof.
  intros Hx. cbn [scope_find assoc_get]. rewrite assoc_get_None; [done|].
  unfold function_scope. rewrite <-list_fmap_compose. done.
Qed.

Lemma eval_call_host env x ctx :
  x ∈ host → x ≠ "ctx" → x ≠ "arguments" → scope_find x env = None →
  eval clock host env (ECall (EVar x) []) ctx = inl (HostAccess x).
Proof.
  intros Hhost Hctx Hargs Hfind. cbn [eval]. unfold resolve. rewrite Hfind.
  rewrite decide_False by naive_solver. by rewrite decide_True.
Qed.

Lemma assign_host env x v :
  x ≠ "ctx" → x ≠ "arguments" → scope_find x env = None →
  assign env x v = inl (HostAccess x).
Proof.
  intros Hctx Hargs Hfind. unfold assign. rewrite Hfind.
  by rewrite decide_False by naive_solver.
Qed.

(** C11 (finding): the script is not sandboxed.  A name that is neither
    declared nor a builtin resolves in the host page's global object: a
    script that calls a global of the page reaches it, and a script
    that assigns an undeclared name writes a global of the page. *)
Theorem execute_reaches_host x fuel :
  x ∈ host → x ∉ builtin_names.*1 → x ≠ "ctx" → x ≠ "arguments" → 2 ≤ fuel →
  execute clock host fuel [SExpr (ECall (EVar x) [])] = ExecHost x ∧
  execute clock host fuel [SAssign x ENull] = ExecHost x.
Proof.
  intros Hhost Hx Hctx Hargs Hfuel. apply scope_find_function_scope in Hx.
  destruct fuel as [|[|fuel]]; [lia|lia|]. unfold execute.
  split.
  - change (dup_decl [SExpr (ECall (EVar x) [])]) with (@None string). cbv iota.
    rewrite exec_block_S, run_stmts_cons, exec_stmt_S. by erewrite eval_call_host.
  - change (dup_decl [SAssign x ENull]) with (@None string). cbv iota.
    rewrite exec_block_S, run_stmts_cons, exec_stmt_S. simpl. by erewrite assign_host.
Qed.

(** Fuel only bounds the run: once a script finishes with some fuel,
    every larger fuel gives the same result. *)
Lemma execute_more_fuel code fuel fuel' :
  execute clock host fuel code ≠ ExecOutOfFuel → fuel ≤ fuel' →
  execute clock host fuel' code = execute clock host fuel code.
Proof.
  unfold execute. destruct (dup_decl code); [done|]. intros Hne Hle.
  rewrite (proj1 (exec_fuel_mono clock host fuel)); [done|done|].
  intros Heq. apply Hne. by rewrite Heq.
Qed.

(** [x++] is [x = x + 1] whenever [x] does not hold a value other
    than a number: both read [x] the same way, add one with the same
    float addition and write back through [assign]. *)
Lemma incr_is_add_assign fuel env x ctx :
  (∀ v, resolve host env x = inr v → ∃ n, v = VNum n) →
  exec_stmt clock host (S fuel) env (SIncr x true) ctx =
  exec_stmt clock host (S fuel) env (SAssign x (EBin OAdd (EVar x) (ENum (js_lit 1 0)))) ctx.
Proof.
  intros Hnum. rewrite !exec_stmt_S. unfold incr. cbn.
  destruct (resolve host env x) as [a|v] eqn:Hr; [done|].
  destruct (Hnum v eq_refl) as [n ->]. cbn.
  by destruct (assign env x _).
Qed.

End Termination.
