(* ===== verification/Scenarios.v ===== *)
(** * Scripts run end to end

    The scripts of the specification's scenarios and of [App.tsx]'s
    initial load, written in the syntax of [Script], run by [execute]
    with the 24-bit color implementation [hex_color] and a clock that
    returns the same millisecond for every [Add].  [add_box_object]
    states the shape of Scenario A, [Add(Box(w, h, d), n)], for every
    input; the loop and operator examples run concrete scripts.  The
    witnesses of the engine's theorems are here as well: each applies
    its theorem to one of these scripts or contexts. *)

From S2P Require Import Prelude JsMap Types Color CSG Script.

Definition same_ms : nat → N := λ _, 1700000000000%N.

Definition num_lit (n : Z) : expr := ENum (js_lit n 0).
Definition num_value (n : Z) : Value := VNum (js_lit n 0).

(** [Add(Box(w, h, d), n)]. *)
Definition add_box (w h d : num) (n : string) : list stmt :=
  [SExpr (ECall (EVar "Add") [ECall (EVar "Box") [ENum w; ENum h; ENum d]; EStr n])].

(** [Add(Box(1, 1, 1), "Cube")]. *)
Definition scenario_A : list stmt := add_box (js_lit 1 0) (js_lit 1 0) (js_lit 1 0) "Cube".

(** Two boxes, each finalized as ["Cube"]. *)
Definition scenario_B : list stmt :=
  [SConst "a" (ECall (EVar "Box") []);
   SConst "b" (ECall (EVar "Box") []);
   SExpr (ECall (EVar "Add") [EVar "a"; EStr "Cube"]);
   SExpr (ECall (EVar "Add") [EVar "b"; EStr "Cube"])].

(** [Add(Subtract(Color(Box(), "#ff0000"), Color(Sphere(), "#00ff00")),
    "Result")]. *)
Definition scenario_C : list stmt :=
  [SConst "a" (ECall (EVar "Color") [ECall (EVar "Box") []; EStr "#ff0000"]);
   SConst "b" (ECall (EVar "Color") [ECall (EVar "Sphere") []; EStr "#00ff00"]);
   SExpr (ECall (EVar "Add")
     [ECall (EVar "Subtract") [EVar "a"; EVar "b"]; EStr "Result"])].

(** The script [App.tsx] runs at start-up (lines 137-142). *)
Definition initial_script : list stmt :=
  [SConst "b" (ECall (EVar "Box") [num_lit 1; num_lit 1; num_lit 1]);
   SExpr (ECall (EVar "Color") [EVar "b"; EStr "#3b82f6"]);
   SExpr (ECall (EVar "Add") [EVar "b"; EStr "Starter Cube"])].

Definition run (code : list stmt) : ExecResult :=
  execute same_ms [] (script_fuel code) code.

Definition names_of (r : ExecResult) : option (list string) :=
  match r with ExecOk objs => Some (name <$> objs) | _ => None end.

Definition colors_of (r : ExecResult) : option (list string) :=
  match r with ExecOk objs => Some (color <$> objs) | _ => None end.

(** C34: [Add(Box(w, h, d), n)], the shape of Scenario A, gives one
    object named [n] at the origin, of kind [MESH], in the default
    grey, with the clone of a [w × h × d] box geometry as its
    [geometryData] and no [args] (the code sets none), whatever the
    numbers, the name, the clock and the host page, with fuel from 2
    on.  Scenario A is the case [w = h = d = 1], [n = "Cube"]. *)
Theorem add_box_object clock host fuel w h d n :
  2 ≤ fuel →
  ∃ o, execute clock host fuel (add_box w h d n) = ExecOk [o] ∧
       name o = n ∧ type o = MESH ∧ color o = "#cccccc" ∧
       geometryData o = Some (GeoBuffer (BoxGeometry w h d)) ∧ args o = None ∧
       position o = (Num (S754_zero false), Num (S754_zero false), Num (S754_zero false)).
Proof.
  intros Hfuel. rewrite (execute_more_fuel _ _ _ 2 fuel); [|vm_compute; done|done].
  vm_compute. eexists. split_and!; reflexivity.
Qed.

(** ** Loops and operators *)

(** [for (let i = 0; i < 3; i++) { Add(Move(Sphere(), i * 2, 0, -i), "Ball"); }] *)
Definition balls_loop : stmt :=
  SFor "i" (num_lit 0) (EBin OLt (EVar "i") (num_lit 3)) (SIncr "i" true)
    [SExpr (ECall (EVar "Add")
       [ECall (EVar "Move") [ECall (EVar "Sphere") [];
                             EBin OMul (EVar "i") (num_lit 2); num_lit 0;
                             EUnary ONeg (EVar "i")];
        EStr "Ball"])].

Definition x_of (o : CADObject) : num := (position o).1.1.
Definition z_of (o : CADObject) : num := (position o).2.

Definition positions_of (r : ExecResult) : option (list (num * num)) :=
  match r with ExecOk objs => Some ((λ o, (x_of o, z_of o)) <$> objs) | _ => None end.

(** The loop runs its body three times: three balls, all named
    ["Ball"], at x = 0, 2, 4 and z = -0, -1, -2. *)
Example balls_loop_result :
  names_of (execute same_ms [] 20 [balls_loop]) = Some ["Ball"; "Ball"; "Ball"] ∧
  positions_of (execute same_ms [] 20 [balls_loop]) =
    Some [(js_lit 0 0, Num (S754_zero true)); (js_lit 2 0, js_lit (-1) 0);
          (js_lit 4 0, js_lit (-2) 0)].
Proof. split; vm_compute; reflexivity. Qed.

(** The loop variable lives in the loop's scope: after the loop it is
    not defined. *)
Example for_variable_scoped :
  execute same_ms [] 20 [balls_loop; SExpr (EVar "i")] = ExecError "Line ?: i is not defined".
Proof. vm_compute. reflexivity. Qed.

(** [i++] and [i = i + 1] step the loop alike. *)
Example for_incr_assign :
  execute same_ms [] 20 [balls_loop] =
  execute same_ms [] 20
    [SFor "i" (num_lit 0) (EBin OLt (EVar "i") (num_lit 3))
       (SAssign "i" (EBin OAdd (EVar "i") (num_lit 1)))
       [SExpr (ECall (EVar "Add")
          [ECall (EVar "Move") [ECall (EVar "Sphere") [];
                                EBin OMul (EVar "i") (num_lit 2); num_lit 0;
                                EUnary ONeg (EVar "i")];
           EStr "Ball"])]].
Proof. vm_compute. reflexivity. Qed.

(** Its initializer runs in the dead zone of the variable. *)
Example for_init_dead_zone :
  execute same_ms [] 20 [SFor "i" (EVar "i") (EBool false) (SIncr "i" true) []] =
    ExecError "Line ?: Cannot access 'i' before initialization".
Proof. vm_compute. reflexivity. Qed.

(** [===]: [NaN] differs from itself, [+0] equals [-0], a brush equals
    only itself, and values of different types differ. *)
Example strict_equals_cases :
  strict_equals (VNum NaN) (VNum NaN) = false ∧
  strict_equals (VNum (Num (S754_zero false))) (VNum (Num (S754_zero true))) = true ∧
  strict_equals (VBrush 0) (VBrush 0) = true ∧ strict_equals (VBrush 0) (VBrush 1) = false ∧
  strict_equals VNull VUndefined = false ∧ strict_equals (num_value 1) (VStr "1") = false.
Proof. vm_compute. split_and!; reflexivity. Qed.

(** [&&] and [||] return an operand and do not evaluate the other one
    when the first decides: [false && Box()] makes no brush. *)
Example logic_short_circuit :
  execute same_ms [] 5
    [SConst "a" (ELogic OAnd (EBool false) (ECall (EVar "Box") []));
     SExpr (ECall (EVar "Add") [ELogic OOr (EVar "a") (ECall (EVar "Sphere") []); EStr "S"])] =
  execute same_ms [] 5 [SExpr (ECall (EVar "Add") [ECall (EVar "Sphere") []; EStr "S"])].
Proof. vm_compute. reflexivity. Qed.

(** ** Witnesses *)

Definition box_brush (m : nat) : Brush :=
  MkBrush (BoxGeometry one one one) (MatOne m) (zero, zero, zero) (zero, zero, zero)
    (one, one, one) BOX.

Definition sphere_brush (m : nat) : Brush :=
  MkBrush (SphereGeometry half 32 32) (MatOne m) (zero, zero, zero) (zero, zero, zero)
    (one, one, one) SPHERE.

(** A red box and a green sphere. *)
Definition two_brushes : CADContext :=
  MkContext [] [0xcccccc; 0xff0000; 0x00ff00]%Z [box_brush 1; sphere_brush 2].

(** A red box and the union of the box with itself, which shares the
    box's material. *)
Definition shared_material : CADContext :=
  MkContext [] [0xcccccc; 0xff0000]%Z
    [box_brush 1;
     MkBrush (Evaluated ADDITION (world (box_brush 1)) (world (box_brush 1))) (MatOne 1)
       (zero, zero, zero) (zero, zero, zero) (one, one, one) MESH].

Definition after (r : BuiltinResult) (ctx : CADContext) : CADContext :=
  match r with inr (_, c) => c | inl _ => ctx end.

Definition recolored_union : CADContext :=
  after (Color [VBrush 1; VStr "#00ff00"] shared_material) shared_material.

Definition scenario_B_objects : list CADObject :=
  match run scenario_B with ExecOk objs => objs | _ => [] end.

Definition scenario_C_final : Env * CADContext :=
  match exec_block same_ms [] (script_fuel scenario_C) [function_scope] scenario_C new_context with
  | inr p => p
  | inl _ => ([], new_context)
  end.

Lemma boolean_result_color_witness :
  brushes two_brushes !! 0 = Some (box_brush 1) ∧
  brushes two_brushes !! 1 = Some (sphere_brush 2) ∧
  ∃ h ctx1 o,
    boolean SUBTRACTION [VBrush 0; VBrush 1] two_brushes = inr (VBrush h, ctx1) ∧
    Add 1700000000000 [VBrush h; VStr "Result"] ctx1 =
      inr (VUndefined, MkContext (results two_brushes ++ [o]) (materials ctx1) (brushes ctx1)) ∧
    color o = extract_color (box_brush 1) two_brushes ∧ name o = "Result" ∧ type o = MESH.
Proof.
  split; [reflexivity|]. split; [reflexivity|].
  apply (boolean_result_color SUBTRACTION two_brushes 0 1 (box_brush 1) (sphere_brush 2));
    reflexivity.
Defined.

Lemma boolean_absent_operands_witness :
  truthy VNull = false ∧
  (boolean ADDITION [VBrush 0; VNull] two_brushes = inr (VBrush 0, two_brushes) ∧
   boolean ADDITION [VNull; VBrush 0] two_brushes = inr (VBrush 0, two_brushes) ∨
   truthy (VBrush 0) = false ∧
   boolean ADDITION [VBrush 0; VNull] two_brushes = inr (VNull, two_brushes)).
Proof. split; [reflexivity|]. apply boolean_absent_operands. reflexivity. Defined.

Lemma falsy_mesh_passthrough_witness :
  truthy VUndefined = false ∧
  transform TPosition [VUndefined; num_value 1] two_brushes = inr (VUndefined, two_brushes) ∧
  transform TRotation [VUndefined; num_value 1] two_brushes = inr (VUndefined, two_brushes) ∧
  transform TScale [VUndefined; num_value 1] two_brushes = inr (VUndefined, two_brushes) ∧
  Color [VUndefined; num_value 1] two_brushes = inr (VUndefined, two_brushes) ∧
  Add 0 [VUndefined; num_value 1] two_brushes = inr (VUndefined, two_brushes).
Proof. split; [reflexivity|]. apply falsy_mesh_passthrough. reflexivity. Defined.

Lemma Color_recolors_own_brush_witness :
  ctx_wf shared_material ∧
  Color [VBrush 1; VStr "#00ff00"] shared_material = inr (VBrush 1, recolored_union) ∧
  (∃ b m, brushes shared_material !! 1 = Some b ∧ b_material b = MatOne m ∧
     brush_color recolored_union 1 =
       Some ("#" +:+ getHexString (color_set (material_color shared_material m) "#00ff00"))) ∧
  (∀ h', h' ≠ 1 → brush_color recolored_union h' = brush_color shared_material h').
Proof.
  assert (ctx_wf shared_material) as Hwf.
  { unfold ctx_wf. cbn [brushes shared_material]. rewrite !Forall_cons, Forall_nil.
    split_and!; [..|exact I]; (exists 1; split; [reflexivity|vm_compute; lia]). }
  assert (Color [VBrush 1; VStr "#00ff00"] shared_material = inr (VBrush 1, recolored_union))
    as Hc by reflexivity.
  split; [exact Hwf|]. split; [exact Hc|].
  exact (Color_recolors_own_brush shared_material 1 "#00ff00" (VBrush 1) recolored_union Hwf Hc).
Defined.

Lemma execute_ids_unique_witness :
  run scenario_B = ExecOk scenario_B_objects ∧ NoDup (id <$> scenario_B_objects).
Proof.
  assert (run scenario_B = ExecOk scenario_B_objects) as Hrun by reflexivity.
  split; [done|]. exact (execute_ids_unique same_ms [] _ scenario_B _ Hrun).
Defined.

Lemma execute_single_materials_witness :
  exec_block same_ms [] (script_fuel scenario_C) [function_scope] scenario_C new_context =
    inr scenario_C_final ∧ ctx_wf scenario_C_final.2.
Proof.
  assert (exec_block same_ms [] (script_fuel scenario_C) [function_scope] scenario_C new_context =
            inr (scenario_C_final.1, scenario_C_final.2)) as Hrun by reflexivity.
  split; [done|]. exact (execute_single_materials same_ms [] _ scenario_C _ _ Hrun).
Defined.

Lemma execute_reaches_host_witness :
  "fetch" ∈ ["fetch"] ∧ "fetch" ∉ builtin_names.*1 ∧ "fetch" ≠ "ctx" ∧
  "fetch" ≠ "arguments" ∧ 2 ≤ 2 ∧
  execute same_ms ["fetch"] 2 [SExpr (ECall (EVar "fetch") [])] = ExecHost "fetch" ∧
  execute same_ms ["fetch"] 2 [SAssign "fetch" ENull] = ExecHost "fetch".
Proof.
  assert ("fetch" ∈ ["fetch"]) as H1 by decide_true.
  assert ("fetch" ∉ builtin_names.*1) as H2 by decide_true.
  assert ("fetch" ≠ "ctx") as H3 by decide_true.
  assert ("fetch" ≠ "arguments") as H4 by decide_true.
  do 5 (split; [done || lia|]).
  by apply (execute_reaches_host same_ms ["fetch"] "fetch" 2).
Defined.

Lemma add_box_object_witness :
  2 ≤ 3 ∧ ∃ o, execute same_ms [] 3 scenario_A = ExecOk [o] ∧ name o = "Cube" ∧ type o = MESH.
Proof.
  split; [lia|].
  destruct (add_box_object same_ms [] 3 (js_lit 1 0) (js_lit 1 0) (js_lit 1 0) "Cube")
    as (o & Ho & Hn & Ht & _); [lia|].
  exists o. split_and!; [exact Ho|exact Hn|exact Ht].
Defined.
