(* ===== verification/Services.v ===== *)
(** * What the model services do with a response

    [geminiService.ts] ([generateScript], [fixScript]) and
    [visualFeedbackService.ts] ([evaluateRender], and the
    [PlannerService.getPlan] the file also holds) each send a prompt to
    a language model and post-process what comes back.  The network
    call and the prompt text are not modelled: a call's outcome is a
    [ModelResponse], the [text] the SDK gave (absent or empty included)
    or the exception it threw.  [JSON.parse] is a parameter of each
    section: it gives the parsed fields, or [None] / [inl message] when
    it throws.

    What is modelled is every branch after the call: the [!response.text]
    guards, the [||] defaults, the [catch] blocks, and which of them
    rethrow and which swallow the error. *)

From S2P Require Import Prelude Types.

Inductive ModelResponse :=
  | RespText (text : option string)
  | RespThrows (msg : string).

(** ** [VisualFeedbackService.evaluateRender] (lines 58-92) *)

(** The fields of the parsed JSON; [None] is a field that is absent. *)
Record RawFeedback := MkRawFeedback {
  raw_looksCorrect : option bool;
  raw_critique : option string;
  raw_suggestion : option string
}.

(** What [evaluateRender] returns; [looksCorrect] is [undefined] when
    the model left it out. *)
Record Feedback := MkFeedback {
  looksCorrect : option bool;
  critique : string;
  suggestion : string
}.

Section VisualFeedback.
Variable parse_feedback : string → option RawFeedback.

Definition check_failed : Feedback :=
  MkFeedback (Some true) "Visual check failed to run." "".

Definition evaluateRender (resp : ModelResponse) : Feedback :=
  match resp with
  | RespThrows _ => check_failed
  | RespText t =>
      if negb (str_truthy t) then MkFeedback (Some true) "No response from vision model." ""
      else match parse_feedback (default "" t) with
           | None => check_failed
           | Some p =>
               MkFeedback (raw_looksCorrect p) (js_or_default (raw_critique p) "Verified")
                 (js_or_default (raw_suggestion p) "")
           end
  end.

End VisualFeedback.

(** ** [PlannerService.getPlan] (visualFeedbackService.ts, lines 117-146) *)

Section Planner.
(** [JSON.parse(text).steps]: [None] when parsing or reading [steps]
    throws, [Some None] when [steps] is absent. *)
Variable parse_plan : string → option (option (list string)).

Definition getPlan (userPrompt : string) (resp : ModelResponse) : list string :=
  match resp with
  | RespThrows _ => [userPrompt]
  | RespText t =>
      if negb (str_truthy t) then [userPrompt]
      else match parse_plan (default "" t) with
           | Some (Some steps) => steps
           | _ => [userPrompt]
           end
  end.

End Planner.

(** ** [GeminiCADService.generateScript] and [fixScript] (lines 81-92, 133-144) *)

Section Gemini.
(** [JSON.parse(text)]: the [code] and [explanation] fields, or the
    message of the [SyntaxError] it throws. *)
Variable parse_script_json : string → string + (option string * option string).

(** [{ code, explanation }], or the message of the error rethrown. *)
Definition script_response (resp : ModelResponse) : string + (option string * option string) :=
  match resp with
  | RespThrows msg => inl msg
  | RespText t =>
      if negb (str_truthy t) then inl "No response from AI"
      else parse_script_json (default "" t)
  end.

Definition generateScript (resp : ModelResponse) : string + (option string * option string) :=
  script_response resp.

(** [explanation: "Auto-Fix: " + parsed.explanation]: an absent
    explanation prints as ["undefined"]. *)
Definition fixScript (resp : ModelResponse) : string + (option string * option string) :=
  match script_response resp with
  | inr (c, e) => inr (c, Some ("Auto-Fix: " +:+ default "undefined" e))
  | inl msg => inl msg
  end.

End Gemini.

(** ** Facts *)

(** When the vision call throws, returns no text or returns text that
    is not JSON, [evaluateRender] reports [looksCorrect: true], exactly
    as if the model had approved the render. *)
Lemma evaluateRender_failure parse_feedback resp :
  (∃ msg, resp = RespThrows msg) ∨ resp = RespText None ∨ resp = RespText (Some "") ∨
  (∃ t, resp = RespText (Some t) ∧ t ≠ "" ∧ parse_feedback t = None) →
  looksCorrect (evaluateRender parse_feedback resp) = Some true.
Proof.
  intros [[msg ->]|[->|[->|(t & -> & Ht & Hp)]]]; try done.
  simpl. unfold str_truthy. destruct (String.eqb_spec t ""); [done|]. simpl. by rewrite Hp.
Qed.
