(* ===== verification/App.v ===== *)
(** * [App.tsx]: one chat turn, and the start-up load

    [handleSendMessage] (lines 37-133) is the pipeline the user drives:
    generate a script, run it and show its objects, then, when the
    viewer is mounted and the scene is not empty, ask the vision model
    whether the render looks right, and on a negative answer ask for a
    fix and run the fixed script.  The [useEffect] of lines 136-154 runs
    the start-up script once.

    The React state the turn changes is the record [AppState]; each
    [setX(v)] and [setX(prev => ...)] is applied in program order, which
    gives the state React holds once the turn's updates are flushed.
    [ticks] counts the [Date.now()] calls the turn has made; the
    readings are the parameter [now], and the engine's readings (one per
    [Add]) the parameter [engine_clock], given the value of [ticks] when
    [execute] starts.  The awaits are sequential: the model services are
    given as their responses, and the 500 ms wait and the screenshots
    change no state here ([Viewer.captureViews] puts the camera back).
    [send_start] is what runs before the first [await]; [Shell] lets the
    page's other events happen between it and [send_rest].

    The script text reaches [execute] through [parse_js]: the parser of
    [new Function], giving the parsed script or the message of its
    [SyntaxError].  A run the model does not follow ([ExecHost],
    [ExecUnsupported]) ends the turn as [AppBeyond]; a run that does
    not return ends it as [AppHangs]. *)

From S2P Require Import Prelude Types Color CSG Script Services Scenarios.

(** [role: 'user' | 'model' | 'system']. *)
Inductive Role := User | Model | System.

Record ChatMessage := MkMessage {
  msg_id : string;
  role : Role;
  content : string;
  code : option string;
  timestamp : N
}.

Record AppState := MkApp {
  objects : list CADObject;
  messages : list ChatMessage;
  currentScript : string;
  isAiLoading : bool;
  initialError : option string;
  ticks : nat
}.

Inductive AppResult :=
  | AppDone (st : AppState)
  | AppHangs
  | AppBeyond (what : string).

Definition nl : string := String (Ascii.ascii_of_nat 10) "".

Section App.
Context `{ThreeColor}.
Variable now : nat → N.
Variable engine_clock : nat → nat → N.
Variables (host : list string) (fuel : nat).
Variable parse_js : string → string + list stmt.
Variable parse_script_json : string → string + (option string * option string).
Variable parse_feedback : string → option RawFeedback.
(** [viewerRef.current] is set. *)
Variable viewer_ready : bool.

(** ** State updates *)

Definition date_now (st : AppState) : N * AppState :=
  (now (ticks st),
   MkApp (objects st) (messages st) (currentScript st) (isAiLoading st) (initialError st)
     (S (ticks st))).

Definition set_messages (ms : list ChatMessage) (st : AppState) : AppState :=
  MkApp (objects st) ms (currentScript st) (isAiLoading st) (initialError st) (ticks st).

(** [setMessages(prev => [...prev, m])]. *)
Definition push (m : ChatMessage) (st : AppState) : AppState :=
  set_messages (messages st ++ [m]) st.

(** [setMessages(prev => prev.map(m => m.id === id ? {...m, content} : m))]. *)
Definition set_content (mid c : string) (st : AppState) : AppState :=
  set_messages ((λ m, if String.eqb (msg_id m) mid
                      then MkMessage (msg_id m) (role m) c (code m) (timestamp m) else m)
                  <$> messages st) st.

Definition set_loading (b : bool) (st : AppState) : AppState :=
  MkApp (objects st) (messages st) (currentScript st) b (initialError st) (ticks st).

(** [setObjects(objs); setCurrentScript(code)]. *)
Definition show_script (objs : list CADObject) (c : string) (st : AppState) : AppState :=
  MkApp objs (messages st) c (isAiLoading st) (initialError st) (ticks st).

(** [csgEngine.execute(code)]. *)
Definition run_script (c : string) (st : AppState) : ExecResult :=
  match parse_js c with
  | inl msg => ExecError msg
  | inr ss => execute (engine_clock (ticks st)) host fuel ss
  end.

(** The [catch (error)] block: an error message with
    [id: (Date.now() + 1).toString()], [timestamp: Date.now() + 1]. *)
Definition report_error (msg : string) (st : AppState) : AppState :=
  let '(t, st1) := date_now st in
  let '(t', st2) := date_now st1 in
  push (MkMessage (pretty (t + 1)%N) Model ("Error executing design: " +:+ msg) None (t' + 1)) st2.

(** The [finally] block. *)
Definition finish (st : AppState) : AppResult := AppDone (set_loading false st).

(** ** The auto-fix (lines 82-101) *)

Definition auto_fix (msgId explanation : string) (analysis : Feedback)
    (fix_resp : ModelResponse) (st : AppState) : AppResult :=
  let '(t, st1) := date_now st in
  let fixMsgId := pretty (t + 2)%N in
  let st2 := set_content msgId
               (explanation +:+ nl +:+ nl +:+ "⚠️ Visual Issue Detected: " +:+ critique analysis
                +:+ nl +:+ "Attempting auto-fix...") st1 in
  match fixScript parse_script_json fix_resp with
  | inl msg => finish (report_error msg st2)
  | inr (Some fixed_code, Some fixed_explanation) =>
      match run_script fixed_code st2 with
      | ExecOk objs =>
          let st3 := show_script objs fixed_code st2 in
          let '(t', st4) := date_now st3 in
          finish (push (MkMessage fixMsgId Model ("Auto-Fix Applied: " +:+ fixed_explanation)
                          (Some fixed_code) t') st4)
      | ExecError msg => finish (report_error msg st2)
      | ExecOutOfFuel => AppHangs
      | ExecHost x => AppBeyond x
      | ExecUnsupported w => AppBeyond w
      end
  | inr _ => AppBeyond "a fix without code"
  end.

(** ** The visual check (lines 62-119) *)

Definition verify (userText c explanation : string) (objs : list CADObject)
    (vision_resp fix_resp : ModelResponse) (st : AppState) : AppResult :=
  if viewer_ready && bool_decide (0 < length objs) then
    let '(t, st1) := date_now st in
    let msgId := pretty (t + 1)%N in
    let '(t', st2) := date_now st1 in
    let st3 := push (MkMessage msgId Model (explanation +:+ nl +:+ nl +:+ "(Verifying visuals...)")
                      (Some c) t') st2 in
    let analysis := evaluateRender parse_feedback vision_resp in
    if negb (default false (looksCorrect analysis)) then
      auto_fix msgId explanation analysis fix_resp st3
    else
      finish (set_content msgId (explanation +:+ nl +:+ nl +:+ "✅ Visuals Verified.") st3)
  else
    let '(t, st1) := date_now st in
    let '(t', st2) := date_now st1 in
    finish (push (MkMessage (pretty (t + 1)%N) Model explanation (Some c) (t' + 1)) st2).

(** ** [handleSendMessage] *)

(** What runs before the first [await] (lines 38-46): the user's
    message, with [id: Date.now().toString()] and [timestamp: Date.now()],
    and the loading flag.  React renders this state before the model
    answers, so the chat input is disabled while the turn runs. *)
Definition send_start (userText : string) (st : AppState) : AppState :=
  let '(t, st1) := date_now st in
  let '(t', st2) := date_now st1 in
  set_loading true (push (MkMessage (pretty t) User userText None t') st2).

(** The rest of the turn (lines 48-132), once the model has answered. *)
Definition send_rest (userText : string)
    (gen_resp vision_resp fix_resp : ModelResponse) (st3 : AppState) : AppResult :=
  match generateScript parse_script_json gen_resp with
  | inl msg => finish (report_error msg st3)
  | inr (Some c, Some explanation) =>
      match run_script c st3 with
      | ExecOk objs =>
          verify userText c explanation objs vision_resp fix_resp (show_script objs c st3)
      | ExecError msg => finish (report_error ("Script Execution Failed: " +:+ msg) st3)
      | ExecOutOfFuel => AppHangs
      | ExecHost x => AppBeyond x
      | ExecUnsupported w => AppBeyond w
      end
  | inr _ => AppBeyond "a script response without code or explanation"
  end.

Definition handleSendMessage (userText : string)
    (gen_resp vision_resp fix_resp : ModelResponse) (st : AppState) : AppResult :=
  send_rest userText gen_resp vision_resp fix_resp (send_start userText st).

(** ** The start-up load (lines 136-154) *)

Definition dq : string := String (Ascii.ascii_of_nat 34) "".

(** The text of [initialScript]. *)
Definition initialScript : string :=
  nl +:+ "// Initial Cube" +:+ nl +:+ "const b = Box(1, 1, 1);" +:+ nl +:+
  "Color(b, " +:+ dq +:+ "#3b82f6" +:+ dq +:+ ");" +:+ nl +:+
  "Add(b, " +:+ dq +:+ "Starter Cube" +:+ dq +:+ ");" +:+ nl +:+ "    ".

Definition initial_load (st : AppState) : AppResult :=
  match run_script initialScript st with
  | ExecOk objs => AppDone (show_script objs initialScript st)
  | ExecError msg =>
      AppDone (MkApp (objects st) (messages st) (currentScript st) (isAiLoading st)
                 (Some (js_or_default (Some msg) "Unknown error occurred")) (ticks st))
  | ExecOutOfFuel => AppHangs
  | ExecHost x => AppBeyond x
  | ExecUnsupported w => AppBeyond w
  end.

(** ** Facts *)

Lemma last_set_content_push mid c m st :
  msg_id m = mid →
  content <$> last (messages (set_content mid c (push m st))) = Some c.
Proof.
  intros <-. unfold set_content, push, set_messages. cbn [messages].
  rewrite fmap_app, fmap_cons, fmap_nil, last_snoc. simpl. by rewrite String.eqb_refl.
Qed.

Lemma last_push m st : last (messages (push m st)) = Some m.
Proof. apply last_snoc. Qed.

(** C9 (finding): the visual check fails open.  When the first script
    runs and shows objects but the vision call throws, returns no text
    or returns text that is not JSON, the turn ends exactly as if the
    model had approved the render: no fix is asked for, whatever the
    fix service would answer, the scene is the script's objects, and
    the last message says ["✅ Visuals Verified."]. *)
Theorem visual_check_fails_open userText gen_resp vision_resp fix_resp st c
    explanation ss objs :
  viewer_ready = true →
  generateScript parse_script_json gen_resp = inr (Some c, Some explanation) →
  parse_js c = inr ss →
  execute (engine_clock (S (S (ticks st)))) host fuel ss = ExecOk objs → objs ≠ [] →
  (∃ msg, vision_resp = RespThrows msg) ∨ vision_resp = RespText None ∨
  vision_resp = RespText (Some "") ∨
  (∃ t, vision_resp = RespText (Some t) ∧ t ≠ "" ∧ parse_feedback t = None) →
  ∃ st', handleSendMessage userText gen_resp vision_resp fix_resp st = AppDone st' ∧
    objects st' = objs ∧ currentScript st' = c ∧ isAiLoading st' = false ∧
    content <$> last (messages st') = Some (explanation +:+ nl +:+ nl +:+ "✅ Visuals Verified.").
Proof.
  intros Hviewer Hgen Hparse Hexec Hobjs Hfail.
  unfold handleSendMessage, send_rest, send_start. simpl. rewrite Hgen. unfold run_script at 1. rewrite Hparse.
  simpl. rewrite Hexec. unfold verify. rewrite Hviewer.
  rewrite bool_decide_true by (destruct objs; [done|simpl; lia]). simpl.
  rewrite (evaluateRender_failure parse_feedback vision_resp Hfail). simpl.
  eexists. split; [reflexivity|]. split_and!; [done..|].
  by apply last_set_content_push.
Qed.

(** C19: when the generated script fails (its text does not parse, or
    running it throws), the scene and the current script are left as
    they were and the chat gets ["Error executing design: Script
    Execution Failed: " + message] as its last message. *)
Theorem first_script_error userText gen_resp vision_resp fix_resp st c explanation msg :
  generateScript parse_script_json gen_resp = inr (Some c, Some explanation) →
  parse_js c = inl msg ∨
  (∃ ss, parse_js c = inr ss ∧
         execute (engine_clock (S (S (ticks st)))) host fuel ss = ExecError msg) →
  ∃ st', handleSendMessage userText gen_resp vision_resp fix_resp st = AppDone st' ∧
    objects st' = objects st ∧ currentScript st' = currentScript st ∧
    isAiLoading st' = false ∧
    content <$> last (messages st') =
      Some ("Error executing design: Script Execution Failed: " +:+ msg).
Proof.
  intros Hgen Hrun. unfold handleSendMessage, send_rest, send_start. simpl. rewrite Hgen.
  unfold run_script at 1.
  destruct Hrun as [Hp|(ss & Hp & He)]; rewrite Hp; [|simpl; rewrite He];
    (eexists; split; [reflexivity|]); simpl; split_and!; try done;
    unfold report_error, push, set_messages; simpl; by rewrite last_snoc.
Qed.

(** C20: when the check rejects the render and the fixed script then
    fails, the scene keeps the rejected design of the first script, the
    current script stays the first one, and the chat's last message is
    ["Error executing design: " + message], without the ["Script
    Execution Failed"] the first attempt's errors carry. *)
Theorem auto_fix_failure_keeps_first_scene userText gen_resp vision_resp fix_resp st
    c explanation ss objs c' e' ss' msg :
  viewer_ready = true →
  generateScript parse_script_json gen_resp = inr (Some c, Some explanation) →
  parse_js c = inr ss →
  execute (engine_clock (S (S (ticks st)))) host fuel ss = ExecOk objs → objs ≠ [] →
  default false (looksCorrect (evaluateRender parse_feedback vision_resp)) = false →
  fixScript parse_script_json fix_resp = inr (Some c', Some e') →
  parse_js c' = inr ss' →
  execute (engine_clock (5 + ticks st)) host fuel ss' = ExecError msg →
  ∃ st', handleSendMessage userText gen_resp vision_resp fix_resp st = AppDone st' ∧
    objects st' = objs ∧ currentScript st' = c ∧ isAiLoading st' = false ∧
    content <$> last (messages st') = Some ("Error executing design: " +:+ msg).
Proof.
  intros Hviewer Hgen Hparse Hexec Hobjs Hlooks Hfix Hparse' Hexec'.
  unfold handleSendMessage, send_rest, send_start. simpl. rewrite Hgen. unfold run_script at 1. rewrite Hparse.
  simpl. rewrite Hexec. unfold verify. rewrite Hviewer.
  rewrite bool_decide_true by (destruct objs; [done|simpl; lia]). simpl.
  rewrite Hlooks. simpl. unfold auto_fix. simpl. rewrite Hfix.
  unfold run_script. rewrite Hparse'. simpl. simpl in Hexec'. rewrite Hexec'.
  eexists. split; [reflexivity|]. simpl. split_and!; try done.
  unfold report_error, push, set_messages. simpl. by rewrite last_snoc.
Qed.

(** C18 (finding): whenever the render is not sent for a fix (no
    viewer, no objects, or the vision check approves), the scene after
    the turn is exactly the list of objects the script produced: the
    app puts it in the scene with [setObjects], without [SceneManager]
    and its [getUniqueName], so two objects a script finalizes under
    one name stay under that name (Scenario B expects ["Cube"] and
    ["Cube1"]). *)
Theorem turn_shows_script_objects userText gen_resp vision_resp fix_resp st c
    explanation ss objs :
  generateScript parse_script_json gen_resp = inr (Some c, Some explanation) →
  parse_js c = inr ss →
  execute (engine_clock (S (S (ticks st)))) host fuel ss = ExecOk objs →
  viewer_ready = false ∨ objs = [] ∨
  looksCorrect (evaluateRender parse_feedback vision_resp) = Some true →
  ∃ st', handleSendMessage userText gen_resp vision_resp fix_resp st = AppDone st' ∧
    objects st' = objs ∧ currentScript st' = c ∧ isAiLoading st' = false.
Proof.
  intros Hgen Hparse Hexec Hpass.
  unfold handleSendMessage, send_rest, send_start. simpl. rewrite Hgen.
  unfold run_script at 1. rewrite Hparse. simpl. rewrite Hexec. unfold verify.
  destruct (viewer_ready && bool_decide (0 < length objs)) eqn:Hv.
  - apply andb_prop in Hv as [Hv Hlen]. apply bool_decide_eq_true in Hlen.
    assert (looksCorrect (evaluateRender parse_feedback vision_resp) = Some true) as Hl.
    { destruct Hpass as [Hf|[->|Hl]]; [congruence|simpl in Hlen; lia|done]. }
    simpl. rewrite Hl. simpl. by eexists.
  - simpl. by eexists.
Qed.

Lemma finish_done st st' : finish st = AppDone st' →
  isAiLoading st' = false ∧ messages st' = messages st.
Proof. by intros [= <-]. Qed.

Lemma report_error_length msg st :
  length (messages (report_error msg st)) = S (length (messages st)).
Proof. unfold report_error. simpl. rewrite length_app. simpl. lia. Qed.

Lemma set_content_length mid c st :
  length (messages (set_content mid c st)) = length (messages st).
Proof. unfold set_content. simpl. by rewrite length_fmap. Qed.

(** A turn that completes after the model has answered clears the
    loading flag and adds at least one answer. *)
Lemma send_rest_settles userText gen_resp vision_resp fix_resp st3 st' :
  send_rest userText gen_resp vision_resp fix_resp st3 = AppDone st' →
  isAiLoading st' = false ∧ length (messages st3) + 1 ≤ length (messages st').
Proof.
  unfold send_rest, verify, auto_fix. simpl.
  repeat (case_match; simpl); try discriminate;
    intros [Hl Hm]%finish_done; split; try done; rewrite Hm;
    rewrite ?report_error_length, ?set_content_length; simpl;
    rewrite ?length_app, ?set_content_length; simpl;
    rewrite ?length_app, ?length_fmap, ?length_app; simpl; lia.
Qed.

Lemma send_start_messages userText st :
  length (messages (send_start userText st)) = S (length (messages st)).
Proof. unfold send_start. simpl. rewrite length_app. simpl. lia. Qed.

(** C10: every turn that completes clears the loading flag (the
    [finally] block) and adds the user's message and at least one
    answer to the chat. *)
Theorem handleSendMessage_settles userText gen_resp vision_resp fix_resp st st' :
  handleSendMessage userText gen_resp vision_resp fix_resp st = AppDone st' →
  isAiLoading st' = false ∧ length (messages st) + 2 ≤ length (messages st').
Proof.
  unfold handleSendMessage. intros [Hl Hm]%send_rest_settles.
  rewrite send_start_messages in Hm. split; [done|lia].
Qed.

End App.

(** The state [useState] starts from. *)
Definition app_init : AppState := MkApp [] [] "" false None 0.

(** C27: at start-up the app shows the blue ["Starter Cube"] and keeps
    the start-up script as the current script, for every clock, every
    host page and any fuel from 2 on. *)
Theorem initial_load_starter_cube engine_clock host fuel parse_js st :
  parse_js initialScript = inr initial_script → 2 ≤ fuel →
  ∃ o, initial_load engine_clock host fuel parse_js st =
         AppDone (show_script [o] initialScript st) ∧
       name o = "Starter Cube" ∧ color o = "#3b82f6" ∧ type o = MESH.
Proof.
  intros Hp Hfuel. unfold initial_load, run_script. rewrite Hp.
  rewrite (execute_more_fuel _ _ initial_script 2 fuel); [|vm_compute; done|done].
  vm_compute. eexists. split_and!; reflexivity.
Qed.

Lemma initial_load_starter_cube_witness :
  (λ _ : string, inr initial_script : string + list stmt) initialScript = inr initial_script ∧
  2 ≤ 2 ∧
  ∃ o, initial_load (λ _ _, 0%N) [] 2 (λ _, inr initial_script) app_init =
         AppDone (show_script [o] initialScript app_init) ∧
       name o = "Starter Cube" ∧ color o = "#3b82f6" ∧ type o = MESH.
Proof.
  split; [reflexivity|]. split; [lia|].
  apply initial_load_starter_cube; [reflexivity|lia].
Defined.

(** ** Witnesses *)

(** A script that throws: [Move(1)] reads [position] of a number. *)
Definition failing_script : list stmt := [SExpr (ECall (EVar "Move") [num_lit 1])].

Definition demo_parse_js (c : string) : string + list stmt :=
  if String.eqb c "a" then inr scenario_A else inr failing_script.

(** The response ["fix"] carries the code ["b"]; any other the code ["a"]. *)
Definition demo_parse_json (t : string) : string + (option string * option string) :=
  if String.eqb t "fix" then inr (Some "b", Some "fixed") else inr (Some "a", Some "A cube.").

Definition rejecting_feedback (_ : string) : option RawFeedback :=
  Some (MkRawFeedback (Some false) (Some "too small") None).

Definition scenario_A_objects : list CADObject :=
  match execute (λ _, 0%N) [] 10 scenario_A with ExecOk l => l | _ => [] end.

Definition failing_message : string :=
  "Line ?: Cannot read properties of undefined (reading 'set')".

Lemma visual_check_fails_open_witness :
  true = true ∧
  generateScript demo_parse_json (RespText (Some "{}")) = inr (Some "a", Some "A cube.") ∧
  demo_parse_js "a" = inr scenario_A ∧
  execute ((λ _ _, 0%N) (S (S (ticks app_init)))) [] 10 scenario_A = ExecOk scenario_A_objects ∧
  scenario_A_objects ≠ [] ∧
  ∃ st', handleSendMessage (λ _, 0%N) (λ _ _, 0%N) [] 10 demo_parse_js demo_parse_json
           rejecting_feedback true "a cube" (RespText (Some "{}")) (RespThrows "network")
           (RespText (Some "fix")) app_init = AppDone st' ∧
    objects st' = scenario_A_objects ∧ currentScript st' = "a" ∧ isAiLoading st' = false ∧
    content <$> last (messages st') = Some ("A cube." +:+ nl +:+ nl +:+ "✅ Visuals Verified.").
Proof.
  assert (execute ((λ _ _, 0%N) (S (S (ticks app_init)))) [] 10 scenario_A =
            ExecOk scenario_A_objects) as He by reflexivity.
  assert (scenario_A_objects ≠ []) as Hne by (vm_compute; discriminate).
  split_and!; try done.
  eapply visual_check_fails_open; try done. left. by eexists.
Defined.

Lemma first_script_error_witness :
  generateScript demo_parse_json (RespText (Some "fix")) = inr (Some "b", Some "fixed") ∧
  (demo_parse_js "b" = inl failing_message ∨
   ∃ ss, demo_parse_js "b" = inr ss ∧
         execute ((λ _ _, 0%N) (S (S (ticks app_init)))) [] 10 ss = ExecError failing_message) ∧
  ∃ st', handleSendMessage (λ _, 0%N) (λ _ _, 0%N) [] 10 demo_parse_js demo_parse_json
           rejecting_feedback true "a cube" (RespText (Some "fix")) (RespText None)
           (RespText None) app_init = AppDone st' ∧
    objects st' = objects app_init ∧ currentScript st' = currentScript app_init ∧
    isAiLoading st' = false ∧
    content <$> last (messages st') =
      Some ("Error executing design: Script Execution Failed: " +:+ failing_message).
Proof.
  assert (demo_parse_js "b" = inl failing_message ∨
          ∃ ss, demo_parse_js "b" = inr ss ∧
            execute ((λ _ _, 0%N) (S (S (ticks app_init)))) [] 10 ss = ExecError failing_message)
    as Hr by (right; eexists; split; reflexivity).
  split; [reflexivity|]. split; [exact Hr|].
  by apply (first_script_error (λ _, 0%N) (λ _ _, 0%N) [] 10 demo_parse_js demo_parse_json
    rejecting_feedback true "a cube" (RespText (Some "fix")) (RespText None) (RespText None)
    app_init "b" "fixed").
Defined.

Lemma auto_fix_failure_keeps_first_scene_witness :
  true = true ∧
  generateScript demo_parse_json (RespText (Some "{}")) = inr (Some "a", Some "A cube.") ∧
  demo_parse_js "a" = inr scenario_A ∧
  execute ((λ _ _, 0%N) (S (S (ticks app_init)))) [] 10 scenario_A = ExecOk scenario_A_objects ∧
  scenario_A_objects ≠ [] ∧
  default false (looksCorrect (evaluateRender rejecting_feedback (RespText (Some "{}")))) = false ∧
  fixScript demo_parse_json (RespText (Some "fix")) = inr (Some "b", Some "Auto-Fix: fixed") ∧
  demo_parse_js "b" = inr failing_script ∧
  execute ((λ _ _, 0%N) (5 + ticks app_init)) [] 10 failing_script = ExecError failing_message ∧
  ∃ st', handleSendMessage (λ _, 0%N) (λ _ _, 0%N) [] 10 demo_parse_js demo_parse_json
           rejecting_feedback true "a cube" (RespText (Some "{}")) (RespText (Some "{}"))
           (RespText (Some "fix")) app_init = AppDone st' ∧
    objects st' = scenario_A_objects ∧ currentScript st' = "a" ∧ isAiLoading st' = false ∧
    content <$> last (messages st') = Some ("Error executing design: " +:+ failing_message).
Proof.
  assert (execute ((λ _ _, 0%N) (S (S (ticks app_init)))) [] 10 scenario_A =
            ExecOk scenario_A_objects) as He by reflexivity.
  assert (scenario_A_objects ≠ []) as Hne by (vm_compute; discriminate).
  assert (execute ((λ _ _, 0%N) (5 + ticks app_init)) [] 10 failing_script =
            ExecError failing_message) as He' by reflexivity.
  split_and!; try done.
  by eapply auto_fix_failure_keeps_first_scene.
Defined.

Definition demo_turn : AppResult :=
  handleSendMessage (λ _, 0%N) (λ _ _, 0%N) [] 10 demo_parse_js demo_parse_json
    rejecting_feedback true "a cube" (RespText (Some "{}")) (RespText (Some "{}"))
    (RespText (Some "fix")) app_init.

Definition demo_turn_state : AppState :=
  match demo_turn with AppDone st => st | _ => app_init end.

Lemma handleSendMessage_settles_witness :
  demo_turn = AppDone demo_turn_state ∧
  isAiLoading demo_turn_state = false ∧
  length (messages app_init) + 2 ≤ length (messages demo_turn_state).
Proof.
  assert (demo_turn = AppDone demo_turn_state) as Hd by reflexivity.
  split; [exact Hd|]. exact (handleSendMessage_settles _ _ _ _ _ _ _ _ _ _ _ _ _ _ Hd).
Defined.

(** Scenario B without a viewer: the turn shows the two boxes under the
    one name the script gave them. *)
Definition scenario_B_objects : list CADObject :=
  match execute (λ _, 0%N) [] 10 scenario_B with ExecOk l => l | _ => [] end.

Lemma turn_shows_script_objects_witness :
  generateScript demo_parse_json (RespText (Some "two cubes")) = inr (Some "a", Some "A cube.") ∧
  (λ _ : string, inr scenario_B : string + list stmt) "a" = inr scenario_B ∧
  execute ((λ _ _, 0%N) (S (S (ticks app_init)))) [] 10 scenario_B = ExecOk scenario_B_objects ∧
  name <$> scenario_B_objects = ["Cube"; "Cube"] ∧
  ∃ st', handleSendMessage (λ _, 0%N) (λ _ _, 0%N) [] 10 (λ _, inr scenario_B) demo_parse_json
           rejecting_feedback false "two cubes" (RespText (Some "two cubes")) (RespText None)
           (RespText None) app_init = AppDone st' ∧
    objects st' = scenario_B_objects ∧ currentScript st' = "a" ∧ isAiLoading st' = false.
Proof.
  assert (generateScript demo_parse_json (RespText (Some "two cubes")) =
            inr (Some "a", Some "A cube.")) as Hg by reflexivity.
  assert (execute ((λ _ _, 0%N) (S (S (ticks app_init)))) [] 10 scenario_B =
            ExecOk scenario_B_objects) as He by reflexivity.
  split_and!; [exact Hg|reflexivity|exact He|vm_compute; reflexivity|].
  eapply turn_shows_script_objects; [exact Hg|reflexivity|exact He|by left].
Defined.
