(* ===== verification/SceneList.v ===== *)
(** * The scene list: [SceneCollection] and [Header]

    [src/unnamed/part_000] holds the component [SceneCollection] (the
    list of the scene's objects at the left of the window) and the
    component [Header].  The list keeps three pieces of React state
    ([editingId], [editName], [menuOpenId]) and reports what the user
    asks for through the callbacks of its props ([onSelect], [onRename],
    [onDuplicate], [onDelete], [onFocus]).

    The model is a step function on DOM events: [list_step] takes the
    props ([objects], [selectedId]), the state of the last render and one
    event, runs the handlers the browser runs for it (React's bubbling
    from the target to the row, then the [window] listener of lines
    58-62 unless a handler stopped propagation) and returns the new state
    with the callbacks called, in order.  An event whose target is not
    rendered (a row that does not exist, the name input of a row that is
    not being edited, a menu that is closed) cannot happen: the step is
    [None].  Every handler of one event sees the state of the last
    render, as React's closures do, and the state setters apply after
    it.

    [String.prototype.trim], which [saveEditing] calls, is modelled on
    the UTF-8 bytes of the string: it removes the encodings of every
    code point ECMAScript counts as WhiteSpace or LineTerminator. *)

From S2P Require Import Prelude Types.

(** ** [String.prototype.trim] *)

Definition byte (n : nat) : ascii := ascii_of_nat n.

(** The UTF-8 encodings of the code points of WhiteSpace and
    LineTerminator: TAB, LF, VT, FF, CR, SPACE, U+00A0, U+1680,
    U+2000-U+200A, U+2028, U+2029, U+202F, U+205F, U+3000 and U+FEFF. *)
Definition js_whitespace : list (list ascii) :=
  [[byte 0x09]; [byte 0x0A]; [byte 0x0B]; [byte 0x0C]; [byte 0x0D]; [byte 0x20];
   [byte 0xC2; byte 0xA0]; [byte 0xE1; byte 0x9A; byte 0x80]] ++
  ((λ k, [byte 0xE2; byte 0x80; byte (0x80 + k)]) <$> seq 0 11) ++
  [[byte 0xE2; byte 0x80; byte 0xA8]; [byte 0xE2; byte 0x80; byte 0xA9];
   [byte 0xE2; byte 0x80; byte 0xAF]; [byte 0xE2; byte 0x81; byte 0x9F];
   [byte 0xE3; byte 0x80; byte 0x80]; [byte 0xEF; byte 0xBB; byte 0xBF]].

Fixpoint starts_with (p l : list ascii) : bool :=
  match p, l with
  | [], _ => true
  | a :: p', b :: l' => bool_decide (a = b) && starts_with p' l'
  | _ :: _, [] => false
  end.

(** Remove the first pattern of [ps] that [l] starts with. *)
Fixpoint strip_one (ps : list (list ascii)) (l : list ascii) : option (list ascii) :=
  match ps with
  | [] => None
  | p :: ps' => if starts_with p l then Some (drop (length p) l) else strip_one ps' l
  end.

(** Remove leading patterns; each removal shortens the list, so
    [length l] rounds are enough ([trim_start_spec]). *)
Fixpoint trim_start_go (n : nat) (ps : list (list ascii)) (l : list ascii) : list ascii :=
  match n with
  | 0 => l
  | S n' => match strip_one ps l with Some l' => trim_start_go n' ps l' | None => l end
  end.

Definition trim_start (ps : list (list ascii)) (l : list ascii) : list ascii :=
  trim_start_go (length l) ps l.

Definition trim_bytes (l : list ascii) : list ascii :=
  reverse (trim_start (reverse <$> js_whitespace) (reverse (trim_start js_whitespace l))).

(** [s.trim()]. *)
Definition js_trim (s : string) : string :=
  String.string_of_list_ascii (trim_bytes (String.list_ascii_of_string s)).

(** ** The component's state, events and callbacks *)

(** [useState] of lines 53-55. *)
Record ListState := MkList {
  editingId : option string;
  editName : string;
  menuOpenId : option string
}.

Definition list_init : ListState := MkList None "" None.

(** The props' callbacks, as the calls the component makes. *)
Inductive Callback :=
  | CSelect (oid : string)
  | CRename (oid newName : string)
  | CDuplicate (oid : string)
  | CDelete (oid : string)
  | CFocus (oid : string).

Inductive MenuItem := Locate | Rename | Duplicate | Delete.

(** The DOM events that reach the list.  A row is named by its position
    in [objects]; [MenuClick i None] is a click on the menu's padding
    or separator. *)
Inductive ListEvent :=
  | RowClick (i : nat)
  | NameDoubleClick (i : nat)
  | OptionsClick (i : nat)
  | MenuClick (i : nat) (item : option MenuItem)
  | InputChange (i : nat) (value : string)
  | InputBlur (i : nat)
  | InputKeyDown (i : nat) (key : string)
  | InputClick (i : nat)
  | WindowClick.

Definition set_editingId (v : option string) (st : ListState) : ListState :=
  MkList v (editName st) (menuOpenId st).
Definition set_editName (v : string) (st : ListState) : ListState :=
  MkList (editingId st) v (menuOpenId st).
Definition set_menuOpenId (v : option string) (st : ListState) : ListState :=
  MkList (editingId st) (editName st) v.

(** [startEditing(obj)] (lines 64-68). *)
Definition startEditing (o : CADObject) (st : ListState) : ListState :=
  st |> set_editingId (Some (id o)) |> set_editName (name o) |> set_menuOpenId None.

(** [saveEditing()] (lines 70-75): [editingId && editName.trim()] is
    truthy when both strings are non-empty. *)
Definition saveEditing (st : ListState) : ListState * list Callback :=
  let cbs := match editingId st with
             | Some eid =>
                 if str_truthy (Some eid) && str_truthy (Some (js_trim (editName st)))
                 then [CRename eid (js_trim (editName st))] else []
             | None => []
             end in
  (set_editingId None st, cbs).

(** ** The handlers *)

Section ListProps.
(** The props [objects] and [selectedId]. *)
Variable objects : list CADObject.
Variable selectedId : option string.

Definition is_editing (st : ListState) (o : CADObject) : bool :=
  bool_decide (editingId st = Some (id o)).

Definition menu_open (st : ListState) (o : CADObject) : bool :=
  bool_decide (menuOpenId st = Some (id o)).

(** [handleClickOutside], the [window] listener (lines 58-62). *)
Definition handleClickOutside (st : ListState) : ListState := set_menuOpenId None st.

(** The four buttons of the context menu (lines 152-180). *)
Definition menu_item (o : CADObject) (item : option MenuItem) (st : ListState)
    : ListState * list Callback :=
  match item with
  | Some Locate => (set_menuOpenId None st, [CFocus (id o)])
  | Some Rename => (startEditing o st, [])
  | Some Duplicate => (set_menuOpenId None st, [CDuplicate (id o)])
  | Some Delete => (set_menuOpenId None st, [CDelete (id o)])
  | None => (st, [])
  end.

(** The input's [onKeyDown] (lines 115-118): both tests read the
    event's key. *)
Definition input_keydown (key : string) (st : ListState) : ListState * list Callback :=
  let '(st1, cbs) := if bool_decide (key = "Enter") then saveEditing st else (st, []) in
  (if bool_decide (key = "Escape") then set_editingId None st1 else st1, cbs).

(** One DOM event.  A click on a row runs its [onClick] and then the
    [window] listener; the options button, the menu and the input stop
    propagation, so neither the row's [onSelect] nor the [window]
    listener runs for them. *)
Definition list_step (st : ListState) (ev : ListEvent) : option (ListState * list Callback) :=
  match ev with
  | RowClick i => o ← objects !! i; Some (handleClickOutside st, [CSelect (id o)])
  | NameDoubleClick i =>
      o ← objects !! i; if is_editing st o then None else Some (startEditing o st, [])
  | OptionsClick i =>
      o ← objects !! i;
      Some (set_menuOpenId (if menu_open st o then None else Some (id o)) st, [])
  | MenuClick i item =>
      o ← objects !! i; if menu_open st o then Some (menu_item o item st) else None
  | InputChange i v =>
      o ← objects !! i; if is_editing st o then Some (set_editName v st, []) else None
  | InputBlur i => o ← objects !! i; if is_editing st o then Some (saveEditing st) else None
  | InputKeyDown i key =>
      o ← objects !! i; if is_editing st o then Some (input_keydown key st) else None
  | InputClick i => o ← objects !! i; if is_editing st o then Some (st, []) else None
  | WindowClick => Some (handleClickOutside st, [])
  end.

Fixpoint list_run (st : ListState) (evs : list ListEvent) : option (ListState * list Callback) :=
  match evs with
  | [] => Some (st, [])
  | ev :: evs' =>
      '(st1, c1) ← list_step st ev;
      '(st2, c2) ← list_run st1 evs';
      Some (st2, c1 ++ c2)
  end.

(** ** What the list shows (lines 88-184) *)

(** [getIconForType] (lines 15-42). *)
Inductive Icon := IconBox | IconSphere | IconCylinder | IconGeneric.

Definition getIconForType (t : ShapeType) : Icon :=
  match t with
  | BOX => IconBox
  | SPHERE => IconSphere
  | CYLINDER => IconCylinder
  | _ => IconGeneric
  end.

Inductive RowLabel := NameInput (value : string) | NameText (text : string).

Record RowView := MkRow {
  row_key : string;
  row_icon : Icon;
  row_selected : bool;
  row_label : RowLabel;
  row_menu : bool
}.

Definition row_view (st : ListState) (o : CADObject) : RowView :=
  MkRow (id o) (getIconForType (type o)) (bool_decide (selectedId = Some (id o)))
    (if is_editing st o then NameInput (editName st) else NameText (name o))
    (menu_open st o).

Record ListView := MkListView { empty_scene : bool; rows : list RowView }.

Definition list_view (st : ListState) : ListView :=
  MkListView (bool_decide (length objects = 0)) (row_view st <$> objects).

End ListProps.

(** The object counter of [Header] (lines 215-217). *)
Definition header_count (objectCount : nat) : string :=
  pretty (N.of_nat objectCount) +:+ " Object" +:+
  (if bool_decide (objectCount ≠ 1) then "s" else "") +:+ " in Scene".

(** A double click on a row's name: the browser sends two clicks, then
    the [dblclick]. *)
Definition double_click (i : nat) : list ListEvent :=
  [RowClick i; RowClick i; NameDoubleClick i].

(** ** [trim] *)

Lemma starts_with_spec (p l : list ascii) : starts_with p l = true ↔ p `prefix_of` l.
Proof.
  revert l. induction p as [|a p IH]; intros [|b l]; simpl.
  - split; [intros _; apply prefix_nil|done].
  - split; [intros _; apply prefix_nil|done].
  - split; [done|]. intros H. by apply prefix_nil_not in H.
  - rewrite andb_true_iff, bool_decide_eq_true, IH. split.
    + intros [-> H]. by apply prefix_cons.
    + intros H. split; [by apply prefix_cons_inv_1 in H|by apply prefix_cons_inv_2 in H].
Qed.

Lemma starts_with_app (p k : list ascii) : starts_with p (p ++ k) = true.
Proof. apply starts_with_spec. by eexists. Qed.

Lemma strip_one_Some (ps : list (list ascii)) (l l' : list ascii) :
  strip_one ps l = Some l' → ∃ p, p ∈ ps ∧ l = p ++ l'.
Proof.
  induction ps as [|p ps IH]; simpl; [done|]. destruct (starts_with p l) eqn:E.
  - intros [= <-]. apply starts_with_spec in E as [k ->].
    exists p. rewrite drop_app_length. split; [left|done].
  - intros H. destruct (IH H) as (q & ? & ?). exists q. split; [by right|done].
Qed.

(** A list that starts with no pattern has no prefix that does. *)
Lemma strip_one_None_app (ps : list (list ascii)) (a b : list ascii) :
  strip_one ps (a ++ b) = None → strip_one ps a = None.
Proof.
  induction ps as [|p ps IH]; simpl; [done|].
  destruct (starts_with p (a ++ b)) eqn:E2; [done|].
  destruct (starts_with p a) eqn:E1; [|done].
  apply starts_with_spec in E1 as [k ->]. rewrite <- app_assoc, starts_with_app in E2. done.
Qed.

Section Trim.
Variable ps : list (list ascii).
Hypothesis ps_nonempty : Forall (λ p, p ≠ []) ps.

Lemma strip_one_nil : strip_one ps [] = None.
Proof.
  induction ps_nonempty as [|p ps' Hp Hps' IH]; simpl; [done|].
  destruct p; [by destruct Hp|exact (IH Hps')].
Qed.

Lemma strip_one_shorter (l l' : list ascii) :
  strip_one ps l = Some l' → length l' < length l.
Proof.
  intros (p & Hin & ->)%strip_one_Some. rewrite Forall_forall in ps_nonempty.
  apply ps_nonempty in Hin. rewrite length_app. destruct p; [done|simpl; lia].
Qed.

(** Enough rounds leave no leading pattern. *)
Lemma trim_start_go_spec (n : nat) (l : list ascii) :
  length l ≤ n → strip_one ps (trim_start_go n ps l) = None.
Proof.
  revert l. induction n as [|n IH]; intros l Hl; simpl.
  - destruct l; [apply strip_one_nil|simpl in Hl; lia].
  - destruct (strip_one ps l) eqn:E; [|done].
    apply IH. apply strip_one_shorter in E. lia.
Qed.

(** What is left is a suffix of the input. *)
Lemma trim_start_go_suffix (n : nat) (l : list ascii) :
  ∃ pre, l = pre ++ trim_start_go n ps l.
Proof.
  revert l. induction n as [|n IH]; intros l; simpl; [by exists []|].
  destruct (strip_one ps l) eqn:E; [|by exists []].
  apply strip_one_Some in E as (p & _ & ->). destruct (IH l0) as [pre Hpre].
  exists (p ++ pre). by rewrite <- app_assoc, <- Hpre.
Qed.

End Trim.

Lemma js_whitespace_nonempty : Forall (λ p, p ≠ []) js_whitespace.
Proof. decide_true. Qed.

Lemma js_whitespace_rev_nonempty : Forall (λ p, p ≠ []) (reverse <$> js_whitespace).
Proof. decide_true. Qed.

(** A byte string is trimmed when no whitespace code point starts or
    ends it. *)
Definition trimmed (l : list ascii) : Prop :=
  strip_one js_whitespace l = None ∧
  strip_one (reverse <$> js_whitespace) (reverse l) = None.

Lemma trim_bytes_trimmed (l : list ascii) : trimmed (trim_bytes l).
Proof.
  unfold trimmed, trim_bytes, trim_start.
  set (x := trim_start_go (length l) js_whitespace l).
  assert (strip_one js_whitespace x = None) as Hx.
  { apply trim_start_go_spec; [apply js_whitespace_nonempty|lia]. }
  set (y := trim_start_go _ (reverse <$> js_whitespace) (reverse x)).
  destruct (trim_start_go_suffix (reverse <$> js_whitespace) (length (reverse x)) (reverse x))
    as [pre Hpre].
  fold y in Hpre. split.
  - apply (strip_one_None_app _ _ (reverse pre)).
    by rewrite <- reverse_app, <- Hpre, reverse_involutive.
  - rewrite reverse_involutive. apply trim_start_go_spec; [apply js_whitespace_rev_nonempty|lia].
Qed.

Lemma js_trim_trimmed (s : string) : trimmed (String.list_ascii_of_string (js_trim s)).
Proof. unfold js_trim. rewrite String.list_ascii_of_string_of_list_ascii. apply trim_bytes_trimmed. Qed.

Lemma str_truthy_Some (s : string) : str_truthy (Some s) = bool_decide (s ≠ "").
Proof.
  simpl. destruct (String.eqb_spec s ""); simpl; symmetry;
    [apply bool_decide_eq_false|apply bool_decide_eq_true]; tauto.
Qed.

(** ** What the list reports *)

#[local] Arguments str_truthy : simpl never.

(** A rename names a non-empty id and a non-empty, trimmed name. *)
Definition rename_ok (cb : Callback) : Prop :=
  match cb with
  | CRename eid n => eid ≠ "" ∧ n ≠ "" ∧ trimmed (String.list_ascii_of_string n)
  | _ => True
  end.

Lemma saveEditing_renames_ok (st : ListState) : Forall rename_ok (saveEditing st).2.
Proof.
  unfold saveEditing. simpl. destruct (editingId st) as [eid|]; [|done].
  rewrite !str_truthy_Some.
  destruct (bool_decide _ && bool_decide _) eqn:E; [|done].
  apply andb_true_iff in E as [E1 E2]. apply bool_decide_eq_true in E1, E2.
  apply Forall_singleton. split_and!; auto using js_trim_trimmed.
Qed.

Lemma menu_item_renames_ok (o : CADObject) (item : option MenuItem) (st : ListState) :
  Forall rename_ok (menu_item o item st).2.
Proof. destruct item as [[]|]; simpl; repeat constructor. Qed.

Lemma input_keydown_renames_ok (key : string) (st : ListState) :
  Forall rename_ok (input_keydown key st).2.
Proof.
  unfold input_keydown. case_bool_decide.
  - destruct (saveEditing st) as [st1 cbs] eqn:E. simpl.
    pose proof (saveEditing_renames_ok st) as H'. rewrite E in H'. done.
  - simpl. constructor.
Qed.

Lemma list_step_renames_ok (objects : list CADObject) (st st' : ListState)
    (ev : ListEvent) (cbs : list Callback) :
  list_step objects st ev = Some (st', cbs) → Forall rename_ok cbs.
Proof.
  intros H. destruct ev; simpl in H;
    try (destruct (objects !! _) as [o|]; simpl in H; [|done]);
    repeat case_match; simplify_eq; try by repeat constructor.
  - pose proof (menu_item_renames_ok o item st) as H'. by rewrite H in H'.
  - pose proof (saveEditing_renames_ok st) as H'. by rewrite H in H'.
  - pose proof (input_keydown_renames_ok key st) as H'. by rewrite H in H'.
Qed.

(** C35: whatever the user does in the scene list, every rename the list
    reports through [onRename] names a non-empty object id and a
    non-empty new name with no whitespace at either end: a blank name
    is never sent, and the name sent is [editName.trim()]. *)
Theorem list_run_renames_ok (objects : list CADObject) (st st' : ListState)
    (evs : list ListEvent) (cbs : list Callback) :
  list_run objects st evs = Some (st', cbs) → Forall rename_ok cbs.
Proof.
  revert st cbs. induction evs as [|ev evs IH]; simpl; intros st cbs H; [by simplify_eq|].
  destruct (list_step objects st ev) as [[st1 c1]|] eqn:E; simpl in H; [|done].
  destruct (list_run objects st1 evs) as [[st2 c2]|] eqn:E2; simpl in H; [|done].
  simplify_eq. apply Forall_app. split; [by eapply list_step_renames_ok|by eapply IH].
Qed.

(** Renaming by double click: two [onSelect] calls, then, on Enter, one
    [onRename] with the trimmed name when it and the id are not empty;
    on Escape, nothing.  Either way the edit ends. *)
Lemma rename_gesture (objects : list CADObject) (i : nat) (o : CADObject)
    (st : ListState) (s : string) :
  objects !! i = Some o → editingId st ≠ Some (id o) →
  list_run objects st (double_click i ++ [InputChange i s; InputKeyDown i "Enter"]) =
    Some (MkList None s None,
          [CSelect (id o); CSelect (id o)] ++
          (if bool_decide (id o ≠ "") && bool_decide (js_trim s ≠ "")
           then [CRename (id o) (js_trim s)] else [])) ∧
  list_run objects st (double_click i ++ [InputChange i s; InputKeyDown i "Escape"]) =
    Some (MkList None s None, [CSelect (id o); CSelect (id o)]).
Proof.
  intros Ho Hed. unfold double_click. simpl. rewrite Ho. simpl.
  unfold is_editing. simpl. rewrite (bool_decide_false _ Hed). simpl.
  rewrite !(bool_decide_true (Some (id o) = Some (id o))) by done. simpl.
  unfold input_keydown, saveEditing. simpl. rewrite !str_truthy_Some.
  rewrite !(bool_decide_true (Some (id o) = Some (id o))) by done. simpl.
  split; [by destruct (bool_decide _ && bool_decide _)|done].
Qed.

(** ** Witnesses *)

Definition demo_cube : CADObject :=
  MkCADObject "obj_0_0" "Cube" BOX (Num (S754_zero false), Num (S754_zero false), Num (S754_zero false))
    (Num (S754_zero false), Num (S754_zero false), Num (S754_zero false))
    (Num (S754_zero false), Num (S754_zero false), Num (S754_zero false)) "#cccccc"
    None None None None.

Lemma list_run_renames_ok_witness :
  list_run [demo_cube] list_init
    (double_click 0 ++ [InputChange 0 "  Big Cube "; InputKeyDown 0 "Enter"]) =
    Some (MkList None "  Big Cube " None,
          [CSelect "obj_0_0"; CSelect "obj_0_0"; CRename "obj_0_0" "Big Cube"]) ∧
  Forall rename_ok [CSelect "obj_0_0"; CSelect "obj_0_0"; CRename "obj_0_0" "Big Cube"].
Proof.
  assert (list_run [demo_cube] list_init
            (double_click 0 ++ [InputChange 0 "  Big Cube "; InputKeyDown 0 "Enter"]) =
          Some (MkList None "  Big Cube " None,
                [CSelect "obj_0_0"; CSelect "obj_0_0"; CRename "obj_0_0" "Big Cube"])) as H
    by reflexivity.
  split; [exact H|]. exact (list_run_renames_ok _ _ _ _ _ H).
Defined.
