(* ===== verification/Viewer.v ===== *)
(** * The 3D viewport: [Viewer3D.tsx]

    [Viewer3D] draws the scene's objects in a react-three-fiber canvas
    and hands [App] a handle ([Viewer3DHandle]) with [captureViews],
    which the visual check calls to photograph the model from eight
    directions, and [focusObject], which the scene list's "Locate" calls.

    The state the handle works on is the camera (position, rotation,
    up vector) and the orbit controls' target; [ViewerScene] holds both,
    the controls being absent until [OrbitControls] has mounted
    ([controlsRef.current] is null).  What three.js computes is a
    parameter of [Section Viewer3D]: [look_rotation] is the rotation
    [Object3D.lookAt] gives a camera from its position, its up vector and
    the target; [orbit_update] is [OrbitControls.update()], which moves
    the camera about the target; [gl_render] is [gl.render(scene,
    camera)] followed by [toDataURL('image/png')] on the scene being
    shown, which does not change during the synchronous [captureViews];
    [js_sin] and [js_cos] are [Math.sin] and [Math.cos], which
    ECMAScript leaves implementation-approximated.  The arithmetic of the
    code itself is binary64 ([SFmul], [SFdiv]). *)

From S2P Require Import Prelude Types CSG.

(** ** JavaScript arithmetic *)

Definition num_mul (a b : num) : num :=
  Num (SFmul js_prec js_emax (to_float a) (to_float b)).

Definition num_div (a b : num) : num :=
  Num (SFdiv js_prec js_emax (to_float a) (to_float b)).

Definition num_of_nat (n : nat) : num := js_lit (Z.of_nat n) 0.

(** [Math.PI]: the binary64 number nearest to pi. *)
Definition Math_PI : num := js_lit 884279719003555 (-48).

(** ** The camera and the controls *)

Record Camera := MkCamera {
  cam_position : Vector3;
  cam_rotation : Vector3;
  cam_up : Vector3
}.

Record Controls := MkControls { target : Vector3 }.

Record ViewerScene := MkViewer {
  camera : Camera;
  controls : option Controls
}.

(** [{ view, base64 }]. *)
Record View := MkView { view : string; base64 : string }.

Definition origin : Vector3 := (zero, zero, zero).

Section Viewer3D.
Variable look_rotation : Vector3 → Vector3 → Vector3 → Vector3.
Variable orbit_update : Vector3 → Camera → Camera.
Variable gl_render : Camera → string.
Variables js_sin js_cos : num → num.

(** [camera.lookAt(target)]: only the rotation changes. *)
Definition lookAt (t : Vector3) (c : Camera) : Camera :=
  MkCamera (cam_position c) (look_rotation (cam_position c) (cam_up c) t) (cam_up c).

(** [controlsRef.current.target.copy(t); controlsRef.current.update()]. *)
Definition aim_controls (t : Vector3) (vs : ViewerScene) : ViewerScene :=
  match controls vs with
  | Some _ => MkViewer (orbit_update t (camera vs)) (Some (MkControls t))
  | None => vs
  end.

(** [(i * 45) * (Math.PI / 180)]. *)
Definition orbit_angle (i : nat) : num :=
  num_mul (num_of_nat (i * 45)) (num_div Math_PI (js_lit 180 0)).

(** One turn of the loop of [captureViews] (lines 138-150): the camera at
    distance 8, height 4, at the [i]-th angle, looking at the origin. *)
Definition orbit_pose (i : nat) (vs : ViewerScene) : ViewerScene :=
  let angle := orbit_angle i in
  let x := num_mul (js_lit 8 0) (js_sin angle) in
  let z := num_mul (js_lit 8 0) (js_cos angle) in
  let cam := MkCamera (x, js_lit 4 0, z) (cam_rotation (camera vs)) (zero, one, zero) in
  aim_controls origin (MkViewer (lookAt origin cam) (controls vs)).

(** [`Orbit_Angle_${i * 45}`]. *)
Definition capture_label (i : nat) : string :=
  "Orbit_Angle_" +:+ pretty (N.of_nat (i * 45)).

(** The loop: pose, render, push. *)
Fixpoint capture_loop (idx : list nat) (vs : ViewerScene) : list View * ViewerScene :=
  match idx with
  | [] => ([], vs)
  | i :: idx' =>
      let vs1 := orbit_pose i vs in
      let '(views, vs2) := capture_loop idx' vs1 in
      (MkView (capture_label i) (gl_render (camera vs1)) :: views, vs2)
  end.

(** Lines 160-167: the camera's saved position, rotation and up vector
    come back, and the controls get their saved target. *)
Definition restore (orig vs : ViewerScene) : ViewerScene :=
  let controlsTarget := match controls orig with Some c => target c | None => origin end in
  aim_controls controlsTarget
    (MkViewer (MkCamera (cam_position (camera orig)) (cam_rotation (camera orig))
                 (cam_up (camera orig))) (controls vs)).

(** [captureViews] (lines 122-170). *)
Definition captureViews (vs : ViewerScene) : list View * ViewerScene :=
  let '(views, vs') := capture_loop (seq 0 8) vs in
  (views, restore vs vs').

(** [focusObject(id, position)] (lines 171-179). *)
Definition focusObject (oid : string) (pos : Vector3) (vs : ViewerScene) : ViewerScene :=
  match controls vs with
  | Some _ =>
      let '(x, y, z) := pos in
      let three := js_lit 3 0 in
      let cam := MkCamera (num_add x three, num_add y three, num_add z three)
                   (cam_rotation (camera vs)) (cam_up (camera vs)) in
      aim_controls pos (MkViewer (lookAt pos cam) (controls vs))
  | None => vs
  end.

(** [captureScreenshot] (lines 118-121). *)
Definition captureScreenshot (vs : ViewerScene) : string := gl_render (camera vs).

End Viewer3D.

(** ** Drawing the objects: [RenderObject] (lines 45-94) *)

(** The geometry a mesh gets: the object's [geometryData] for a [MESH]
    that has one, otherwise a geometry built for its type. *)
Inductive DrawnGeometry := FromData (d : GeometryData) | Built (g : Geometry).

Record Drawn := MkDrawn {
  d_key : string;
  d_geometry : DrawnGeometry;
  d_position : Vector3;
  d_rotation : Vector3;
  d_scale : Vector3;
  d_color : string;
  d_outline : bool
}.

(** The [useMemo] of lines 52-63. *)
Definition geometry_for (o : CADObject) : DrawnGeometry :=
  match type o, geometryData o with
  | MESH, Some d => FromData d
  | SPHERE, _ => Built (SphereGeometry half 32 32)
  | _, _ => Built (BoxGeometry one one one)
  end.

(** [obj.visible === false] hides the object; a selected one is drawn
    in ["#3b82f6"] with the wireframe box around it. *)
Definition RenderObject (o : CADObject) (isSelected : bool) : option Drawn :=
  if bool_decide (visible o = Some false) then None
  else Some (MkDrawn (id o) (geometry_for o) (position o) (rotation o) (scale o)
               (if isSelected then "#3b82f6" else color o) isSelected).

(** [objects.map(obj => <RenderObject ... isSelected={selectedId === obj.id} />)]
    (lines 191-198). *)
Definition draw_objects (objects : list CADObject) (selectedId : option string) : list Drawn :=
  omap (λ o, RenderObject o (bool_decide (selectedId = Some (id o)))) objects.

(** What [SceneContent] shows (lines 184-208): the objects, and the
    grid when [showGrid] is set. *)
Record SceneView := MkSceneView { drawn : list Drawn; grid_shown : bool }.

Definition scene_content (objects : list CADObject) (selectedId : option string) (showGrid : bool)
    : SceneView :=
  MkSceneView (draw_objects objects selectedId) showGrid.

(** ** The toolbar (lines 96-111 and 211-234) *)

Inductive InteractionMode := RotateMode | PanMode.
Inductive MouseAction := MOUSE_ROTATE | MOUSE_DOLLY | MOUSE_PAN.

(** [mouseButtons] of [ControlsHandler]: left, middle, right. *)
Definition mouseButtons (m : InteractionMode) : MouseAction * MouseAction * MouseAction :=
  (match m with PanMode => MOUSE_PAN | RotateMode => MOUSE_ROTATE end, MOUSE_DOLLY, MOUSE_PAN).

(** The state of [Viewer3D]: its two [useState]s and [sceneRef.current],
    the mounted [SceneContent] if any. *)
Record Viewer3DState := MkViewer3D {
  interactionMode : InteractionMode;
  showGrid : bool;
  sceneRef : option ViewerScene
}.

Definition toggle_mode (v : Viewer3DState) : Viewer3DState :=
  MkViewer3D (match interactionMode v with RotateMode => PanMode | PanMode => RotateMode end)
    (showGrid v) (sceneRef v).

Definition toggle_grid (v : Viewer3DState) : Viewer3DState :=
  MkViewer3D (interactionMode v) (negb (showGrid v)) (sceneRef v).

(** [captureViews] of the handle [Viewer3D] gives [App] (line 218):
    [sceneRef.current?.captureViews()], [undefined] before [SceneContent]
    has mounted. *)
Definition handle_captureViews look_rotation orbit_update gl_render js_sin js_cos
    (v : Viewer3DState) : option (list View) * Viewer3DState :=
  match sceneRef v with
  | Some vs =>
      let '(views, vs') := captureViews look_rotation orbit_update gl_render js_sin js_cos vs in
      (Some views, MkViewer3D (interactionMode v) (showGrid v) (Some vs'))
  | None => (None, v)
  end.

(** ** Facts *)

Section Facts.
Variable look_rotation : Vector3 → Vector3 → Vector3 → Vector3.
Variable orbit_update : Vector3 → Camera → Camera.
Variable gl_render : Camera → string.
Variables js_sin js_cos : num → num.

Local Abbreviation pose := (orbit_pose look_rotation orbit_update js_sin js_cos).
Local Abbreviation loop := (capture_loop look_rotation orbit_update gl_render js_sin js_cos).

(** A pose does not depend on the pose before it: [lookAt] overwrites
    the rotation, and the rest is set. *)
Lemma orbit_pose_again (i j : nat) (vs : ViewerScene) : pose i (pose j vs) = pose i vs.
Proof. unfold orbit_pose, aim_controls. by destruct (controls vs). Qed.

Lemma orbit_pose_controls (i : nat) (vs : ViewerScene) :
  is_Some (controls (pose i vs)) ↔ is_Some (controls vs).
Proof. unfold orbit_pose, aim_controls. destruct (controls vs); simpl; split; eauto. Qed.

Lemma capture_loop_views (idx : list nat) (vs : ViewerScene) :
  (loop idx vs).1 = (λ i, MkView (capture_label i) (gl_render (camera (pose i vs)))) <$> idx.
Proof.
  revert vs. induction idx as [|i idx IH]; intros vs; [done|]. simpl.
  destruct (loop idx (pose i vs)) as [views vs2] eqn:E. simpl. f_equal.
  specialize (IH (pose i vs)). rewrite E in IH. simpl in IH. rewrite IH.
  apply list_fmap_ext. intros _ k _. by rewrite orbit_pose_again.
Qed.

Lemma capture_loop_controls (idx : list nat) (vs : ViewerScene) :
  is_Some (controls (loop idx vs).2) ↔ is_Some (controls vs).
Proof.
  revert vs. induction idx as [|i idx IH]; intros vs; [done|]. simpl.
  destruct (loop idx (pose i vs)) as [views vs2] eqn:E. simpl.
  rewrite <- (orbit_pose_controls i vs), <- (IH (pose i vs)), E. done.
Qed.

(** [restore] reads of the state it ends only whether the controls exist. *)
Lemma restore_final (orig vs : ViewerScene) :
  is_Some (controls vs) ↔ is_Some (controls orig) →
  restore orbit_update orig vs =
    match controls orig with
    | None => orig
    | Some c => MkViewer (orbit_update (target c) (camera orig)) (Some c)
    end.
Proof.
  destruct orig as [[p r u] [[t]|]], vs as [cam [c|]]; unfold restore, aim_controls; simpl;
    intros [H1 H2]; try done;
    first [by destruct (H1 ltac:(eauto)) as [? [=]] | by destruct (H2 ltac:(eauto)) as [? [=]]].
Qed.

(** C36: [captureViews] photographs the scene eight times, labelled
    ["Orbit_Angle_0"] to ["Orbit_Angle_315"] in steps of 45, each image
    the render from the camera at that orbit pose, and it leaves the
    camera and the controls as they were: exactly so when the orbit
    controls have not mounted, and otherwise with the saved target and
    the one [update()] the controls apply to the saved camera. *)
Theorem captureViews_restores (vs : ViewerScene) :
  let '(views, vs') := captureViews look_rotation orbit_update gl_render js_sin js_cos vs in
  view <$> views = ["Orbit_Angle_0"; "Orbit_Angle_45"; "Orbit_Angle_90"; "Orbit_Angle_135";
                    "Orbit_Angle_180"; "Orbit_Angle_225"; "Orbit_Angle_270"; "Orbit_Angle_315"] ∧
  base64 <$> views = (λ i, gl_render (camera (pose i vs))) <$> seq 0 8 ∧
  vs' = match controls vs with
        | None => vs
        | Some c => MkViewer (orbit_update (target c) (camera vs)) (Some c)
        end.
Proof.
  unfold captureViews.
  pose proof (capture_loop_views (seq 0 8) vs) as Hv.
  pose proof (capture_loop_controls (seq 0 8) vs) as Hc.
  destruct (loop (seq 0 8) vs) as [views vs'] eqn:E. simpl in Hv, Hc. subst views.
  split_and!.
  - reflexivity.
  - reflexivity.
  - by apply restore_final.
Qed.

(** The images do not depend on where the camera was. *)
Lemma captureViews_images_indep (c1 c2 : Camera) (k : option Controls) :
  (captureViews look_rotation orbit_update gl_render js_sin js_cos (MkViewer c1 k)).1 =
  (captureViews look_rotation orbit_update gl_render js_sin js_cos (MkViewer c2 k)).1.
Proof.
  unfold captureViews.
  pose proof (capture_loop_views (seq 0 8) (MkViewer c1 k)) as H1.
  pose proof (capture_loop_views (seq 0 8) (MkViewer c2 k)) as H2.
  destruct (loop (seq 0 8) (MkViewer c1 k)), (loop (seq 0 8) (MkViewer c2 k)).
  simpl in *. by rewrite H1, H2.
Qed.

End Facts.

(** ** What is drawn *)

Lemma draw_objects_outline (l : list CADObject) (sel : option string) (d : Drawn) :
  d ∈ draw_objects l sel → d_outline d = true →
  sel = Some (d_key d) ∧ d_key d ∈ id <$> l.
Proof.
  unfold draw_objects. rewrite list_elem_of_omap. intros (o & Ho & Hr) Hd.
  unfold RenderObject in Hr. case_bool_decide; [done|]. injection Hr as <-.
  simpl in *. case_bool_decide; [|done]. split; [done|]. by apply list_elem_of_fmap_2.
Qed.

Lemma draw_objects_cons (o : CADObject) (l : list CADObject) (sel : option string) :
  draw_objects (o :: l) sel =
    match RenderObject o (bool_decide (sel = Some (id o))) with
    | Some d => d :: draw_objects l sel
    | None => draw_objects l sel
    end.
Proof. reflexivity. Qed.

(** With distinct ids, at most one object is drawn selected. *)
Lemma draw_objects_single_outline (l : list CADObject) (sel : option string) :
  NoDup (id <$> l) → length (filter (λ d, d_outline d = true) (draw_objects l sel)) ≤ 1.
Proof.
  induction l as [|o l IH]; [simpl; lia|].
  rewrite fmap_cons, NoDup_cons. intros [Hnotin Hnd].
  rewrite draw_objects_cons. destruct (RenderObject o _) as [d0|] eqn:E; [|by apply IH].
  rewrite filter_cons.
  destruct (decide (d_outline d0 = true)) as [Hout|Hout]; [|by apply IH]. cbn [length].
  destruct (filter _ (draw_objects l sel)) as [|d ds] eqn:Ef; [simpl; lia|]. exfalso.
  assert (d ∈ filter (λ d, d_outline d = true) (draw_objects l sel)) as Hd by (rewrite Ef; apply list_elem_of_here).
  apply list_elem_of_filter in Hd as [Hd Hin].
  apply draw_objects_outline in Hin as [Hsel Hk]; [|done].
  unfold RenderObject in E. case_bool_decide; [done|]. injection E as <-. simpl in Hout.
  case_bool_decide as Hs; [|done]. rewrite Hs in Hsel. injection Hsel as Heq.
  apply Hnotin. by rewrite Heq.
Qed.

(** The starter cube's color is the selection color: selecting it
    changes only the wireframe box around it. *)
Lemma starter_color_is_selection_color (o : CADObject) :
  visible o ≠ Some false → color o = "#3b82f6" →
  d_color <$> RenderObject o true = d_color <$> RenderObject o false.
Proof. intros Hv Hc. unfold RenderObject. rewrite bool_decide_false by done. simpl. by rewrite Hc. Qed.
