(* ===== verification/Shell.v ===== *)
(** * The page: [App]'s JSX, [ChatInterface] and the wiring of the components

    [App.tsx] renders either the error page (lines 156-196), when the
    start-up script failed, or the main page (lines 198-236): [Header],
    [SceneCollection], [Viewer3D] and [ChatInterface], each given [App]'s
    state and handlers.  This file puts the components of [SceneList],
    [Viewer] and [App] together as one state machine, [shell_step], whose
    events are what the user does on the page and the model's answers to
    a pending turn.

    A turn of [handleSendMessage] is two steps: [ChatSubmit] runs its
    synchronous start [send_start] (the user's message, the loading flag)
    and leaves the turn pending; [ModelAnswers] delivers the answers and
    runs [send_rest].  In between, every other event of the page can
    happen, as it can while the browser awaits the model.  A turn whose
    script does not return or reaches the host page is not followed
    ([shell_step] is [None]).  Clicks on the canvas, the toolbar and the
    download button bubble to [window], whose listener (installed by
    [SceneCollection]) closes the list's context menu: [click_outside].

    [ChatInterface] ([src/unnamed/part_001]) keeps the text of its input;
    [handleSubmit] (lines 23-28) sends it unless it is blank or a turn is
    running, and the input is [disabled] while a turn runs, so it can be
    neither typed in nor submitted. *)

From S2P Require Import Prelude Types Color CSG Script Services Scenarios App SceneList Viewer.

(** ** [ChatInterface] *)

Record ChatState := MkChat { input : string }.

(** [handleSubmit]: [if (!input.trim() || isLoading) return;
    onSendMessage(input); setInput('')].  The text sent is the input as
    typed, not trimmed. *)
Definition handleSubmit (isLoading : bool) (c : ChatState) : ChatState * option string :=
  if negb (str_truthy (Some (js_trim (input c)))) || isLoading then (c, None)
  else (MkChat "", Some (input c)).

(** A message bubble (lines 50-65): the user's on the right, the code
    block when [msg.code] is a non-empty string. *)
Record Bubble := MkBubble { from_user : bool; text : string; code_block : option string }.

Definition bubble (m : ChatMessage) : Bubble :=
  MkBubble (match role m with User => true | _ => false end) (content m)
    (if str_truthy (code m) then code m else None).

Record ChatView := MkChatView {
  ready_banner : bool;
  bubbles : list Bubble;
  generating : bool;
  input_disabled : bool;
  input_value : string
}.

(** What [ChatInterface] shows (lines 30-88). *)
Definition chat_view (msgs : list ChatMessage) (isLoading : bool) (c : ChatState) : ChatView :=
  MkChatView (bool_decide (length msgs = 0)) (bubble <$> msgs) isLoading isLoading (input c).

(** ** The page's state and events *)

Record Shell := MkShell {
  app : AppState;
  selectedId : option string;
  list_state : ListState;
  chat : ChatState;
  viewer : Viewer3DState;
  pending : option string
}.

Definition set_app (st : AppState) (sh : Shell) : Shell :=
  MkShell st (selectedId sh) (list_state sh) (chat sh) (viewer sh) (pending sh).
Definition set_selectedId (v : option string) (sh : Shell) : Shell :=
  MkShell (app sh) v (list_state sh) (chat sh) (viewer sh) (pending sh).
Definition set_list (ls : ListState) (sh : Shell) : Shell :=
  MkShell (app sh) (selectedId sh) ls (chat sh) (viewer sh) (pending sh).
Definition set_chat (c : ChatState) (sh : Shell) : Shell :=
  MkShell (app sh) (selectedId sh) (list_state sh) c (viewer sh) (pending sh).
Definition set_viewer (v : Viewer3DState) (sh : Shell) : Shell :=
  MkShell (app sh) (selectedId sh) (list_state sh) (chat sh) v (pending sh).
Definition set_pending (p : option string) (sh : Shell) : Shell :=
  MkShell (app sh) (selectedId sh) (list_state sh) (chat sh) (viewer sh) p.

(** What leaves the page: the file [handleDownload] saves. *)
Inductive Effect := SaveFile (filename contents : string).

Inductive UIEvent :=
  | ListEv (e : ListEvent)
  | CanvasClick (i : nat)
  | ToolbarMode
  | ToolbarGrid
  | ChatType (s : string)
  | ChatSubmit
  | DownloadClick
  | ModelAnswers (gen_resp vision_resp fix_resp : ModelResponse)
  | ReloadClick.

(** What the page shows. *)
Inductive Page :=
  | ErrorPage (message : string)
  | MainPage (header : string) (scene_list : ListView) (viewport : SceneView) (chat_panel : ChatView).

Definition render_page (sh : Shell) : Page :=
  let st := app sh in
  match initialError st with
  | Some m => ErrorPage m
  | None =>
      MainPage (header_count (length (objects st)))
        (list_view (objects st) (selectedId sh) (list_state sh))
        (scene_content (objects st) (selectedId sh) (showGrid (viewer sh)))
        (chat_view (messages st) (isAiLoading st) (chat sh))
  end.

(** ** The handlers [App] passes down *)

Section ShellStep.
Context `{ThreeColor}.
Variable now : nat → N.
Variable engine_clock : nat → nat → N.
Variables (host : list string) (fuel : nat).
Variable parse_js : string → string + list stmt.
Variable parse_script_json : string → string + (option string * option string).
Variable parse_feedback : string → option RawFeedback.
Variable viewer_ready : bool.
Variable look_rotation : Vector3 → Vector3 → Vector3 → Vector3.
Variable orbit_update : Vector3 → Camera → Camera.
(** The viewer as it mounts. *)
Variable viewer0 : Viewer3DState.

(** [focusObject] of the handle [Viewer3D] gives (line 219). *)
Definition handle_focusObject (oid : string) (pos : Vector3) (v : Viewer3DState) : Viewer3DState :=
  match sceneRef v with
  | Some vs =>
      MkViewer3D (interactionMode v) (showGrid v) (Some (focusObject look_rotation orbit_update oid pos vs))
  | None => v
  end.

(** The props of [SceneCollection] (lines 204-215): [onSelect] is
    [handleSelectObject] (lines 23-25); [onDelete], [onDuplicate] and
    [onRename] are [() => {}]; [onFocus] finds the object and turns the
    viewer to it. *)
Definition app_callback (sh : Shell) (cb : Callback) : Shell :=
  match cb with
  | CSelect oid => set_selectedId (Some oid) sh
  | CRename _ _ | CDuplicate _ | CDelete _ => sh
  | CFocus oid =>
      match List.find (λ o, bool_decide (id o = oid)) (objects (app sh)) with
      | Some obj => set_viewer (handle_focusObject oid (position obj) (viewer sh)) sh
      | None => sh
      end
  end.

(** [handleDownload] (lines 27-35): the current script saved as
    [janus-design-<Date.now()>.js]. *)
Definition handleDownload (st : AppState) : AppState * Effect :=
  let '(t, st1) := date_now now st in
  (st1, SaveFile ("janus-design-" +:+ pretty t +:+ ".js") (currentScript st)).

(** The state after start-up: the [useEffect] of lines 136-154 runs once
    the first render is committed. *)
Definition shell_start : option Shell :=
  match initial_load engine_clock host fuel parse_js app_init with
  | AppDone st => Some (MkShell st None list_init (MkChat "") viewer0 None)
  | _ => None
  end.

(** A click outside the scene list bubbles to [window], where the list's
    [handleClickOutside] (part_000, lines 58-62) closes its menu: the
    canvas (R3F's [stopPropagation] only stops the raycast), the
    toolbar's buttons and the header's download button call no
    [stopPropagation]. *)
Definition click_outside (sh : Shell) : Shell :=
  set_list (handleClickOutside (list_state sh)) sh.

(** The events of the page that are clicks outside the scene list. *)
Definition outside_click (ev : UIEvent) : bool :=
  match ev with
  | CanvasClick _ | ToolbarMode | ToolbarGrid | DownloadClick => true
  | _ => false
  end.

(** One event of the page. *)
Definition shell_step (sh : Shell) (ev : UIEvent) : option (Shell * list Effect) :=
  let st := app sh in
  match initialError st, ev with
  | Some _, ReloadClick => sh' ← shell_start; Some (sh', [])
  | Some _, _ => None
  | None, ReloadClick => None
  | None, ListEv e =>
      '(ls, cbs) ← list_step (objects st) (list_state sh) e;
      Some (foldl app_callback (set_list ls sh) cbs, [])
  | None, CanvasClick i =>
      d ← draw_objects (objects st) (selectedId sh) !! i;
      Some (click_outside (set_selectedId (Some (d_key d)) sh), [])
  | None, ToolbarMode => Some (click_outside (set_viewer (toggle_mode (viewer sh)) sh), [])
  | None, ToolbarGrid => Some (click_outside (set_viewer (toggle_grid (viewer sh)) sh), [])
  | None, ChatType s => if isAiLoading st then None else Some (set_chat (MkChat s) sh, [])
  | None, ChatSubmit =>
      if isAiLoading st then None else
      let '(c', sent) := handleSubmit (isAiLoading st) (chat sh) in
      match sent with
      | Some userText =>
          Some (sh |> set_chat c' |> set_app (send_start now userText st)
                   |> set_pending (Some userText), [])
      | None => Some (set_chat c' sh, [])
      end
  | None, DownloadClick =>
      let '(st1, f) := handleDownload st in Some (click_outside (set_app st1 sh), [f])
  | None, ModelAnswers gen_resp vision_resp fix_resp =>
      userText ← pending sh;
      match send_rest now engine_clock host fuel parse_js parse_script_json parse_feedback
              viewer_ready userText gen_resp vision_resp fix_resp st with
      | AppDone st' => Some (sh |> set_app st' |> set_pending None, [])
      | _ => None
      end
  end.

Fixpoint shell_run (sh : Shell) (evs : list UIEvent) : option (Shell * list Effect) :=
  match evs with
  | [] => Some (sh, [])
  | ev :: evs' =>
      '(sh1, e1) ← shell_step sh ev;
      '(sh2, e2) ← shell_run sh1 evs';
      Some (sh2, e1 ++ e2)
  end.

Inductive page_reachable : Shell → Prop :=
  | reach_start sh : shell_start = Some sh → page_reachable sh
  | reach_step sh ev sh' effs :
      page_reachable sh → shell_step sh ev = Some (sh', effs) → page_reachable sh'.

(** ** Facts *)

Lemma app_callback_keeps (sh : Shell) (cb : Callback) :
  app (app_callback sh cb) = app sh ∧ pending (app_callback sh cb) = pending sh.
Proof. destruct cb; simpl; try done. by destruct (List.find _ _). Qed.

Lemma foldl_app_callback_keeps (sh : Shell) (cbs : list Callback) :
  app (foldl app_callback sh cbs) = app sh ∧ pending (foldl app_callback sh cbs) = pending sh.
Proof.
  revert sh. induction cbs as [|cb cbs IH]; intros sh; [done|]. simpl.
  destruct (IH (app_callback sh cb)) as [-> ->]. apply app_callback_keeps.
Qed.

Lemma shell_run_cons (sh : Shell) (ev : UIEvent) (evs : list UIEvent) :
  shell_run sh (ev :: evs) =
    '(sh1, e1) ← shell_step sh ev; '(sh2, e2) ← shell_run sh1 evs; Some (sh2, e1 ++ e2).
Proof. reflexivity. Qed.

(** An event of the scene list changes neither [App]'s state nor the
    pending turn, and saves no file. *)
Lemma list_event_keeps (sh sh' : Shell) (e : ListEvent) (effs : list Effect) :
  shell_step sh (ListEv e) = Some (sh', effs) →
  app sh' = app sh ∧ pending sh' = pending sh ∧ effs = [].
Proof.
  unfold shell_step. destruct (initialError (app sh)); [done|].
  destruct (list_step _ _ e) as [[ls cbs]|]; simpl; [|done]. intros [= <- <-].
  destruct (foldl_app_callback_keeps (set_list ls sh) cbs) as [-> ->]. done.
Qed.

(** C37 (finding): nothing done in the scene list changes the scene.
    [App] wires the list's [onRename], [onDuplicate] and [onDelete] to
    [() => {}] (App.tsx lines 208-210), so after any sequence of events
    of the list (renaming by double click or through the menu,
    Duplicate, Delete, Locate, selecting) [App]'s objects, current
    script, messages and loading flag are those before it, and no turn
    starts. *)
Theorem scene_list_cannot_edit (sh sh' : Shell) (evs : list ListEvent) (effs : list Effect) :
  shell_run sh (ListEv <$> evs) = Some (sh', effs) →
  app sh' = app sh ∧ pending sh' = pending sh ∧ effs = [].
Proof.
  revert sh effs. induction evs as [|e evs IH]; intros sh effs.
  - intros [= <- <-]. by split_and!.
  - rewrite fmap_cons, shell_run_cons.
    destruct (shell_step sh (ListEv e)) as [[sh1 e1]|] eqn:E; [|intros [=]].
    cbn [mbind option_bind].
    destruct (shell_run sh1 (ListEv <$> evs)) as [[sh2 e2]|] eqn:E2; [|intros [=]].
    simpl. intros [= <- <-]. apply list_event_keeps in E as (Ha & Hp & ->).
    destruct (IH _ _ E2) as (Ha2 & Hp2 & ->). split_and!; [congruence|congruence|done].
Qed.

Lemma send_start_loading (u : string) (st : AppState) :
  isAiLoading (send_start now u st) = true.
Proof. done. Qed.

Lemma date_now_loading (st : AppState) : isAiLoading (date_now now st).2 = isAiLoading st.
Proof. done. Qed.

Lemma initial_load_not_loading (st : AppState) :
  initial_load engine_clock host fuel parse_js app_init = AppDone st → isAiLoading st = false.
Proof. unfold initial_load. by repeat case_match; intros [= <-]. Qed.

Definition turn_inv (sh : Shell) : Prop := is_Some (pending sh) ↔ isAiLoading (app sh) = true.

Lemma shell_start_inv (sh : Shell) : shell_start = Some sh → turn_inv sh.
Proof.
  unfold shell_start, turn_inv. destruct (initial_load _ _ _ _ _) eqn:E; try done.
  intros [= <-]. simpl. rewrite (initial_load_not_loading _ E). split; [by intros []|done].
Qed.

Lemma shell_step_inv (sh sh' : Shell) (ev : UIEvent) (effs : list Effect) :
  turn_inv sh → shell_step sh ev = Some (sh', effs) → turn_inv sh'.
Proof.
  intros Hinv. destruct ev as [e|i| | |s| | |g v f|].
  - intros (Ha & Hp & _)%list_event_keeps. unfold turn_inv. by rewrite Ha, Hp.
  - unfold shell_step. destruct (initialError (app sh)); [done|].
    destruct (_ !! i); simpl; [|done]. intros [= <- <-]. exact Hinv.
  - unfold shell_step. destruct (initialError (app sh)); [done|]. intros [= <- <-]. exact Hinv.
  - unfold shell_step. destruct (initialError (app sh)); [done|]. intros [= <- <-]. exact Hinv.
  - unfold shell_step. destruct (initialError (app sh)); [done|].
    destruct (isAiLoading (app sh)); [done|]. intros [= <- <-]. exact Hinv.
  - unfold shell_step. destruct (initialError (app sh)); [done|].
    destruct (isAiLoading (app sh)) eqn:Hl; [done|].
    unfold handleSubmit. rewrite orb_false_r.
    destruct (negb _); intros [= <- <-]; [exact Hinv|].
    unfold turn_inv. simpl. split; [done|eauto].
  - unfold shell_step. destruct (initialError (app sh)); [done|]. intros [= <- <-]. exact Hinv.
  - unfold shell_step. destruct (initialError (app sh)); [done|].
    destruct (pending sh) as [u|]; simpl; [|done].
    destruct (send_rest _ _ _ _ _ _ _ _ _ _ _ _ _) eqn:E; try done. intros [= <- <-].
    apply send_rest_settles in E as [Hl _]. unfold turn_inv. simpl. rewrite Hl.
    split; [by intros []|done].
  - unfold shell_step. destruct (initialError (app sh)); [|done].
    destruct shell_start eqn:E; simpl; [|done]. intros [= <- <-]. by apply shell_start_inv.
Qed.

(** C38: turns never overlap.  In every state the page can reach, a turn
    is pending exactly when [isAiLoading] is set, and then the chat
    input, which is disabled, can neither be typed in nor submitted: no
    second [handleSendMessage] starts before the model's answers to the
    first have been handled. *)
Theorem turns_do_not_overlap (sh : Shell) :
  page_reachable sh →
  (is_Some (pending sh) ↔ isAiLoading (app sh) = true) ∧
  (is_Some (pending sh) → shell_step sh ChatSubmit = None ∧ ∀ s, shell_step sh (ChatType s) = None).
Proof.
  intros Hr. assert (turn_inv sh) as Hinv.
  { induction Hr; [by apply shell_start_inv|by eapply shell_step_inv]. }
  split; [exact Hinv|]. intros Hp. apply Hinv in Hp.
  unfold shell_step. rewrite Hp. by destruct (initialError (app sh)).
Qed.

(** C39: a click outside the scene list (on an object in the canvas, on
    a toolbar button or on the header's download button) closes the
    list's context menu through the [window] listener and leaves a
    rename in progress as it was.  The toolbar and download clicks are
    always handled; a canvas click is handled when it hits a drawn
    object. *)
Theorem outside_click_closes_menu (sh : Shell) (ev : UIEvent) :
  initialError (app sh) = None → outside_click ev = true →
  (∀ sh' effs, shell_step sh ev = Some (sh', effs) →
     menuOpenId (list_state sh') = None ∧
     editingId (list_state sh') = editingId (list_state sh)) ∧
  ((∀ i, ev ≠ CanvasClick i) → is_Some (shell_step sh ev)).
Proof.
  intros Hok Hev. unfold shell_step. rewrite Hok.
  destruct ev as [| i | | | | | | |]; try discriminate; split;
    try (destruct (handleDownload (app sh)));
    try (intros sh' effs; simpl; intros [= <- _]; by split); try by eexists.
  - intros sh' effs. destruct (draw_objects _ _ !! i); simpl; [|done].
    intros [= <- _]. by split.
  - intros Hi. by destruct (Hi i).
Qed.

End ShellStep.

(** ** Witnesses *)

(** The start-up script parses as [initial_script]; other code as in
    [demo_parse_js]. *)
Definition shell_parse_js (c : string) : string + list stmt :=
  if String.eqb c initialScript then inr initial_script else demo_parse_js c.

Definition demo_viewer : Viewer3DState :=
  MkViewer3D RotateMode true
    (Some (MkViewer (MkCamera (js_lit 5 0, js_lit 5 0, js_lit 5 0) origin (zero, one, zero))
             (Some (MkControls origin)))).

Definition demo_step : Shell → UIEvent → option (Shell * list Effect) :=
  shell_step (λ _, 0%N) (λ _ _, 0%N) [] 10 shell_parse_js demo_parse_json rejecting_feedback
    true (λ _ _ t, t) (λ _ c, c) demo_viewer.

Definition demo_run : Shell → list UIEvent → option (Shell * list Effect) :=
  shell_run (λ _, 0%N) (λ _ _, 0%N) [] 10 shell_parse_js demo_parse_json rejecting_feedback
    true (λ _ _ t, t) (λ _ c, c) demo_viewer.

Definition demo_start : option Shell :=
  shell_start (λ _ _, 0%N) [] 10 shell_parse_js demo_viewer.

Definition demo_shell : Shell :=
  match demo_start with
  | Some sh => sh
  | None => MkShell app_init None list_init (MkChat "") demo_viewer None
  end.

(** Renaming the starter cube to ["Big Cube"] by double click. *)
Definition rename_events : list ListEvent :=
  double_click 0 ++ [InputChange 0 "Big Cube"; InputKeyDown 0 "Enter"].

Definition renamed_shell : Shell :=
  match demo_run demo_shell (ListEv <$> rename_events) with
  | Some (sh, _) => sh
  | None => demo_shell
  end.

Lemma scene_list_cannot_edit_witness :
  demo_run demo_shell (ListEv <$> rename_events) = Some (renamed_shell, []) ∧
  (app renamed_shell = app demo_shell ∧ pending renamed_shell = pending demo_shell ∧
   @nil Effect = []) ∧
  name <$> objects (app renamed_shell) = ["Starter Cube"].
Proof.
  assert (demo_run demo_shell (ListEv <$> rename_events) = Some (renamed_shell, [])) as Hr
    by reflexivity.
  split; [exact Hr|]. split; [|reflexivity].
  exact (scene_list_cannot_edit _ _ _ _ _ _ _ _ _ _ _ _ _ _ _ Hr).
Defined.

(** The user types ["a cube"] and submits: the turn is pending. *)
Definition typed_shell : Shell :=
  match demo_step demo_shell (ChatType "a cube") with Some (sh, _) => sh | None => demo_shell end.

Definition submitted_shell : Shell :=
  match demo_step typed_shell ChatSubmit with Some (sh, _) => sh | None => demo_shell end.

Lemma turns_do_not_overlap_witness :
  page_reachable (λ _, 0%N) (λ _ _, 0%N) [] 10 shell_parse_js demo_parse_json rejecting_feedback
    true (λ _ _ t, t) (λ _ c, c) demo_viewer submitted_shell ∧
  pending submitted_shell = Some "a cube" ∧
  ((is_Some (pending submitted_shell) ↔ isAiLoading (app submitted_shell) = true) ∧
   (is_Some (pending submitted_shell) →
      demo_step submitted_shell ChatSubmit = None ∧
      ∀ s, demo_step submitted_shell (ChatType s) = None)).
Proof.
  assert (page_reachable (λ _, 0%N) (λ _ _, 0%N) [] 10 shell_parse_js demo_parse_json
            rejecting_feedback true (λ _ _ t, t) (λ _ c, c) demo_viewer submitted_shell) as Hr.
  { eapply (reach_step _ _ _ _ _ _ _ _ _ _ _ typed_shell ChatSubmit); [|reflexivity].
    eapply (reach_step _ _ _ _ _ _ _ _ _ _ _ demo_shell (ChatType "a cube")); [|reflexivity].
    apply reach_start. reflexivity. }
  split; [exact Hr|]. split; [reflexivity|].
  exact (turns_do_not_overlap _ _ _ _ _ _ _ _ _ _ _ _ Hr).
Defined.

(** The options button of the starter cube opens its menu; a click on
    the grid button closes it. *)
Definition menu_open_shell : Shell :=
  match demo_step demo_shell (ListEv (OptionsClick 0)) with Some (sh, _) => sh | None => demo_shell end.

Lemma outside_click_closes_menu_witness :
  initialError (app menu_open_shell) = None ∧ menuOpenId (list_state menu_open_shell) = Some "obj_0_0" ∧
  ∃ sh' effs, demo_step menu_open_shell ToolbarGrid = Some (sh', effs) ∧
    menuOpenId (list_state sh') = None.
Proof.
  assert (initialError (app menu_open_shell) = None) as Hok by reflexivity.
  split; [exact Hok|]. split; [vm_compute; reflexivity|].
  destruct (demo_step menu_open_shell ToolbarGrid) as [[sh' effs]|] eqn:Hs;
    [|vm_compute in Hs; discriminate].
  exists sh', effs. split; [done|].
  exact (proj1 (proj1 (outside_click_closes_menu (λ _, 0%N) (λ _ _, 0%N) [] 10 shell_parse_js
                   demo_parse_json rejecting_feedback true (λ _ _ t, t) (λ _ c, c) demo_viewer
                   menu_open_shell ToolbarGrid Hok eq_refl) _ _ Hs)).
Defined.
