(* ===== verification/Boot.v ===== *)
(** * [index.tsx]: mounting the app, and the global error screens

    [index.tsx] mounts [App] into the element [#root] (lines 89-107) and
    installs two global handlers first: [window.onerror] (lines 7-45)
    replaces the content of [#root] with a "System Failure" screen
    showing the error; [window.onunhandledrejection] (lines 48-87)
    replaces it with an "Unhandled Promise Rejection" screen, but only
    when the markup [#root] holds does not already contain ["System
    Failure"].

    The content of [#root] is either what React renders for a [Page]
    ([ReactRoot]), whose markup is the parameter [page_html], or markup a
    handler wrote ([Markup]).  The screens' markup is the text of the
    template literals, character for character, with the values put in
    their places; [includes] is [String.prototype.includes] on it.  A
    handler writes [innerHTML], so React's later commits no longer show:
    the model keeps the written markup ([Rerender]).  The markup is the
    string assigned; the browser re-serializes it when [innerHTML] is
    read, which keeps the heading text ["System Failure"] the theorems
    below rely on. *)

From S2P Require Import Prelude Types SceneList Viewer App Shell.

(** ** [String.prototype.includes] *)

Fixpoint includes_l (l n : list ascii) : bool :=
  starts_with n l || match l with [] => false | _ :: l' => includes_l l' n end.

Definition includes (s needle : string) : bool :=
  includes_l (String.list_ascii_of_string s) (String.list_ascii_of_string needle).

(** ** The screens' markup *)

(** Lines 12-29, up to [${String(message)}]. *)
Definition failure_head : string :=
  "
      <div style=" +:+ dq +:+
  "
        font-family: 'Courier New', monospace; 
        background-color: #0f172a; 
        color: #ef4444; 
        padding: 40px; 
        height: 100vh; 
        width: 100vw; 
        box-sizing: border-box; 
        overflow: auto;
        display: flex;
        flex-direction: column;
        gap: 20px;
      " +:+ dq +:+
  ">
        <h2 style=" +:+ dq +:+
  "margin: 0; font-size: 24px; color: #f87171;" +:+ dq +:+
  ">System Failure</h2>
        
        <div style=" +:+ dq +:+
  "border: 1px solid #ef4444; padding: 20px; border-radius: 8px; background: rgba(239, 68, 68, 0.1);" +:+ dq +:+
  ">
            <div style=" +:+ dq +:+
  "font-weight: bold; font-size: 18px; margin-bottom: 10px;" +:+ dq +:+
  ">".

(** Line 29 to [Source: ] of line 30. *)
Definition failure_mid : string :=
  "</div>
            <div style=" +:+ dq +:+
  "color: #94a3b8; font-size: 14px;" +:+ dq +:+
  ">Source: ".

(** From line 30 to the stack block of line 33. *)
Definition failure_tail : string :=
  "</div>
        </div>

        ".

(** Lines 37-43. *)
Definition failure_foot : string :=
  "
        
        <div style=" +:+ dq +:+
  "margin-top: auto; color: #64748b; font-size: 12px;" +:+ dq +:+
  ">
          Error caught by Global Exception Handler in index.tsx
        </div>
      </div>
    ".

(** The stack block, before [${...stack}] (lines 33-35 and 75-77). *)
Definition stack_open : string :=
  "
          <div style=" +:+ dq +:+
  "background: #1e293b; padding: 20px; border-radius: 8px; border: 1px solid #334155; white-space: pre-wrap; word-break: break-all; font-size: 14px; color: #cbd5e1; overflow-x: auto;" +:+ dq +:+
  ">
            ".

(** The stack block, after the stack. *)
Definition stack_close : string :=
  "
          </div>
        ".

(** Lines 53-71, up to the reason. *)
Definition rejection_head : string :=
  "
      <div style=" +:+ dq +:+
  "
        font-family: 'Courier New', monospace; 
        background-color: #0f172a; 
        color: #f59e0b; 
        padding: 40px; 
        height: 100vh; 
        width: 100vw; 
        box-sizing: border-box; 
        overflow: auto;
        display: flex;
        flex-direction: column;
        gap: 20px;
      " +:+ dq +:+
  ">
        <h2 style=" +:+ dq +:+
  "margin: 0; font-size: 24px;" +:+ dq +:+
  ">Unhandled Promise Rejection</h2>
        
         <div style=" +:+ dq +:+
  "border: 1px solid #f59e0b; padding: 20px; border-radius: 8px; background: rgba(245, 158, 11, 0.1);" +:+ dq +:+
  ">
            <div style=" +:+ dq +:+
  "font-weight: bold; font-size: 18px; margin-bottom: 10px;" +:+ dq +:+
  ">
                ".

(** Lines 71-75, after the reason. *)
Definition rejection_mid : string :=
  "
            </div>
        </div>

         ".

(** Lines 79-85. *)
Definition rejection_foot : string :=
  "

         <div style=" +:+ dq +:+
  "margin-top: auto; color: #64748b; font-size: 12px;" +:+ dq +:+
  ">
          Error caught by Global Rejection Handler in index.tsx
        </div>
      </div>
    ".

(** [${error && error.stack ? `...` : ''}]: the block when the stack
    is a non-empty string. *)
Definition stack_html (stack : option string) : string :=
  match stack with
  | Some s => if str_truthy (Some s) then stack_open +:+ s +:+ stack_close else ""
  | None => ""
  end.

(** The template of [window.onerror]; [source], [lineno] and [colno]
    as the browser passes them. *)
Definition failure_html (message source : string) (lineno colno : N) (stack : option string)
    : string :=
  failure_head +:+ message +:+ failure_mid +:+ source +:+ ":" +:+ pretty lineno +:+ ":" +:+
  pretty colno +:+ failure_tail +:+ stack_html stack +:+ failure_foot.

(** The template of [window.onunhandledrejection]: [reason] is
    [String(event.reason)] when the reason is truthy. *)
Definition rejection_html (reason stack : option string) : string :=
  rejection_head +:+ default "Unknown Reason" reason +:+ rejection_mid +:+ stack_html stack +:+
  rejection_foot.

(** ** The root element and the handlers *)

Inductive Root := ReactRoot (page : Page) | Markup (html : string).

Inductive WindowEvent :=
  | GlobalError (message source : string) (lineno colno : N) (stack : option string)
  | Rejection (reason stack : option string)
  | Rerender (page : Page).

Inductive BootResult :=
  | BootThrows (message : string)
  | Booted (root : Root).

Section Bootstrap.
Variable page_html : Page → string.

(** The markup [#root] holds. *)
Definition root_html (r : Root) : string :=
  match r with ReactRoot p => page_html p | Markup h => h end.

(** [window.onerror]: it writes [#root] whatever it holds. *)
Definition onerror (message source : string) (lineno colno : N) (stack : option string) : Root :=
  Markup (failure_html message source lineno colno stack).

(** [window.onunhandledrejection]. *)
Definition onunhandledrejection (reason stack : option string) (r : Root) : Root :=
  if includes (root_html r) "System Failure" then r else Markup (rejection_html reason stack).

Definition window_step (r : Root) (ev : WindowEvent) : Root :=
  match ev with
  | GlobalError m s l c st => onerror m s l c st
  | Rejection reason st => onunhandledrejection reason st r
  | Rerender p => match r with ReactRoot _ => ReactRoot p | Markup h => Markup h end
  end.

(** Lines 89-107: no [#root] throws; a synchronous failure of
    [createRoot]/[render], given as its message and stack, goes to
    [window.onerror] as [(e.message, "index.tsx", 0, 0, e)]. *)
Definition bootstrap (root_exists : bool) (render : (string * option string) + Page)
    : BootResult :=
  if root_exists then
    match render with
    | inr p => Booted (ReactRoot p)
    | inl (m, st) => Booted (onerror m "index.tsx" 0 0 st)
    end
  else BootThrows "Could not find root element to mount to".

End Bootstrap.

(** ** Facts *)

Lemma list_ascii_of_string_app (a b : string) :
  String.list_ascii_of_string (a +:+ b) =
    String.list_ascii_of_string a ++ String.list_ascii_of_string b.
Proof. induction a as [|c a IH]; simpl; [done|]. by rewrite IH. Qed.

Lemma includes_l_app (l k n : list ascii) :
  includes_l l n = true → includes_l (l ++ k) n = true.
Proof.
  induction l as [|c l IH]; simpl; intros H.
  - apply orb_true_iff in H as [H|H]; [|done].
    apply starts_with_spec, prefix_nil_inv in H as ->. by destruct k.
  - apply orb_true_iff in H as [H|H]; apply orb_true_iff; [left|right; by apply IH].
    apply starts_with_spec in H. apply starts_with_spec.
    rewrite app_comm_cons. by apply prefix_app_r.
Qed.

Lemma includes_app_l (a b n : string) : includes a n = true → includes (a +:+ b) n = true.
Proof. unfold includes. rewrite list_ascii_of_string_app. apply includes_l_app. Qed.

(** The failure screen says "System Failure", whatever the error. *)
Lemma failure_html_mentions (message source : string) (lineno colno : N) (stack : option string) :
  includes (failure_html message source lineno colno stack) "System Failure" = true.
Proof. unfold failure_html. apply includes_app_l. vm_compute. reflexivity. Qed.

Section Screens.
Variable page_html : Page → string.

(** Once the failure screen is up, no rejection replaces it and no
    React commit shows: only another error rewrites [#root]. *)
Lemma failure_screen_stays (message source : string) (lineno colno : N)
    (stack : option string) (evs : list WindowEvent) :
  Forall (λ ev, match ev with GlobalError _ _ _ _ _ => False | _ => True end) evs →
  foldl (window_step page_html) (Markup (failure_html message source lineno colno stack)) evs =
    Markup (failure_html message source lineno colno stack).
Proof.
  induction 1 as [|ev evs Hev _ IH]; [done|]. cbn [foldl].
  destruct ev as [| |]; [done| |done].
  unfold window_step, onunhandledrejection, root_html. by rewrite failure_html_mentions.
Qed.

(** A rejection while React shows a page without the words "System
    Failure" replaces the page by the rejection screen. *)
Lemma rejection_replaces_page (p : Page) (reason stack : option string) :
  includes (page_html p) "System Failure" = false →
  window_step page_html (ReactRoot p) (Rejection reason stack) =
    Markup (rejection_html reason stack).
Proof. simpl. unfold onunhandledrejection. simpl. by intros ->. Qed.

End Screens.
