(* ===== verification/Prompts.v ===== *)
(** * The prompts: what the services send to the models

    [geminiService.ts] builds the text it sends with [generateScript]
    (lines 51-61) and [fixScript] (lines 100-113) from template literals
    and sends it with the system instruction [CODING_SYSTEM_INSTRUCTION];
    [visualFeedbackService.ts] sends a text part (lines 44-56) and one
    image part per view (lines 37-42), the PNG data of the view without
    its [data:] URL prefix.  The texts are the template literals
    character for character.

    The system instruction tells the model which functions the script
    may call; [advertised_functions] reads them off its text, and they
    are exactly the builtins the engine binds ([builtin_names]).  The
    images come from [captureViews]: with a renderer whose [toDataURL]
    gives a PNG data URL, the request carries the eight images of the
    eight orbit poses, as its text announces. *)

From S2P Require Import Prelude Types CSG Script Services App SceneList Viewer Boot.

(** ** The texts *)

(** [CODING_SYSTEM_INSTRUCTION] (geminiService.ts lines 7-40). *)
Definition CODING_SYSTEM_INSTRUCTION : string :=
  "
You are an expert Computational Designer using a JavaScript-based CSG (Constructive Solid Geometry) library.
Your goal is to write a script that generates 3D objects based on the user's request.

### The API
You have access to the following functions:
- `Box(width, height, depth)`: Returns a Mesh.
- `Sphere(radius)`: Returns a Mesh.
- `Cylinder(radiusTop, radiusBottom, height)`: Returns a Mesh.
- `Move(mesh, x, y, z)`: Returns the transformed Mesh.
- `Rotate(mesh, x, y, z)`: Rotates mesh (in radians). Returns Mesh.
- `Scale(mesh, x, y, z)`: Scales mesh. Returns Mesh.
- `Color(mesh, hexString)`: Sets color (e.g. " +:+ dq +:+
  "#ff0000" +:+ dq +:+
  "). Returns Mesh.
- `Union(a, b)`: boolean Union. Returns Mesh.
- `Subtract(a, b)`: boolean Subtract (a - b). Returns Mesh.
- `Intersect(a, b)`: boolean Intersect. Returns Mesh.
- `Add(mesh, name)`: **CRITICAL**. You MUST call this to add the object to the scene. If you don't call Add, nothing appears.

### Rules
1. **Parametric Thinking**: Define variables for dimensions.
2. **Operations**: Create geometries -> Apply Transforms -> Apply Booleans -> Call Add().
3. **Clean Code**: Write valid JavaScript. No markdown blocks inside the JSON string property.
4. **Context**: You will be provided with the *Previous Script*. You should EDIT the previous script to accommodate the new request.
   - If user says " +:+ dq +:+
  "Change color to red" +:+ dq +:+
  ", find the Color() call and update it.
   - If user says " +:+ dq +:+
  "Add a sphere" +:+ dq +:+
  ", append the code for the sphere.
   - If user says " +:+ dq +:+
  "Make the box bigger" +:+ dq +:+
  ", update the dimensions.

### Response Format
Return JSON:
{
  " +:+ dq +:+
  "code" +:+ dq +:+
  ": " +:+ dq +:+
  "full javascript code string" +:+ dq +:+
  ",
  " +:+ dq +:+
  "explanation" +:+ dq +:+
  ": " +:+ dq +:+
  "brief description of changes" +:+ dq +:+
  "
}
".

(** Lines 51-53, before the current code. *)
Definition script_ctx_head : string :=
  "
    CURRENT SCRIPT:
    ".

(** Lines 53-56, between the code and the request. *)
Definition script_ctx_mid : string :=
  "

    USER REQUEST:
    " +:+ dq +:+
  "".

(** Lines 56-61. *)
Definition script_ctx_tail : string :=
  "" +:+ dq +:+
  "

    TASK:
    Rewrite the Current Script to fulfill the User Request.
    Maintain existing objects unless asked to delete them.
    ".

(** Lines 100-102, before the code. *)
Definition fix_ctx_head : string :=
  "
      CURRENT SCRIPT:
      ".

(** Lines 102-105, between the code and the request. *)
Definition fix_ctx_request : string :=
  "

      USER ORIGINAL REQUEST:
      " +:+ dq +:+
  "".

(** Lines 105-108, between the request and the feedback. *)
Definition fix_ctx_feedback : string :=
  "" +:+ dq +:+
  "

      VISUAL QA FEEDBACK:
      " +:+ dq +:+
  "".

(** Lines 108-113. *)
Definition fix_ctx_tail : string :=
  "" +:+ dq +:+
  "

      TASK:
      The current script produced a result that failed the visual QA.
      Fix the script based on the feedback provided.
      ".

(** [FEEDBACK_SYSTEM_INSTRUCTION] (visualFeedbackService.ts lines 6-26). *)
Definition FEEDBACK_SYSTEM_INSTRUCTION : string :=
  "
You are a Visual QA agent for a 3D CAD tool. 
You will receive the User's Request and multiple screenshots of the generated 3D scene.

Your task:
1. Analyze if the 3D geometry matches the User's Request.
2. Check for common defects:
   - Objects floating in mid-air (unless requested).
   - Accidental intersections or Z-fighting.
   - Wrong colors.
   - Misalignments.
   - Missing objects.
3. Be highly critical.

Output JSON:
{
    " +:+ dq +:+
  "looksCorrect" +:+ dq +:+
  ": boolean,
    " +:+ dq +:+
  "critique" +:+ dq +:+
  ": " +:+ dq +:+
  "A concise description of what is wrong. If it looks correct, say 'Visuals verified.'" +:+ dq +:+
  ",
    " +:+ dq +:+
  "suggestion" +:+ dq +:+
  ": " +:+ dq +:+
  "Specific instructions on how to fix the code (e.g., 'Move the red box down by 1 unit', 'Rotate the cylinder 90 degrees')." +:+ dq +:+
  "
}
".

(** Lines 45-46, before the prompt. *)
Definition vision_text_head : string :=
  "
        USER REQUEST: " +:+ dq +:+
  "".

(** Lines 46-55, after the prompt. *)
Definition vision_text_tail : string :=
  "" +:+ dq +:+
  "
        
        The images provided are 8 sequential views of the generated 3D model, taken at 45-degree intervals orbiting the object (0°, 45°, 90°, etc.).
        
        Analyze these 8 views collectively to determine if the 3D geometry fully satisfies the request.
        Look for:
        1. Consistency across angles (is it a complete 3D object?).
        2. Geometry accuracy (does it look like the requested object from all sides?).
        3. Floating parts or disconnections that might be hidden in a single view.
        ".

(** [generateScript]'s [context]: [${currentCode || "// No code yet"}]
    and the request between quotes. *)
Definition script_context (userPrompt currentCode : string) : string :=
  script_ctx_head +:+ js_or_default (Some currentCode) "// No code yet" +:+ script_ctx_mid +:+
  userPrompt +:+ script_ctx_tail.

(** [fixScript]'s [context]. *)
Definition fix_context (originalPrompt currentCode feedback : string) : string :=
  fix_ctx_head +:+ currentCode +:+ fix_ctx_request +:+ originalPrompt +:+ fix_ctx_feedback +:+
  feedback +:+ fix_ctx_tail.

(** The arguments of [ai.models.generateContent] the code sets:
    [model], [contents], [systemInstruction], [temperature]. *)
Record ScriptRequest := MkScriptRequest {
  req_model : string;
  req_contents : string;
  req_system : string;
  req_temperature : num
}.

(** The literal [0.1]: the binary64 number nearest to 1/10, which is
    the correctly rounded quotient of 1 by 10. *)
Definition temperature_0_1 : num :=
  Num (SFdiv js_prec js_emax (to_float (js_lit 1 0)) (to_float (js_lit 10 0))).

Definition generate_request (userPrompt currentCode : string) : ScriptRequest :=
  MkScriptRequest "gemini-3-flash-preview" (script_context userPrompt currentCode)
    CODING_SYSTEM_INSTRUCTION temperature_0_1.

Definition fix_request (originalPrompt currentCode feedback : string) : ScriptRequest :=
  MkScriptRequest "gemini-3-flash-preview" (fix_context originalPrompt currentCode feedback)
    CODING_SYSTEM_INSTRUCTION temperature_0_1.

(** ** The functions the system instruction advertises *)

Fixpoint split_lines (l : list ascii) : list (list ascii) :=
  match l with
  | [] => [[]]
  | c :: l' =>
      let rest := split_lines l' in
      if bool_decide (c = byte 10) then [] :: rest
      else match rest with r :: rs => (c :: r) :: rs | [] => [[c]] end
  end.

Fixpoint upto_paren (l : list ascii) : list ascii :=
  match l with
  | [] => []
  | c :: l' => if bool_decide (c = "("%char) then [] else c :: upto_paren l'
  end.

(** A line [- `Name(...)`...] of "### The API" names the function
    [Name]. *)
Definition api_name (line : list ascii) : option string :=
  match line with
  | c1 :: c2 :: c3 :: rest =>
      if bool_decide (c1 = "-"%char ∧ c2 = " "%char ∧ c3 = byte 96)
      then Some (String.string_of_list_ascii (upto_paren rest)) else None
  | _ => None
  end.

Definition advertised_functions : list string :=
  omap api_name (split_lines (String.list_ascii_of_string CODING_SYSTEM_INSTRUCTION)).

(** ** The vision request (lines 37-56) *)

Inductive Part := TextPart (text : string) | InlineData (mimeType data : string).

Definition word_char (c : ascii) : bool :=
  let n := nat_of_ascii c in
  bool_decide (48 ≤ n ≤ 57 ∨ 65 ≤ n ≤ 90 ∨ 97 ≤ n ≤ 122 ∨ n = 95).

Fixpoint span_word (l : list ascii) : list ascii * list ascii :=
  match l with
  | c :: l' => if word_char c then let '(w, r) := span_word l' in (c :: w, r) else ([], l)
  | [] => ([], [])
  end.

Fixpoint strip_prefix (p l : list ascii) : option (list ascii) :=
  match p, l with
  | [], _ => Some l
  | a :: p', b :: l' => if bool_decide (a = b) then strip_prefix p' l' else None
  | _ :: _, [] => None
  end.

(** [img.base64.replace(/^data:image\/\w+;base64,/, "")]: [\w+] is
    greedy and the character after the word is [;], which is not a word
    character, so the longest run of word characters is the only
    candidate. *)
Definition strip_data_url (s : string) : string :=
  match strip_prefix (String.list_ascii_of_string "data:image/") (String.list_ascii_of_string s) with
  | Some r =>
      let '(w, rest) := span_word r in
      match w, strip_prefix (String.list_ascii_of_string ";base64,") rest with
      | _ :: _, Some payload => String.string_of_list_ascii payload
      | _, _ => s
      end
  | None => s
  end.

Definition image_part (img : View) : Part := InlineData "image/png" (strip_data_url (base64 img)).

Definition vision_text (originalPrompt : string) : string :=
  vision_text_head +:+ originalPrompt +:+ vision_text_tail.

(** [parts: [textPart, ...imageParts]]. *)
Definition vision_parts (originalPrompt : string) (images : list View) : list Part :=
  TextPart (vision_text originalPrompt) :: (image_part <$> images).

Record VisionRequest := MkVisionRequest {
  v_model : string;
  v_parts : list Part;
  v_system : string
}.

Definition vision_request (originalPrompt : string) (images : list View) : VisionRequest :=
  MkVisionRequest "gemini-3-flash-preview" (vision_parts originalPrompt images)
    FEEDBACK_SYSTEM_INSTRUCTION.

(** ** The planner's request (lines 102-136) *)

(** [PLANNER_INSTRUCTION] (lines 102-112). *)
Definition PLANNER_INSTRUCTION : string :=
  "
You are an expert 3D CAD Planning Agent.
Break down the request into atomic execution steps.

RULES:
1. **One Step Per Object**: " +:+ dq +:+
  "3 spheres" +:+ dq +:+
  " -> 3 steps.
2. **Spacing**: Calculate positions (e.g., [0,0,0], [2,0,0]).
3. **Brevity**: Keep steps short and precise.

Output JSON: { " +:+ dq +:+
  "steps" +:+ dq +:+
  ": string[] }
".

(** [model], [contents], [systemInstruction] and [maxOutputTokens] of
    [getPlan]'s call. *)
Record PlannerRequest := MkPlannerRequest {
  p_model : string;
  p_contents : string;
  p_system : string;
  p_maxOutputTokens : nat
}.

Definition planner_request (userPrompt : string) : PlannerRequest :=
  MkPlannerRequest "gemini-3-flash-preview" userPrompt PLANNER_INSTRUCTION 2000.

(** ** Facts *)

(** The system instruction advertises exactly the builtins the engine
    binds, in the same order. *)
Lemma advertised_functions_builtins : advertised_functions = builtin_names.*1.
Proof. vm_compute. reflexivity. Qed.

Lemma strip_data_url_png (p : string) : strip_data_url ("data:image/png;base64," +:+ p) = p.
Proof.
  unfold strip_data_url. rewrite list_ascii_of_string_app. simpl.
  apply String.string_of_list_ascii_of_string.
Qed.

Section Capture.
Variable look_rotation : Vector3 → Vector3 → Vector3 → Vector3.
Variable orbit_update : Vector3 → Camera → Camera.
Variables js_sin js_cos : num → num.
(** The PNG data of a render: [toDataURL('image/png')] is the data URL. *)
Variable png : Camera → string.

(** The vision request of a capture carries the eight renders of the
    eight orbit poses, stripped to their PNG data. *)
Lemma vision_parts_capture (originalPrompt : string) (vs : ViewerScene) :
  vision_parts originalPrompt
    (captureViews look_rotation orbit_update (λ c, "data:image/png;base64," +:+ png c)
       js_sin js_cos vs).1 =
  TextPart (vision_text originalPrompt) ::
    ((λ i, InlineData "image/png"
             (png (camera (orbit_pose look_rotation orbit_update js_sin js_cos i vs)))) <$> seq 0 8).
Proof.
  unfold captureViews.
  pose proof (capture_loop_views look_rotation orbit_update
                (λ c, "data:image/png;base64," +:+ png c) js_sin js_cos (seq 0 8) vs) as Hv.
  destruct (capture_loop _ _ _ _ _ (seq 0 8) vs) as [views vs'].
  cbn [fst] in Hv. subst views. unfold vision_parts. f_equal.
  cbn [fst]. rewrite <- list_fmap_compose. apply list_fmap_ext. intros _ i _.
  unfold compose, image_part. cbn [base64]. by rewrite strip_data_url_png.
Qed.

End Capture.
